(** * Mandelbulb 3D engine

    A shallow embedding of [Jtoolbox.py], [mandelclass_v04.py] and the script
    [mandelskeleton_03.py], with the properties of the ray marcher, the two
    distance estimators, the camera set-up, the depth projector and its
    shading.

    Numbers.  A NumPy [float64] is a primitive binary64 float of Rocq: [+],
    [-], [*], [/], [sqrt], [abs] and the comparisons are the IEEE 754
    operations NumPy performs, with NaN, the infinities and the signed zeros.
    A sum of three terms is accumulated from the left, each product and each
    sum rounded on its own; a BLAS that fuses a product with the running sum
    can differ from this in the last bit and in the sign of a zero.  A Python [int] is a [Z].

    Library functions.  [sin], [cos], [arccos], [arctan], [log] and [power] of
    NumPy are not part of the repository: they are the fields of a record
    [MathLib] that every definition and theorem takes as a parameter.  The
    worked examples run on [RefLib.lib], a table of the values the C library
    returns at the arguments they reach.

    Arrays.  An [N x 3] array is a list of rows [vec3], an [N x 1] array a list
    of floats; elementwise operations are [map] and [zipWith].

    Effects.  A method takes the object and returns the object it leaves
    behind, or the exception raised; what [visualize] prints is a list of
    lines, and what it reads from the clock is an argument.  The calls of
    [render] to matplotlib are a list of actions: they are recorded, and
    return, except [imsave] on an image without entries. *)

From Stdlib Require Import String ZArith List Bool Lia Floats.
Import ListNotations.
Local Open Scope float_scope.

(** ** The NumPy layer *)

Module Np.

(** The math library NumPy delegates to. *)
Record MathLib := {
    sin : float -> float;
    cos : float -> float;
    arccos : float -> float;
    arctan : float -> float;
    log : float -> float;
    power : float -> float -> float
  }.

(** [np.pi]. *)
Definition pi : float := 0x1.921fb54442d18p+1.

(** A Python [int] used where a [float64] is expected (rounded to nearest). *)
Definition of_int (z : Z) : float :=
  SF2Prim (binary_normalize prec emax z 0 false).

(** A boolean mask entry used as a factor: [True] is [1.0], [False] is [0.0]. *)
Definition of_bool (b : bool) : float := if b then 1 else 0.

(** [x >= y] on floats ([False] as soon as one side is NaN). *)
Definition geb (x y : float) : bool := y <=? x.

(** A row of an [N x 3] array. *)
Record vec3 := V3 { c0 : float; c1 : float; c2 : float }.

(** A [3 x 3] array, by rows. *)
Record mat3 := M3 { row0 : vec3; row1 : vec3; row2 : vec3 }.

Definition vmap (f : float -> float) (v : vec3) : vec3 :=
  V3 (f (c0 v)) (f (c1 v)) (f (c2 v)).

Definition vmap2 (f : float -> float -> float) (u v : vec3) : vec3 :=
  V3 (f (c0 u) (c0 v)) (f (c1 u) (c1 v)) (f (c2 u) (c2 v)).

Definition vadd : vec3 -> vec3 -> vec3 := vmap2 add.
Definition vsub : vec3 -> vec3 -> vec3 := vmap2 sub.
Definition vmul : vec3 -> vec3 -> vec3 := vmap2 mul.

(** Broadcasting an [N x 1] entry over the three columns of a row. *)
Definition vscale (v : vec3) (s : float) : vec3 := vmap (fun c => c * s) v.
Definition vdiv (v : vec3) (s : float) : vec3 := vmap (fun c => c / s) v.

(** Sum of three entries, accumulated from the left. *)
Definition sum3 (v : vec3) : float := (c0 v + c1 v) + c2 v.

(** [np.matmul] of a row with a vector of length 3. *)
Definition dot3 (u v : vec3) : float := sum3 (vmul u v).

Definition col0 (M : mat3) : vec3 := V3 (c0 (row0 M)) (c0 (row1 M)) (c0 (row2 M)).
Definition col1 (M : mat3) : vec3 := V3 (c1 (row0 M)) (c1 (row1 M)) (c1 (row2 M)).
Definition col2 (M : mat3) : vec3 := V3 (c2 (row0 M)) (c2 (row1 M)) (c2 (row2 M)).

(** [np.matmul(v, M)] for a vector [v] of length 3. *)
Definition vecmat (v : vec3) (M : mat3) : vec3 :=
  V3 (dot3 v (col0 M)) (dot3 v (col1 M)) (dot3 v (col2 M)).

(** [np.matmul(A, M)] for an [N x 3] array [A]. *)
Definition matmul (A : list vec3) (M : mat3) : list vec3 :=
  map (fun v => vecmat v M) A.

(** [LA.norm(A.T, axis=0)] for one row: [sqrt(add.reduce(x*x))]. *)
Definition norm3 (v : vec3) : float := sqrt (sum3 (vmul v v)).

Definition ones3 : vec3 := V3 1 1 1.

(** Elementwise operations on arrays of one length. *)
Fixpoint zipWith {A B C : Type} (f : A -> B -> C) (a : list A) (b : list B)
  : list C :=
  match a, b with
  | x :: a', y :: b' => f x y :: zipWith f a' b'
  | _, _ => []
  end.

Fixpoint zipWith3 {A B C D : Type} (f : A -> B -> C -> D)
  (a : list A) (b : list B) (c : list C) : list D :=
  match a, b, c with
  | x :: a', y :: b', z :: c' => f x y z :: zipWith3 f a' b' c'
  | _, _, _ => []
  end.

(** [range(n)]. *)
Definition range (n : Z) : list Z := map Z.of_nat (seq 0 (Z.to_nat n)).

(** [y[-1] = stop]. *)
Definition set_last (y : list float) (stop : float) : list float :=
  removelast y ++ [stop].

(** [np.linspace(start, stop, num)]; [None] is the [ValueError] NumPy raises
    for a negative number of samples. *)
Definition linspace (start stop : float) (num : Z) : option (list float) :=
  if (num <? 0)%Z then None
  else
    let div := (num - 1)%Z in
    let delta := stop - start in
    let y := map of_int (range num) in
    let y :=
      if (0 <? div)%Z then
        let step := delta / of_int div in
        if step =? 0 then map (fun v => v / of_int div * delta) y
        else map (fun v => v * step) y
      else map (fun v => v * delta) y in
    let y := map (fun v => v + start) y in
    Some (if (1 <? num)%Z then set_last y stop else y).

(** Rows of [n] entries, [rows] of them. *)
Fixpoint chunks (n rows : nat) (l : list float) : list (list float) :=
  match rows with
  | O => []
  | S k => firstn n l :: chunks n k (skipn n l)
  end.

(** [np.reshape(a, [rows, cols])] of a flat array, row-major; [None] is the
    [ValueError] for sizes that do not fit. *)
Definition reshape (l : list float) (rows cols : Z)
  : option (list (list float)) :=
  if ((rows <? 0) || (cols <? 0))%Z then None
  else if (rows * cols =? Z.of_nat (length l))%Z
       then Some (chunks (Z.to_nat cols) (Z.to_nat rows) l)
       else None.

End Np.

Import Np.

(** ** Jtoolbox.py *)

Module Jtoolbox.
Section WithLib.

Variable L : MathLib.

(** Transformation matrix for rotation around the x-axis. *)
Definition rotx (angle : float) : mat3 :=
  let cos := cos L angle in
  let sin := sin L angle in
  M3 (V3 1 0 0) (V3 0 cos sin) (V3 0 (- sin) cos).

(** Transformation matrix for rotation around the y-axis. *)
Definition roty (angle : float) : mat3 :=
  let cos := cos L angle in
  let sin := sin L angle in
  M3 (V3 cos 0 (- sin)) (V3 0 1 0) (V3 sin 0 cos).

(** Transformation matrix for rotation around the z-axis. *)
Definition rotz (angle : float) : mat3 :=
  let cos := cos L angle in
  let sin := sin L angle in
  M3 (V3 cos sin 0) (V3 (- sin) cos 0) (V3 0 0 1).

(** Distance estimator for a sphere with radius 0.5 at the origin. *)
Definition Sphere (pos : list vec3) : list float :=
  map (fun p => sqrt (dot3 (vmul p p) ones3) - 0.5) pos.

(** [bailout = 1.5], the first line of [mand2]. *)
Definition bailout : float := 1.5.

(** The arrays the loop of [mand2] carries from one iteration to the next
    ([theta], [phi] and [zr] are recomputed before they are read). *)
Record mand_state := MandState {
    z : list vec3;
    dr : list float;
    r : list float
  }.

(** One pass through the body of [for jj in range(iterations)]. *)
Definition mand2_body (pos : list vec3) (power : Z) (st : mand_state)
  : mand_state :=
  let r := map norm3 (z st) in
  let zx := map c0 (z st) in
  let zy := map c1 (z st) in
  let zz := map c2 (z st) in
  let theta := map (arccos L) (zipWith div zz r) in
  let phi := map (arctan L) (zipWith div zy zx) in
  let drnew :=
    zipWith (fun ri dri => Np.power L ri (of_int (power - 1)) * of_int power * dri + 1)
            r (dr st) in
  let dr' :=
    zipWith3 (fun dn ri dri =>
                dn * of_bool (ri <? bailout) + dri * of_bool (geb ri bailout))
             drnew r (dr st) in
  let zr := map (fun ri => Np.power L ri (of_int power)) r in
  let theta := map (fun t => t * of_int power) theta in
  let phi := map (fun p => p * of_int power) phi in
  let znew :=
    zipWith3 (fun zri t p =>
                V3 (zri * (sin L t * cos L p))
                   (zri * (sin L p * sin L t))
                   (zri * cos L t))
             zr theta phi in
  let z' :=
    zipWith3 (fun zn_p ri zi =>
                vadd (vscale zn_p (of_bool (ri <? bailout)))
                     (vscale zi (of_bool (geb ri bailout))))
             (zipWith vadd znew pos) r (z st) in
  MandState z' dr' r.

(** Distance estimator for the mandelbulb fractal. *)
Definition mand2 (pos : list vec3) (iterations power : Z) : list float :=
  let n := length pos in
  let st0 := MandState pos (repeat 1 n) (repeat 0 n) in
  let st :=
    fold_left (fun st (_ : Z) => mand2_body pos power st) (range iterations) st0 in
  zipWith (fun ri dri => abs (0.5 * log L ri * (ri / dri))) (r st) (dr st).

End WithLib.
End Jtoolbox.

(** ** mandelclass_v04.py *)

Module mandelclass.

Import Jtoolbox.

(** The exceptions the modelled part can raise. *)
Inductive exn := ValueError | AttributeError.

Inductive result (A : Type) :=
  | Ok (a : A)
  | Raise (e : exn).
Arguments Ok {A} a.
Arguments Raise {A} e.

(** What [visualize] prints, one constructor per [print]. *)
Inductive line :=
  | RemainingIterations (n : Z)
  | ComputationTime (t : Z).

(** What [visualize] reads from the clock: [round(end - start)] and
    [time.strftime("%Y%m%d%H%M%S")]. *)
Record clock := Clock { elapsed : Z; stamp : string }.

(** A [Mandelbulb] object.  The attributes [pos], [elapsed_time], [fname] and
    [dis] do not exist until a method assigns them. *)
Record Mandelbulb := {
    res : Z;
    nmarch : Z;
    order : Z;
    power : Z;
    proximity : float;
    ele : float;
    azi : float;
    campos : vec3;
    pos : option (list vec3);
    elapsed_time : option Z;
    fname : option string;
    dis : option (list float)
  }.

Definition __init__ (res nmarch order power : Z) (proximity ele azi : float)
  : Mandelbulb :=
  {| res := res; nmarch := nmarch; order := order; power := power;
     proximity := proximity; ele := ele; azi := azi;
     campos := V3 0 proximity 0;
     pos := None; elapsed_time := None; fname := None; dis := None |}.

(** The defaults of [__init__]. *)
Definition default : Mandelbulb := __init__ 200 200 6 8 3 0 0.

(** Lines 56-66: the image-plane grid, one row [(x, y, 1)] per ray. *)
Definition grid (vx vy : list float) (n : nat) : list vec3 :=
  let xx := flat_map (fun x => map (fun _ => x) vy) vx in
  let yy := flat_map (fun _ => vy) vx in
  let zz := repeat 1 n in
  zipWith3 V3 xx yy zz.

(** Lines 79-81: every ray starts at the camera position. *)
Definition initial_positions (campos : vec3) (n : nat) : list vec3 :=
  let ones := repeat 1 n in
  zipWith3 V3 (map (fun o => c0 campos * o) ones)
              (map (fun o => c1 campos * o) ones)
              (map (fun o => c2 campos * o) ones).

(** Lines 87-93: one marching iteration, for a distance estimator [de]. *)
Definition march_step (de : list vec3 -> list float) (dirs pos : list vec3)
  : list vec3 :=
  let step := map (fun s => s * 0x1.999999999999ap-2) (de pos) in
  let step := zipWith (fun s n => s * of_bool (n <? 4)) step (map norm3 pos) in
  zipWith vadd pos (zipWith (fun d s => vscale d (abs s)) dirs step).

(** Lines 85-94: the marching loop with what it prints. *)
Definition march_loop (de : list vec3 -> list float) (dirs : list vec3)
  (nmarch : Z) (pos : list vec3) : list vec3 * list line :=
  fold_left
    (fun (st : list vec3 * list line) (ii : Z) =>
       (march_step de dirs (fst st),
        snd st ++ [RemainingIterations (nmarch - ii)]))
    (range nmarch) (pos, []).

Section WithLib.

Variable L : MathLib.

(** Lines 56-76: ray directions and the rotated camera position. *)
Definition camera (self : Mandelbulb) : result (list vec3 * vec3) :=
  match linspace (-0.5) 0.5 (res self), linspace (-0.5) 0.5 (res self) with
  | Some vx, Some vy =>
      let n := Z.to_nat (res self * res self) in
      let dirs := grid vx vy n in
      let dirs := zipWith vdiv dirs (map norm3 dirs) in
      let dirs := matmul dirs (rotx L (pi / 2)) in
      let dirs := matmul dirs (rotx L (ele self)) in
      let campos := vecmat (campos self) (rotx L (ele self)) in
      let dirs := matmul dirs (rotz L (azi self)) in
      let campos := vecmat campos (rotz L (azi self)) in
      Ok (dirs, campos)
  | _, _ => Raise ValueError
  end.

(** [visualize]: the object after the call and the printed lines. *)
Definition visualize (env : clock) (self : Mandelbulb)
  : result (Mandelbulb * list line) :=
  match camera self with
  | Raise e => Raise e
  | Ok (dirs, campos) =>
      let n := Z.to_nat (res self * res self) in
      let pos0 := initial_positions campos n in
      let (pos', out) :=
        march_loop (fun p => mand2 L p (order self) (power self))
                   dirs (nmarch self) pos0 in
      Ok ({| res := res self; nmarch := nmarch self; order := order self;
             power := power self; proximity := proximity self;
             ele := ele self; azi := azi self; campos := mandelclass.campos self;
             pos := Some pos';
             elapsed_time := Some (elapsed env);
             fname := Some (stamp env ++ "Mandelbulb.png")%string;
             dis := dis self |},
          out ++ [ComputationTime (elapsed env)])
  end.

End WithLib.

(** Lines 107-109 of [render]: the distance map [self.dis] and its
    [res x res] grid [im], which the rest of the method shades, plots and
    saves. *)
Definition render (self : Mandelbulb)
  : result (Mandelbulb * list (list float)) :=
  match pos self with
  | None => Raise AttributeError
  | Some p =>
      let d :=
        map (fun v => sqrt (dot3 (vmap (fun c => c * c) (vsub v (campos self)))
                                 ones3)) p in
      match reshape d (res self) (res self) with
      | None => Raise ValueError
      | Some im =>
          Ok ({| res := res self; nmarch := nmarch self; order := order self;
                 power := power self; proximity := proximity self;
                 ele := ele self; azi := azi self; campos := campos self;
                 pos := pos self;
                 elapsed_time := elapsed_time self;
                 fname := fname self;
                 dis := Some d |},
              im)
      end
  end.

End mandelclass.

(** ** One ray at a time

    The arrays of the source hold one row per ray and every operation on them
    is elementwise, so each of its loops is a loop on one ray.  These are the
    per-ray readings the statements below compare the array code with. *)

Module Ray.

Import Jtoolbox.

(** The masked blend [new*(mask) + old*(~mask)] of the source, for a pair of
    masks. *)
Definition blend (m_new m_old : bool) (new old : float) : float :=
  new * of_bool m_new + old * of_bool m_old.

(** The same blend on a row, the mask broadcast over its columns. *)
Definition vblend (m_new m_old : bool) (new old : vec3) : vec3 :=
  vadd (vscale new (of_bool m_new)) (vscale old (of_bool m_old)).

Section WithLib.

Variable L : MathLib.

(** What [mand2] carries for one point: the iterate [z], the derivative
    accumulator [dr] and the last radius [r]. *)
Record point_state := PointState { pz : vec3; pdr : float; pr : float }.

(** The candidate derivative [r^(power-1) * power * dr + 1]. *)
Definition drnew (power : Z) (r dr : float) : float :=
  Np.power L r (of_int (power - 1)) * of_int power * dr + 1.

(** The candidate iterate: [z] in polar form [r = |z|],
    [theta = arccos(z_z / r)], [phi = arctan(z_y / z_x)], raised to
    [power] and taken back to Cartesian coordinates. *)
Definition znew (power : Z) (z : vec3) : vec3 :=
  let r := norm3 z in
  let theta := arccos L (c2 z / r) in
  let phi := arctan L (c1 z / c0 z) in
  let zr := Np.power L r (of_int power) in
  let theta := theta * of_int power in
  let phi := phi * of_int power in
  V3 (zr * (sin L theta * cos L phi))
     (zr * (sin L phi * sin L theta))
     (zr * cos L theta).

(** One step of the polar power iteration for the sample point [p]. *)
Definition polar_step (power : Z) (p : vec3) (s : point_state)
  : point_state :=
  let r := norm3 (pz s) in
  PointState
    (vblend (r <? bailout) (geb r bailout) (vadd (znew power (pz s)) p) (pz s))
    (blend (r <? bailout) (geb r bailout) (drnew power r (pdr s)) (pdr s))
    r.

(** The distance estimate [|0.5 * ln(r) * r / dr|]. *)
Definition estimate (s : point_state) : float :=
  abs (0.5 * log L (pr s) * (pr s / pdr s)).

(** [mand2] for one point: [iterations] steps, then the estimate. *)
Definition mand2_point (iterations power : Z) (p : vec3) : float :=
  estimate (Nat.iter (Z.to_nat iterations) (polar_step power p)
                     (PointState p 1 0)).

(** The arrays of [mand2] when row [i] holds the state of point [i]. *)
Definition arrays (l : list (vec3 * point_state)) : mand_state :=
  MandState (map (fun e => pz (snd e)) l)
            (map (fun e => pdr (snd e)) l)
            (map (fun e => pr (snd e)) l).

(** One step on a row that pairs the sample point with its state. *)
Definition step_row (power : Z) (e : vec3 * point_state)
  : vec3 * point_state :=
  (fst e, polar_step power (fst e) (snd e)).

End WithLib.

(** [Sphere] for one point. *)
Definition sphere_point (p : vec3) : float :=
  sqrt (dot3 (vmul p p) ones3) - 0.5.

(** One marching iteration for one ray with direction [d], for a distance
    estimator [f] that works point by point. *)
Definition march_ray (f : vec3 -> float) (d p : vec3) : vec3 :=
  let step := f p * 0x1.999999999999ap-2 in
  let step := step * of_bool (norm3 p <? 4) in
  vadd p (vscale d (abs step)).

(** The positions after [k] marching iterations. *)
Definition positions (de : list vec3 -> list float) (dirs pos0 : list vec3)
  (k : nat) : list vec3 :=
  fst (mandelclass.march_loop de dirs (Z.of_nat k) pos0).

(** A row of three numbers: no component is NaN or an infinity. *)
Definition vfinite (v : vec3) : bool :=
  is_finite (c0 v) && is_finite (c1 v) && is_finite (c2 v).

(** No component is the negative zero. *)
Definition is_neg_zero (x : float) : bool := Leibniz.eqb x neg_zero.
Definition no_neg_zero (v : vec3) : bool :=
  negb (is_neg_zero (c0 v) || is_neg_zero (c1 v) || is_neg_zero (c2 v)).

(** The row a ray is left with once a NaN reaches its step. *)
Definition vnan : vec3 := V3 nan nan nan.

End Ray.

(** ** The two orientations *)

Module Camera.

Import Jtoolbox mandelclass.

Section WithLib.

Variable L : MathLib.

(** The composed rotation [v . Rx(pi/2) . Rx(elevation) . Rz(azimuth)]. *)
Definition orientation (self : Mandelbulb) (v : vec3) : vec3 :=
  vecmat (vecmat (vecmat v (rotx L (pi / 2))) (rotx L (ele self)))
         (rotz L (azi self)).

(** The last two of these rotations: [v . Rx(elevation) . Rz(azimuth)]. *)
Definition turn (self : Mandelbulb) (v : vec3) : vec3 :=
  vecmat (vecmat v (rotx L (ele self))) (rotz L (azi self)).

End WithLib.

(** A row divided by its norm. *)
Definition normalize (v : vec3) : vec3 := vdiv v (norm3 v).

(** The Euclidean distance of two points, [LA.norm] of their difference. *)
Definition distance (p q : vec3) : float := norm3 (vsub p q).

End Camera.

(** ** Reading a float through its specification *)

Module Ieee.

(** A float read as NaN, an infinity, or a number. *)
Definition sf_finite (x : spec_float) : bool :=
  match x with
  | S754_zero _ | S754_finite _ _ _ => true
  | _ => false
  end.

Definition sf_nan (x : spec_float) : bool :=
  match x with
  | S754_nan => true
  | _ => false
  end.

Definition sf_zero (x : spec_float) : bool :=
  match x with
  | S754_zero _ => true
  | _ => false
  end.

(** Zero with the positive sign, a positive number or the positive infinity. *)
Definition sf_nonneg (x : spec_float) : bool :=
  match x with
  | S754_zero false | S754_finite false _ _ | S754_infinity false => true
  | _ => false
  end.

(** The exponent [shr_fexp] settles on. *)
Definition target (m e : Z) : Z :=
  Z.max e (fexp prec emax (Zdigits2 m + e)%Z).

(** The float [binary_round_aux] builds from the mantissa and the exponent it
    reaches. *)
Definition rounded (s : bool) (m2 e2 : Z) : spec_float :=
  match m2 with
  | Z0 => S754_zero s
  | Zpos p =>
      if (e2 <=? emax - prec)%Z then S754_finite s p e2 else S754_infinity s
  | Zneg _ => S754_nan
  end.

End Ieee.

(** ** Exact values

    A float read as the number it stands for, to state what [Sphere] would
    return in exact arithmetic.  Every finite binary64 float is a whole
    number of units of [2^-1074]. *)

Module Exact.

(** The float counted in units of [2^-1074]; [None] for NaN and the
    infinities. *)
Definition units (x : float) : option Z :=
  match Prim2SF x with
  | S754_zero _ => Some 0%Z
  | S754_finite s m e => Some (cond_Zopp s (Zpos m) * 2 ^ (e + 1074))%Z
  | _ => None
  end.

(** One half in these units. *)
Definition half : Z := (2 ^ 1073)%Z.

(** [|p|^2] in units of [2^-2148]. *)
Definition norm_sq (p : vec3) : option Z :=
  match units (c0 p), units (c1 p), units (c2 p) with
  | Some x, Some y, Some z => Some (x * x + y * y + z * z)%Z
  | _, _, _ => None
  end.

(** [e = |p| - 0.5]: [e + 0.5] is not negative and its square is [|p|^2]. *)
Definition is_distance (p : vec3) (e : float) : Prop :=
  exists q n,
    units e = Some q /\ norm_sq p = Some n /\
    (0 <= q + half)%Z /\ ((q + half) * (q + half) = n)%Z.

(** [|p| = 0.5]. *)
Definition on_sphere (p : vec3) : Prop :=
  norm_sq p = Some (half * half)%Z.

(** The same as a test. *)
Definition on_sphereb (p : vec3) : bool :=
  match norm_sq p with
  | Some n => (n =? half * half)%Z
  | None => false
  end.

End Exact.

(** ** A reference math library

    The values the C library returns at the few arguments the worked examples
    reach; NaN is returned for NaN and wherever no example needs a value. *)

Module RefLib.

Definition lookup (t : list (float * float)) (x : float) : float :=
  match find (fun e => Leibniz.eqb (fst e) x) t with
  | Some e => snd e
  | None => nan
  end.

Definition half_pi : float := 0x1.921fb54442d18p+0.
Definition four_pi : float := 0x1.921fb54442d18p+3.

Definition sin_table : list (float * float) :=
  [ (0, 0); (half_pi, 1); (four_pi, -0x1.1a62633145c07p-51) ].

Definition cos_table : list (float * float) :=
  [ (0, 1); (half_pi, 0x1.1a62633145c07p-54); (four_pi, 1) ].

Definition arccos_table : list (float * float) :=
  [ (0, half_pi); (1, 0) ].

Definition arctan_table : list (float * float) :=
  [ (0, 0); (infinity, half_pi) ].

Definition log_table : list (float * float) :=
  [ (1, 0); (2, 0x1.62e42fefa39efp-1); (5, 0x1.9c041f7ed8d33p+0);
    (0, neg_infinity); (infinity, infinity) ].

Definition power_table (y : float) : list (float * float) :=
  if Leibniz.eqb y 7 then
  [ (1, 1); (2, 128); (5, 78125); (0, 0); (infinity, infinity) ]
  else if Leibniz.eqb y 8 then
  [ (1, 1); (2, 256); (5, 390625); (0, 0); (infinity, infinity) ]
  else [].

Definition lib : MathLib :=
  {| sin := lookup sin_table;
     cos := lookup cos_table;
     arccos := lookup arccos_table;
     arctan := lookup arctan_table;
     log := lookup log_table;
     power := fun x y => lookup (power_table y) x |}.

End RefLib.

(** ** Inputs of the worked examples *)

Module Examples.

Import Ieee.

(** [1e200]: its square overflows binary64. *)
Definition huge : float := 0x1.4e718d7d7625ap+664.

(** A camera position on the y axis at distance [1e200], as
    [Mandelbulb(proximity=1e200)] places it. *)
Definition far_point : vec3 := V3 0 huge 0.

(** The direction of the central ray for elevation and azimuth 0. *)
Definition towards_origin : vec3 := V3 0 (-1) 0.

(** The iterate of [mand2] at [far_point]: a NaN has crept in, or it still is
    the sample point up to the sign of its zeros. *)
Definition has_nan (v : vec3) : Prop :=
  c0 v = nan \/ c1 v = nan \/ c2 v = nan.

Definition at_far_point (v : vec3) : Prop :=
  sf_zero (Prim2SF (c0 v)) = true /\ c1 v = huge /\
  sf_zero (Prim2SF (c2 v)) = true.

End Examples.

(** ** Python built-ins and the rest of the NumPy layer *)

From Stdlib Require DecimalString DecimalZ DecimalPos.

Module Py.

(** [str(n)] of an [int], which is also how an f-string prints it. *)
Definition str (n : Z) : string :=
  DecimalString.NilZero.string_of_int (Z.to_int n).

(** The line feed of ["\n"]. *)
Definition nl : string := String (Ascii.ascii_of_nat 10) EmptyString.

(** The index a slice bound stands for in a sequence of length [n]: a
    negative bound counts from the end, and the result is cut to [0 .. n]. *)
Definition bound (n i : Z) : Z :=
  let i := if (i <? 0)%Z then (i + n)%Z else i in
  Z.max 0 (Z.min n i).

(** [l[start:stop]]. *)
Definition slice {A : Type} (start stop : Z) (l : list A) : list A :=
  let n := Z.of_nat (length l) in
  let a := bound n start in
  let b := bound n stop in
  firstn (Z.to_nat (b - a)) (skipn (Z.to_nat a) l).

End Py.

Module NpImage.

(** The two halves of [np.clip] on floats, [np.maximum] and [np.minimum]: a
    NaN is handed on, otherwise the first argument is kept when it is [>=]
    (when it is [<=]) the bound, so that a zero keeps its sign. *)
Definition clip_max (a b : float) : float :=
  if is_nan a then a else if b <=? a then a else b.

Definition clip_min (a b : float) : float :=
  if is_nan a then a else if a <=? b then a else b.

(** [np.clip(x, lo, hi)] for one entry. *)
Definition clip (x lo hi : float) : float := clip_min (clip_max x lo) hi.

(** [a[:, start:stop]]: the slice taken in every row. *)
Definition columns (start stop : Z) (a : list (list float))
  : list (list float) :=
  map (Py.slice start stop) a.

(** [a.T] for an array with [cols] columns. *)
Definition transpose (cols : nat) (a : list (list float))
  : list (list float) :=
  map (fun j => map (fun row => nth j row nan) a) (seq 0 cols).

(** [a.size]: the number of entries. *)
Definition size (a : list (list float)) : nat := length (concat a).

End NpImage.

(** ** mandelclass_v04.py: [__str__] and the whole of [render] *)

Module Methods.

Import Jtoolbox mandelclass NpImage.

(** [__str__]. *)
Definition __str__ (self : Mandelbulb) : string :=
  ("Mandelbulb object" ++ Py.nl
   ++ "Resolution: " ++ Py.str (res self) ++ "x" ++ Py.str (res self))%string.

(** The calls [render] makes to matplotlib and to [print], in order. *)
Inductive action :=
  | PltFigure (num : Z)
  | FigClf
  | FigSubplots (rows cols : Z)
  | AxImshow (image : list (list float)) (cmap : string)
  | AxSetTitle (title : string)
  | FigTightLayout
  | CanvasDraw
  | PltShow
  | PltSavefig (name : string)
  | PliImsave (name : string) (image : list (list float)) (cmap : string)
  | PrintLine (text : string).

(** How a call of [render] ends: the object as it is left, the calls that
    returned, and the exception that stopped it, if any. *)
Record outcome := Outcome {
    object : Mandelbulb;
    calls : list action;
    raised : option exn
  }.

(** The assignment [self.dis = d]. *)
Definition set_dis (self : Mandelbulb) (d : list float) : Mandelbulb :=
  {| res := res self; nmarch := nmarch self; order := order self;
     power := power self; proximity := proximity self;
     ele := ele self; azi := azi self; campos := campos self;
     pos := pos self; elapsed_time := elapsed_time self;
     fname := fname self; dis := Some d |}.

(** Line 107: the distance map. *)
Definition distance_map (self : Mandelbulb) (p : list vec3) : list float :=
  map (fun v => sqrt (dot3 (vmap (fun c => c * c) (vsub v (campos self)))
                           ones3)) p.

(** Lines 119-124: the figure title. *)
Definition im_title (filename : string) (self : Mandelbulb) (elapsed : Z)
  : string :=
  (("Marchingiterations: " ++ Py.str (nmarch self) ++ Py.nl)
   ++ ("Manndelbulb_iterations: " ++ Py.str (order self) ++ Py.nl)
   ++ ("file: " ++ filename ++ Py.nl)
   ++ ("Elapsed time: " ++ Py.str elapsed ++ " s"))%string.

Section WithLib.

Variable L : MathLib.

(** One pixel of line 114 and 115, from the depth [a] of its own column and
    the depth [b] of the next one. *)
Definition pixel (res : Z) (a b : float) : float :=
  clip (arctan L ((a - b) * 250 - 0.1) * of_bool (a <? 4) * of_int res
        / 2000) 0 1.

(** Lines 113-115: the image derivative, its shading and the clipping. *)
Definition shade (res : Z) (im : list (list float)) : list (list float) :=
  let ims := zipWith (zipWith sub) (columns 0 (-2) im) (columns 1 (-1) im) in
  let ims :=
    zipWith (zipWith (fun s a =>
                        arctan L (s * 250 - 0.1) * of_bool (a <? 4)
                        * of_int res / 2000))
            ims (columns 0 (-2) im) in
  map (map (fun x => clip x 0 1)) ims.

(** [render], for the file name [filename] of the module.  The calls to
    matplotlib are recorded, not performed; they return, except
    [pli.imsave], which raises [ValueError] for an image without entries
    (a resolution of 0, 1 or 2). *)
Definition render (filename : string) (self : Mandelbulb) : outcome :=
  match pos self with
  | None => Outcome self [] (Some AttributeError)
  | Some p =>
      let self := set_dis self (distance_map self p) in
      match reshape (distance_map self p) (res self) (res self) with
      | None => Outcome self [] (Some ValueError)
      | Some im =>
          let ims := shade (res self) im in
          match elapsed_time self with
          | None => Outcome self [] (Some AttributeError)
          | Some t =>
              let title := im_title filename self t in
              let image := transpose (Z.to_nat (res self) - 2) ims in
              let plot :=
                [PltFigure 2; FigClf; FigSubplots 1 1;
                 AxImshow image "gray"; AxSetTitle title;
                 FigTightLayout; CanvasDraw; PltShow] in
              match fname self with
              | None => Outcome self plot (Some AttributeError)
              | Some f =>
                  let saved :=
                    plot ++ [PltSavefig ("figure_" ++ f)%string] in
                  if (size image =? 0)%nat
                  then Outcome self saved (Some ValueError)
                  else
                    Outcome self
                      (saved ++ [PliImsave f image "gray";
                                 PrintLine "Image files saved"])
                      None
              end
          end
      end
  end.

End WithLib.

End Methods.

(** ** A reference library for the shading

    [RefLib.lib] with the arctangent at [-0.1], the argument line 114 of
    [render] reaches where two neighbouring depths are equal. *)

Module ShadeLib.

Definition arctan_table : list (float * float) :=
  RefLib.arctan_table ++ [ (-0x1.999999999999ap-4, -0x1.983e282e2cc4dp-4) ].

Definition lib : MathLib :=
  {| sin := sin RefLib.lib;
     cos := cos RefLib.lib;
     arccos := arccos RefLib.lib;
     arctan := RefLib.lookup arctan_table;
     log := log RefLib.lib;
     power := power RefLib.lib |}.

End ShadeLib.

(** ** mandelskeleton_03.py *)

Module mandelskeleton.

Import mandelclass Methods.

(** [my_fractal] after the two assignments of the script. *)
Definition my_fractal : Mandelbulb :=
  let f := default in
  let f :=
    {| res := 200; nmarch := nmarch f; order := order f; power := power f;
       proximity := proximity f; ele := ele f; azi := azi f;
       campos := campos f; pos := pos f; elapsed_time := elapsed_time f;
       fname := fname f; dis := dis f |} in
  {| res := res f; nmarch := nmarch f; order := order f; power := power f;
     proximity := proximity f; ele := pi / 180 * 310; azi := azi f;
     campos := campos f; pos := pos f; elapsed_time := elapsed_time f;
     fname := fname f; dis := dis f |}.

(** The script: [visualize], then [render]; what is printed by the first and
    how the second ends. *)
Definition script (L : MathLib) (env : clock) (filename : string)
  : result (list line * outcome) :=
  match visualize L env my_fractal with
  | Raise e => Raise e
  | Ok (f, out) => Ok (out, render L filename f)
  end.

End mandelskeleton.

(** ** Facts about binary64 arithmetic

    Each primitive operation is specified by [FloatAxioms] through its image
    under [Prim2SF]; the special values are settled by cases there. *)

Module FloatFacts.

Import Ieee.

Lemma prim_one : Prim2SF 1 = S754_finite false 4503599627370496 (-52).
Proof. reflexivity. Qed.

Lemma prim_zero : Prim2SF 0 = S754_zero false.
Proof. reflexivity. Qed.

Lemma prim_nan : Prim2SF nan = S754_nan.
Proof. reflexivity. Qed.

Lemma prim_infinity : Prim2SF infinity = S754_infinity false.
Proof. reflexivity. Qed.

Lemma SFeqb_refl_finite s m e :
  SFeqb (S754_finite s m e) (S754_finite s m e) = true.
Proof.
    unfold SFeqb, SFcompare.
    destruct s; now rewrite Z.compare_refl, Pos.compare_cont_refl.
Qed.

Lemma is_nan_SF x : is_nan x = sf_nan (Prim2SF x).
Proof.
    unfold is_nan. rewrite eqb_spec.
    destruct (Prim2SF x) as [s|s| |s m e];
      try reflexivity; try (now destruct s).
    now rewrite SFeqb_refl_finite.
Qed.

Lemma is_infinity_SF x :
  is_infinity x = match Prim2SF x with S754_infinity _ => true | _ => false end.
Proof.
    unfold is_infinity. rewrite eqb_spec, abs_spec, prim_infinity.
    now destruct (Prim2SF x) as [s|s| |s m e].
Qed.

Lemma is_finite_SF x : is_finite x = sf_finite (Prim2SF x).
Proof.
    unfold is_finite. rewrite is_nan_SF, is_infinity_SF.
    now destruct (Prim2SF x).
Qed.

Lemma is_nan_eq x : is_nan x = true -> x = nan.
Proof.
    rewrite is_nan_SF. intros H. apply Prim2SF_inj. rewrite prim_nan.
    now destruct (Prim2SF x).
Qed.

(** *** Multiplication by one is exact *)

Lemma mul_pow52 m :
  (m * 4503599627370496)%positive =
  (m~0~0~0~0~0~0~0~0~0~0~0~0~0~0~0~0~0~0~0~0~0~0~0~0~0~0
    ~0~0~0~0~0~0~0~0~0~0~0~0~0~0~0~0~0~0~0~0~0~0~0~0~0~0)%positive.
Proof. rewrite Pos.mul_comm. reflexivity. Qed.

Lemma digits_pow52 m :
  Zpos (digits2_pos (m * 4503599627370496)) = (Zpos (digits2_pos m) + 52)%Z.
Proof. rewrite mul_pow52. cbn [digits2_pos]. lia. Qed.

Lemma SF64mul_one_r x :
  valid_binary x = true ->
  SF64mul x (S754_finite false 4503599627370496 (-52)) = x.
Proof.
  destruct x as [s|s| |s m e]; intros V; cbn;
    try reflexivity; try (now destruct s).
  unfold binary_round_aux, shr_fexp.
  cbn [Zdigits2]. rewrite digits_pow52.
  cbn in V. apply andb_prop in V. destruct V as [C B].
  unfold canonical_mantissa in C. apply Z.eqb_eq in C.
  replace (Zpos (digits2_pos m) + 52 + (e + -52))%Z
    with (Zpos (digits2_pos m) + e)%Z by lia.
  fold prec emax in *.
  rewrite C.
  replace (e - (e + -52))%Z with 52%Z by lia.
  rewrite mul_pow52.
  cbn -[fexp Z.sub Z.add Z.leb emax prec].
  replace (e + -52 + 52)%Z with e by lia.
  rewrite C, Z.sub_diag. cbn -[Z.leb Z.sub emax prec].
  rewrite xorb_false_r.
  apply Z.leb_le in B. apply Z.leb_le in B as B'. now rewrite B'.
Qed.

Lemma mul_one_r x : x * 1 = x.
Proof.
    apply Prim2SF_inj. rewrite mul_spec, prim_one.
    apply SF64mul_one_r, Prim2SF_valid.
Qed.

(** *** NaN absorbs *)

Lemma mul_nan_r x : x * nan = nan.
Proof.
    apply Prim2SF_inj. rewrite mul_spec, prim_nan.
    now destruct (Prim2SF x).
Qed.

Lemma mul_nan_l x : nan * x = nan.
Proof. apply Prim2SF_inj. now rewrite mul_spec, prim_nan. Qed.

Lemma add_nan_r x : x + nan = nan.
Proof.
    apply Prim2SF_inj. rewrite add_spec, prim_nan.
    now destruct (Prim2SF x).
Qed.

Lemma add_nan_l x : nan + x = nan.
Proof. apply Prim2SF_inj. now rewrite add_spec, prim_nan. Qed.

Lemma abs_nan : abs nan = nan.
Proof. reflexivity. Qed.

(** *** Infinities and NaN never become numbers again *)

Lemma mul_nonfinite_r x y : is_finite y = false -> is_finite (x * y) = false.
Proof.
    rewrite !is_finite_SF, mul_spec.
    now destruct (Prim2SF x), (Prim2SF y).
Qed.

Lemma mul_nonfinite_l x y : is_finite x = false -> is_finite (x * y) = false.
Proof.
    rewrite !is_finite_SF, mul_spec.
    now destruct (Prim2SF x), (Prim2SF y).
Qed.

Lemma add_nonfinite_r x y : is_finite y = false -> is_finite (x + y) = false.
Proof.
    rewrite !is_finite_SF, add_spec.
    destruct (Prim2SF x) as [s|s| |s m e], (Prim2SF y) as [s'|s'| |s' m' e'];
      try discriminate; try reflexivity; now destruct s, s'.
Qed.

Lemma add_nonfinite_l x y : is_finite x = false -> is_finite (x + y) = false.
Proof.
    rewrite !is_finite_SF, add_spec.
    destruct (Prim2SF x) as [s|s| |s m e], (Prim2SF y) as [s'|s'| |s' m' e'];
      try discriminate; try reflexivity; now destruct s, s'.
Qed.

Lemma div_nonfinite_l x y : is_finite x = false -> is_finite (x / y) = false.
Proof.
    rewrite !is_finite_SF, div_spec.
    now destruct (Prim2SF x), (Prim2SF y).
Qed.

Lemma abs_nonfinite x : is_finite x = false -> is_finite (abs x) = false.
Proof.
    rewrite !is_finite_SF, abs_spec. now destruct (Prim2SF x).
Qed.

Lemma sqrt_nonfinite x : is_finite x = false -> is_finite (sqrt x) = false.
Proof.
    rewrite !is_finite_SF, sqrt_spec.
    destruct (Prim2SF x) as [s|s| |s m e]; try discriminate; try reflexivity.
    now destruct s.
Qed.

(** The masked step of a frozen ray: a step that is not a number stays NaN. *)
Lemma mul_zero_nonfinite x : is_finite x = false -> x * 0 = nan.
Proof.
    rewrite is_finite_SF. intros H.
    apply Prim2SF_inj. rewrite mul_spec, prim_zero, prim_nan.
    now destruct (Prim2SF x).
Qed.

(** *** Zeros *)

Lemma mul_zero_finite x :
  is_finite x = true -> sf_zero (Prim2SF (x * 0)) = true.
Proof.
    rewrite is_finite_SF, mul_spec, prim_zero.
    now destruct (Prim2SF x).
Qed.

Lemma mul_zero_cases x : x * 0 = nan \/ sf_zero (Prim2SF (x * 0)) = true.
Proof.
    destruct (is_finite x) eqn:F.
    - right. now apply mul_zero_finite.
    - left. now apply mul_zero_nonfinite.
Qed.

Lemma abs_zero x : sf_zero (Prim2SF x) = true -> abs x = 0.
Proof.
    intros H. apply Prim2SF_inj. rewrite abs_spec, prim_zero.
    now destruct (Prim2SF x).
Qed.

(** Adding a zero changes nothing, the negative zero apart. *)
Lemma add_zero_r x y :
  sf_zero (Prim2SF y) = true -> Prim2SF x <> S754_zero true -> x + y = x.
Proof.
    intros Hy Hx. apply Prim2SF_inj. rewrite add_spec.
    destruct (Prim2SF x) as [s|s| |s m e], (Prim2SF y) as [s'|s'| |s' m' e'];
      try discriminate; try reflexivity.
    destruct s, s'; try reflexivity. now elim Hx.
Qed.

Lemma add_zero_l x y :
  sf_zero (Prim2SF x) = true -> sf_zero (Prim2SF y) = false -> x + y = y.
Proof.
    intros Hx Hy. apply Prim2SF_inj. rewrite add_spec.
    destruct (Prim2SF x) as [s|s| |s m e], (Prim2SF y) as [s'|s'| |s' m' e'];
      try discriminate; reflexivity.
Qed.

Lemma add_zero_zero x y :
  sf_zero (Prim2SF x) = true -> sf_zero (Prim2SF y) = true ->
  sf_zero (Prim2SF (x + y)) = true.
Proof.
    rewrite add_spec.
    destruct (Prim2SF x) as [s|s| |s m e], (Prim2SF y) as [s'|s'| |s' m' e'];
      try discriminate. now destruct s, s'.
Qed.

Lemma neg_zero_SF x :
  Ray.is_neg_zero x = false -> Prim2SF x <> S754_zero true.
Proof.
    unfold Ray.is_neg_zero. intros H E.
    assert (x = neg_zero) as -> by now apply Prim2SF_inj.
    discriminate H.
Qed.

(** *** Comparisons *)

Lemma SFcompare_antisym x y :
  SFcompare y x = option_map CompOpp (SFcompare x y).
Proof.
    destruct x as [s|s| |s m e], y as [s'|s'| |s' m' e']; cbn;
      try reflexivity; try (now destruct s); try (now destruct s');
      try (now destruct s, s').
    destruct s, s'; try reflexivity;
      rewrite (Z.compare_antisym e e');
      destruct (e ?= e')%Z; cbn; try reflexivity;
      rewrite (Pos.compare_cont_antisym m m' Eq); cbn;
      now rewrite ?CompOpp_involutive.
Qed.

Lemma leb_not_ltb x y : (y <=? x) = true -> (x <? y) = false.
Proof.
    rewrite leb_spec, ltb_spec. unfold SFleb, SFltb.
    rewrite (SFcompare_antisym (Prim2SF y) (Prim2SF x)).
    now destruct (SFcompare (Prim2SF y) (Prim2SF x)) as [[]|].
Qed.

Lemma ltb_not_leb x y : (x <? y) = true -> (y <=? x) = false.
Proof.
  intros H. destruct (y <=? x) eqn:E; [|reflexivity].
  now rewrite (leb_not_ltb _ _ E) in H.
Qed.

Lemma sqrt_nonfinite_not_lt x y :
  is_finite (sqrt x) = false -> (sqrt x <? y) = false.
Proof.
  rewrite is_finite_SF, ltb_spec, sqrt_spec.
  assert (I : forall t, SFltb (S754_infinity false) t = false)
    by (intros [s'|[]| |s' m' e']; reflexivity).
  destruct (Prim2SF x) as [s|s| |s m e]; cbn; try discriminate;
    try reflexivity.
  - destruct s; cbn; intros _; [reflexivity | apply I].
  - destruct s; cbn; [reflexivity|].
    destruct (SFsqrt_core_binary prec emax (Z.pos m) e) as [[mz ez] lz].
    unfold binary_round_aux.
    destruct (shr_fexp prec emax mz ez lz) as [mrs e1].
    destruct (shr_fexp prec emax _ e1 loc_Exact) as [mrs' e2].
    destruct (shr_m mrs'); cbn; try discriminate; try reflexivity.
    destruct (e2 <=? _)%Z; cbn; try discriminate.
    intros _. apply I.
Qed.

End FloatFacts.

(** ** Elementwise array code is a map over the rows *)

Module ArrayFacts.

Lemma zipWith_map {A B C D : Type} (f : B -> C -> D) (g : A -> B) (h : A -> C) l :
  zipWith f (map g l) (map h l) = map (fun x => f (g x) (h x)) l.
Proof. induction l as [|a l IH]; cbn; now rewrite ?IH. Qed.

Lemma zipWith_map_l {A B C : Type} (f : A -> B -> C) (h : A -> B) l :
  zipWith f l (map h l) = map (fun x => f x (h x)) l.
Proof. induction l as [|a l IH]; cbn; now rewrite ?IH. Qed.

Lemma zipWith3_map {A B C D E : Type} (f : B -> C -> D -> E)
  (g : A -> B) (h : A -> C) (k : A -> D) l :
  zipWith3 f (map g l) (map h l) (map k l) =
  map (fun x => f (g x) (h x) (k x)) l.
Proof. induction l as [|a l IH]; cbn; now rewrite ?IH. Qed.

Lemma repeat_map {A B : Type} (b : B) (l : list A) :
  repeat b (length l) = map (fun _ => b) l.
Proof. induction l as [|a l IH]; cbn; now rewrite ?IH. Qed.

Lemma length_range n : length (range n) = Z.to_nat n.
Proof. unfold range. now rewrite length_map, length_seq. Qed.

(** A [for] loop that ignores its index applies its body once per index. *)
Lemma fold_left_iter {S I : Type} (body : S -> S) (l : list I) (s : S) :
  fold_left (fun st _ => body st) l s = Nat.iter (length l) body s.
Proof.
    revert s. induction l as [|i l IH]; intros s; cbn [fold_left length].
    - reflexivity.
    - now rewrite IH, Nat.iter_succ_r.
Qed.

Lemma iter_map {A : Type} (f : A -> A) n (l : list A) :
  Nat.iter n (map f) l = map (Nat.iter n f) l.
Proof.
    induction n as [|n IH].
    - cbn. now rewrite map_id.
    - rewrite Nat.iter_succ, IH, map_map.
      apply map_ext. intros a. now rewrite Nat.iter_succ.
Qed.

Lemma nth_error_zipWith {A B C : Type} (f : A -> B -> C) a b i x y :
  nth_error a i = Some x -> nth_error b i = Some y ->
  nth_error (zipWith f a b) i = Some (f x y).
Proof.
    revert b i. induction a as [|u a IH]; intros [|v b] [|i]; cbn;
      try discriminate.
    - now intros [= ->] [= ->].
    - apply IH.
Qed.

End ArrayFacts.

(** ** The Mandelbulb estimator, point by point *)

Module Mand2Facts.

Import Jtoolbox Ray ArrayFacts.

Section WithLib.

Variable L : MathLib.

Lemma mand2_body_rows power l :
  mand2_body L (map fst l) power (arrays l) = arrays (map (step_row L power) l).
Proof.
  unfold mand2_body, arrays. cbn [z dr r].
  repeat (rewrite ?map_map, ?zipWith_map, ?zipWith3_map; cbn beta).
  f_equal; apply map_ext; intros [p [zi dri ri]]; reflexivity.
Qed.

Lemma iter_body_rows power n l :
  Nat.iter n (mand2_body L (map fst l) power) (arrays l) =
  arrays (Nat.iter n (map (step_row L power)) l).
Proof.
  induction n as [|n IH]; [reflexivity|].
  rewrite !Nat.iter_succ, IH.
  assert (E : map fst (Nat.iter n (map (step_row L power)) l) = map fst l).
  { clear IH. induction n as [|n IHn]; [reflexivity|].
    rewrite Nat.iter_succ, map_map. cbn [step_row fst]. exact IHn. }
  rewrite <- E at 1. apply mand2_body_rows.
Qed.

Lemma iter_step_row power n p s :
  Nat.iter n (step_row L power) (p, s) = (p, Nat.iter n (polar_step L power p) s).
Proof.
  induction n as [|n IH]; [reflexivity|].
  now rewrite !Nat.iter_succ, IH.
Qed.

(** [mand2] treats every row of [pos] on its own. *)
Lemma mand2_map pos iterations power :
  mand2 L pos iterations power = map (mand2_point L iterations power) pos.
Proof.
  unfold mand2.
  rewrite fold_left_iter with (body := mand2_body L pos power), length_range.
  set (l := map (fun p => (p, PointState p 1 0)) pos).
  assert (Epos : pos = map fst l).
  { unfold l. rewrite map_map. cbn. now rewrite map_id. }
  assert (Est : MandState pos (repeat 1 (length pos)) (repeat 0 (length pos))
                = arrays l).
  { unfold arrays, l. rewrite !map_map, !repeat_map. cbn.
    now rewrite map_id. }
  assert (Eit : Nat.iter (Z.to_nat iterations) (mand2_body L pos power)
                  (MandState pos (repeat 1 (length pos)) (repeat 0 (length pos)))
                = arrays (map (Nat.iter (Z.to_nat iterations) (step_row L power)) l)).
  { rewrite Est. rewrite Epos at 1. now rewrite iter_body_rows, iter_map. }
  rewrite Eit. unfold arrays. cbn [r dr].
  rewrite zipWith_map. unfold l. rewrite !map_map.
  apply map_ext. intros p. rewrite iter_step_row. reflexivity.
Qed.

End WithLib.

End Mand2Facts.

(** ** The marching loop, ray by ray *)

Module MarchFacts.

Import Jtoolbox mandelclass Ray Ieee ArrayFacts FloatFacts.

Lemma zipWith_rows {A B C D E : Type} (f : A -> C -> D) (g : B -> E -> C)
  (h : A -> E) (a : list A) (b : list B) :
  zipWith f a (zipWith g b (map h a)) =
  zipWith (fun y x => f x (g y (h x))) b a.
Proof.
    revert b. induction a as [|x a IH]; intros [|y b]; cbn; try reflexivity.
    now rewrite IH.
Qed.

Lemma iter_ext {A : Type} (g h : A -> A) n x :
  (forall y, g y = h y) -> Nat.iter n g x = Nat.iter n h x.
Proof.
  intros E. induction n as [|n IH]; [reflexivity|].
  now rewrite !Nat.iter_succ, IH, E.
Qed.

Section WithEstimator.

Variable de : list vec3 -> list float.
Variable f : vec3 -> float.
Hypothesis de_rows : forall ps, de ps = map f ps.

Lemma march_step_rows dirs pos :
  march_step de dirs pos = zipWith (march_ray f) dirs pos.
Proof.
      unfold march_step. rewrite de_rows, map_map, zipWith_map.
      now rewrite zipWith_rows.
Qed.

Lemma march_loop_fold dirs nmarch (l : list Z) pos out :
  fold_left
    (fun (st : list vec3 * list line) (ii : Z) =>
       (march_step de dirs (fst st),
        snd st ++ [RemainingIterations (nmarch - ii)]))
    l (pos, out) =
  (Nat.iter (length l) (march_step de dirs) pos,
   out ++ map (fun ii => RemainingIterations (nmarch - ii)) l).
Proof.
      revert pos out. induction l as [|ii l IH]; intros pos out.
      - cbn. now rewrite app_nil_r.
      - cbn [fold_left fst snd length map]. rewrite IH, Nat.iter_succ_r.
        now rewrite <- app_assoc.
Qed.

Lemma march_loop_iter dirs nmarch pos :
  march_loop de dirs nmarch pos =
  (Nat.iter (Z.to_nat nmarch) (march_step de dirs) pos,
   map (fun ii => RemainingIterations (nmarch - ii)) (range nmarch)).
Proof.
      unfold march_loop. now rewrite march_loop_fold, length_range.
Qed.

Lemma positions_iter dirs pos0 k :
  positions de dirs pos0 k = Nat.iter k (march_step de dirs) pos0.
Proof.
      unfold positions. now rewrite march_loop_iter, Nat2Z.id.
Qed.

Lemma positions_add dirs pos0 k n :
  positions de dirs pos0 (k + n) =
  Nat.iter n (march_step de dirs) (positions de dirs pos0 k).
Proof.
      rewrite !positions_iter, Nat.add_comm. apply Nat.iter_add.
Qed.

(** Ray [i] of the batch follows [march_ray]. *)
Lemma nth_march_iter dirs pos i d p n :
  nth_error dirs i = Some d -> nth_error pos i = Some p ->
  nth_error (Nat.iter n (march_step de dirs) pos) i =
  Some (Nat.iter n (march_ray f d) p).
Proof.
      intros Hd Hp. induction n as [|n IH]; [exact Hp|].
      rewrite !Nat.iter_succ, march_step_rows.
      now apply nth_error_zipWith.
Qed.

End WithEstimator.

(** *** A frozen ray *)

Lemma add_frozen_component p d s :
  is_finite s = true -> is_finite d = true -> is_neg_zero p = false ->
  p + d * abs (s * 0) = p.
Proof.
    intros Fs Fd Hp.
    rewrite (abs_zero _ (mul_zero_finite _ Fs)).
    apply add_zero_r; [now apply mul_zero_finite | now apply neg_zero_SF].
Qed.

Lemma march_ray_frozen f d p :
  (norm3 p <? 4) = false ->
  is_finite (f p * 0x1.999999999999ap-2) = true ->
  vfinite d = true -> no_neg_zero p = true ->
  march_ray f d p = p.
Proof.
  intros Hn Fs Fd Hz.
  unfold march_ray. rewrite Hn. cbn [of_bool].
  unfold vfinite in Fd. apply andb_prop in Fd as [Fd F2].
  apply andb_prop in Fd as [F0 F1].
  unfold no_neg_zero in Hz. apply negb_true_iff in Hz.
  apply orb_false_elim in Hz as [Hz Z2]. apply orb_false_elim in Hz as [Z0 Z1].
  destruct p as [p0 p1 p2], d as [d0 d1 d2].
  unfold vadd, vscale, vmap2, vmap. cbn [c0 c1 c2] in *.
  now rewrite !add_frozen_component.
Qed.

Lemma march_ray_frozen_iter f d p n :
  (norm3 p <? 4) = false ->
  is_finite (f p * 0x1.999999999999ap-2) = true ->
  vfinite d = true -> no_neg_zero p = true ->
  Nat.iter n (march_ray f d) p = p.
Proof.
  intros Hn Fs Fd Hz. induction n as [|n IH]; [reflexivity|].
  rewrite Nat.iter_succ, IH. now apply march_ray_frozen.
Qed.

(** *** An active ray *)

Lemma march_ray_active f d p :
  (norm3 p <? 4) = true ->
  march_ray f d p = vadd p (vscale d (abs (f p * 0x1.999999999999ap-2))).
Proof.
    intros Hn. unfold march_ray. rewrite Hn. cbn [of_bool].
    now rewrite mul_one_r.
Qed.

(** *** A step that is not a number *)

Lemma march_ray_nan f d p : is_nan (f p) = true -> march_ray f d p = vnan.
Proof.
    intros H. unfold march_ray. rewrite (is_nan_eq _ H).
    rewrite !mul_nan_l, abs_nan.
    unfold vadd, vscale, vmap2, vmap. cbn [c0 c1 c2].
    now rewrite !mul_nan_r, !add_nan_r.
Qed.

Lemma march_ray_frozen_nonfinite f d p :
  (norm3 p <? 4) = false -> is_finite (f p) = false ->
  march_ray f d p = vnan.
Proof.
    intros Hn H. unfold march_ray. rewrite Hn. cbn [of_bool].
    rewrite (mul_zero_nonfinite _ (mul_nonfinite_l _ _ H)), abs_nan.
    unfold vadd, vscale, vmap2, vmap. cbn [c0 c1 c2].
    now rewrite !mul_nan_r, !add_nan_r.
Qed.

Lemma march_ray_nonfinite f d p :
  is_finite (f p) = false ->
  is_finite (c0 (march_ray f d p)) = false /\
  is_finite (c1 (march_ray f d p)) = false /\
  is_finite (c2 (march_ray f d p)) = false.
Proof.
    intros H. unfold march_ray.
    assert (S : is_finite
                  (abs (f p * 0x1.999999999999ap-2 * of_bool (norm3 p <? 4)))
                = false).
    { apply abs_nonfinite. destruct (norm3 p <? 4); cbn [of_bool].
      - rewrite mul_one_r. now apply mul_nonfinite_l.
      - rewrite mul_zero_nonfinite; [reflexivity | now apply mul_nonfinite_l]. }
    unfold vadd, vscale, vmap2, vmap. cbn [c0 c1 c2].
    repeat split; apply add_nonfinite_r; now apply mul_nonfinite_r.
Qed.

End MarchFacts.

(** ** A point whose norm overflows

    At distance [1e200] the squared norm is infinite.  Whatever the math
    library returns, [mand2] then yields an infinity or NaN. *)

Module OverflowFacts.

Import Jtoolbox Ray Ieee FloatFacts Examples.

Lemma has_nan_norm v : has_nan v -> is_finite (norm3 v) = false.
Proof.
  destruct v as [a b c]. unfold has_nan, norm3, sum3, vmul, vmap2.
  cbn [c0 c1 c2]. intros [-> | [-> | ->]]; apply sqrt_nonfinite.
  - apply add_nonfinite_l, add_nonfinite_l. now rewrite mul_nan_l.
  - apply add_nonfinite_l, add_nonfinite_r. now rewrite mul_nan_l.
  - apply add_nonfinite_r. now rewrite mul_nan_l.
Qed.

Lemma mul_zero_zero x y :
  sf_zero (Prim2SF x) = true -> sf_zero (Prim2SF y) = true ->
  sf_zero (Prim2SF (x * y)) = true.
Proof.
  rewrite mul_spec. now destruct (Prim2SF x), (Prim2SF y).
Qed.

Lemma at_far_point_norm v : at_far_point v -> norm3 v = infinity.
Proof.
  destruct v as [a b c]. unfold at_far_point, norm3, sum3, vmul, vmap2.
  cbn [c0 c1 c2]. intros (Ha & -> & Hc).
  change (huge * huge) with infinity.
  rewrite (add_zero_l (a * a) infinity (mul_zero_zero _ _ Ha Ha) eq_refl).
  rewrite (add_zero_r infinity (c * c) (mul_zero_zero _ _ Hc Hc));
    [reflexivity | discriminate].
Qed.

Section WithLib.

Variable L : MathLib.
Variable power : Z.

Lemma blend_keep new old :
  blend false true new old = nan \/
  (sf_zero (Prim2SF (new * 0)) = true /\ blend false true new old = new * 0 + old).
Proof.
  unfold blend. cbn [of_bool]. rewrite mul_one_r.
  destruct (mul_zero_cases new) as [E|E].
  - left. now rewrite E, add_nan_l.
  - right. now split.
Qed.

Lemma polar_step_far s :
  has_nan (pz s) \/ at_far_point (pz s) ->
  has_nan (pz (polar_step L power far_point s)) \/
  at_far_point (pz (polar_step L power far_point s)).
Proof.
  unfold polar_step. cbn [pz]. intros [H|H].
  - left. destruct (pz s) as [a b c]. unfold has_nan in *.
    unfold vblend, vadd, vscale, vmap2, vmap. cbn [c0 c1 c2] in *.
    destruct H as [-> | [-> | ->]]; rewrite mul_nan_l, add_nan_r; tauto.
  - rewrite (at_far_point_norm _ H).
    change (infinity <? bailout) with false.
    change (geb infinity bailout) with true.
    destruct (pz s) as [a b c]. destruct H as (Ha & Hb & Hc).
    cbn [c0 c1 c2] in *. subst b.
    set (cand := vadd _ far_point). destruct cand as [x y w].
    unfold vblend, vadd, vscale, vmap2, vmap. cbn [c0 c1 c2].
    fold (blend false true x a). fold (blend false true y huge).
    fold (blend false true w c).
    destruct (blend_keep x a) as [E0|[Z0 E0]];
      [left; left; exact E0|].
    destruct (blend_keep y huge) as [E1|[Z1 E1]];
      [left; right; left; exact E1|].
    destruct (blend_keep w c) as [E2|[Z2 E2]];
      [left; right; right; exact E2|].
    right. rewrite E0, E1, E2. repeat split.
    + now apply add_zero_zero.
    + now apply add_zero_l.
    + now apply add_zero_zero.
Qed.

Lemma iter_polar_step_far n :
  let s := Nat.iter n (polar_step L power far_point) (PointState far_point 1 0) in
  has_nan (pz s) \/ at_far_point (pz s).
Proof.
  induction n as [|n IH].
  - right. now repeat split.
  - cbn zeta. rewrite Nat.iter_succ. now apply polar_step_far.
Qed.

Lemma far_norm_nonfinite v :
  has_nan v \/ at_far_point v -> is_finite (norm3 v) = false.
Proof.
  intros [H|H]; [now apply has_nan_norm | now rewrite at_far_point_norm].
Qed.

(** With at least one iteration the estimate at [far_point] is not a number. *)
Lemma mand2_point_far iterations :
  (0 < iterations)%Z ->
  is_finite (mand2_point L iterations power far_point) = false.
Proof.
  intros H. unfold mand2_point.
  destruct (Z.to_nat iterations) as [|n] eqn:E; [lia|].
  rewrite Nat.iter_succ. unfold estimate, polar_step at 1. cbn [pr pdr].
  apply abs_nonfinite, mul_nonfinite_r, div_nonfinite_l, far_norm_nonfinite.
  apply iter_polar_step_far.
Qed.

(** The ray at [far_point] is past the abort radius and its position turns
    into NaN in one marching iteration. *)
Lemma march_ray_far iterations d :
  (0 < iterations)%Z ->
  march_ray (mand2_point L iterations power) d far_point = vnan.
Proof.
  intros H. apply MarchFacts.march_ray_frozen_nonfinite.
  - reflexivity.
  - now apply mand2_point_far.
Qed.

End WithLib.

End OverflowFacts.

(** ** The masked blend of [mand2] *)

Module BlendFacts.

Import Jtoolbox Ray Ieee FloatFacts.

Lemma add_zero_l_keep x y :
  sf_zero (Prim2SF x) = true -> Prim2SF y <> S754_zero true -> x + y = y.
Proof.
  intros Hx Hy. apply Prim2SF_inj. rewrite add_spec.
  destruct (Prim2SF x) as [s|s| |s m e], (Prim2SF y) as [s'|s'| |s' m' e'];
    try discriminate; try reflexivity.
  destruct s, s'; try reflexivity. now elim Hy.
Qed.

(** Mask [r >= bailout]: the old value is kept when the new one is a number. *)
Lemma blend_keep_finite new old :
  is_finite new = true -> is_neg_zero old = false ->
  blend false true new old = old.
Proof.
  intros Fn Hz. unfold blend. cbn [of_bool]. rewrite mul_one_r.
  apply add_zero_l_keep; [now apply mul_zero_finite | now apply neg_zero_SF].
Qed.

(** Mask [r < bailout]: the new value is taken when the old one is a number. *)
Lemma blend_take_finite new old :
  is_finite old = true -> is_neg_zero new = false ->
  blend true false new old = new.
Proof.
  intros Fo Hz. unfold blend. cbn [of_bool]. rewrite mul_one_r.
  apply add_zero_r; [now apply mul_zero_finite | now apply neg_zero_SF].
Qed.

Lemma vfinite_components v :
  vfinite v = true ->
  is_finite (c0 v) = true /\ is_finite (c1 v) = true /\ is_finite (c2 v) = true.
Proof.
  unfold vfinite. intros H. apply andb_prop in H as [H H2].
  apply andb_prop in H as [H0 H1]. now repeat split.
Qed.

Lemma no_neg_zero_components v :
  no_neg_zero v = true ->
  is_neg_zero (c0 v) = false /\ is_neg_zero (c1 v) = false /\
  is_neg_zero (c2 v) = false.
Proof.
  unfold no_neg_zero. intros H. apply negb_true_iff in H.
  apply orb_false_elim in H as [H H2]. apply orb_false_elim in H as [H0 H1].
  now repeat split.
Qed.

Lemma vblend_keep_finite new old :
  vfinite new = true -> no_neg_zero old = true ->
  vblend false true new old = old.
Proof.
  intros Fn Hz.
  apply vfinite_components in Fn as (F0 & F1 & F2).
  apply no_neg_zero_components in Hz as (Z0 & Z1 & Z2).
  destruct new as [n0 n1 n2], old as [o0 o1 o2]. cbn [c0 c1 c2] in *.
  unfold vblend, vadd, vscale, vmap2, vmap. cbn [c0 c1 c2].
  fold (blend false true n0 o0). fold (blend false true n1 o1).
  fold (blend false true n2 o2).
  now rewrite !blend_keep_finite.
Qed.

Lemma vblend_take_finite new old :
  vfinite old = true -> no_neg_zero new = true ->
  vblend true false new old = new.
Proof.
  intros Fo Hz.
  apply vfinite_components in Fo as (F0 & F1 & F2).
  apply no_neg_zero_components in Hz as (Z0 & Z1 & Z2).
  destruct new as [n0 n1 n2], old as [o0 o1 o2]. cbn [c0 c1 c2] in *.
  unfold vblend, vadd, vscale, vmap2, vmap. cbn [c0 c1 c2].
  fold (blend true false n0 o0). fold (blend true false n1 o1).
  fold (blend true false n2 o2).
  now rewrite !blend_take_finite.
Qed.

(** A norm below a bound is the norm of three numbers. *)
Lemma norm_lt_finite v y : (norm3 v <? y) = true -> vfinite v = true.
Proof.
  intros H. unfold vfinite.
  destruct (is_finite (c0 v)) eqn:F0; [|exfalso].
  destruct (is_finite (c1 v)) eqn:F1; [|exfalso].
  destruct (is_finite (c2 v)) eqn:F2; [reflexivity|exfalso].
  all: enough (E : is_finite (norm3 v) = false)
    by (unfold norm3 in *; now rewrite (sqrt_nonfinite_not_lt _ y E) in H).
  all: unfold norm3, sum3, vmul, vmap2; cbn [c0 c1 c2]; apply sqrt_nonfinite.
  - now apply add_nonfinite_r, mul_nonfinite_l.
  - now apply add_nonfinite_l, add_nonfinite_r, mul_nonfinite_l.
  - now apply add_nonfinite_l, add_nonfinite_l, mul_nonfinite_l.
Qed.

Section WithLib.

Variable L : MathLib.
Variable power : Z.

(** A point below the bailout takes the candidate values. *)
Lemma polar_step_active p s :
  (norm3 (pz s) <? bailout) = true ->
  is_finite (pdr s) = true ->
  is_neg_zero (drnew L power (norm3 (pz s)) (pdr s)) = false ->
  no_neg_zero (vadd (znew L power (pz s)) p) = true ->
  polar_step L power p s =
  PointState (vadd (znew L power (pz s)) p)
             (drnew L power (norm3 (pz s)) (pdr s))
             (norm3 (pz s)).
Proof.
  intros Hr Fd Zd Zz. unfold polar_step. rewrite Hr.
  unfold geb. rewrite (ltb_not_leb _ _ Hr).
  rewrite vblend_take_finite, blend_take_finite; try assumption;
    [reflexivity | now apply norm_lt_finite with bailout].
Qed.

(** A point at or past the bailout keeps [z] and [dr] when the candidate
    values are numbers. *)
Lemma polar_step_frozen p s :
  geb (norm3 (pz s)) bailout = true ->
  is_finite (drnew L power (norm3 (pz s)) (pdr s)) = true ->
  vfinite (vadd (znew L power (pz s)) p) = true ->
  is_neg_zero (pdr s) = false ->
  no_neg_zero (pz s) = true ->
  polar_step L power p s = PointState (pz s) (pdr s) (norm3 (pz s)).
Proof.
  intros Hr Fd Fz Zd Zz. unfold polar_step. rewrite Hr.
  rewrite (leb_not_ltb _ _ Hr).
  now rewrite vblend_keep_finite, blend_keep_finite.
Qed.

Lemma polar_step_frozen_iter p s n :
  geb (norm3 (pz s)) bailout = true ->
  is_finite (drnew L power (norm3 (pz s)) (pdr s)) = true ->
  vfinite (vadd (znew L power (pz s)) p) = true ->
  is_neg_zero (pdr s) = false ->
  no_neg_zero (pz s) = true ->
  Nat.iter (S n) (polar_step L power p) s =
  PointState (pz s) (pdr s) (norm3 (pz s)).
Proof.
  intros Hr Fd Fz Zd Zz. induction n as [|n IH].
  - now apply polar_step_frozen.
  - rewrite Nat.iter_succ, IH.
    now apply (polar_step_frozen p (PointState (pz s) (pdr s) (norm3 (pz s)))).
Qed.

(** On the z axis [z_y / z_x] is [0/0]: with an arctangent and a cosine that
    return NaN for NaN, the candidate is NaN and the blend hands it on. *)
Lemma polar_step_on_axis :
  arctan L nan = nan -> cos L nan = nan ->
  c0 (pz (polar_step L power (V3 0 0 2) (PointState (V3 0 0 2) 1 0))) = nan.
Proof.
  intros Ha Hc. unfold polar_step, znew. cbn [pz c0 c1 c2].
  change (0 / 0) with nan. rewrite Ha, mul_nan_l, Hc.
  unfold vblend, vadd, vscale, vmap2, vmap. cbn [c0 c1 c2].
  now rewrite !mul_nan_r, !add_nan_l.
Qed.

End WithLib.

End BlendFacts.

(** ** The methods of the class *)

Module ClassFacts.

Import Jtoolbox mandelclass Ray Camera ArrayFacts FloatFacts.

Lemma linspace_negative a b n : (n < 0)%Z -> linspace a b n = None.
Proof.
  intros H. unfold linspace. now rewrite (proj2 (Z.ltb_lt n 0) H).
Qed.

Lemma linspace_nonnegative a b n :
  (0 <= n)%Z -> exists l, linspace a b n = Some l.
Proof.
  intros H. unfold linspace. rewrite (proj2 (Z.ltb_ge n 0) H). eauto.
Qed.

Lemma initial_positions_repeat c n : initial_positions c n = repeat c n.
Proof.
  unfold initial_positions. destruct c as [x y w]. cbn [c0 c1 c2].
  induction n as [|n IH]; cbn; [reflexivity|].
  now rewrite IH, !mul_one_r.
Qed.

Section WithLib.

Variable L : MathLib.

Lemma camera_negative self : (res self < 0)%Z -> camera L self = Raise ValueError.
Proof. intros H. unfold camera. now rewrite linspace_negative. Qed.

Lemma camera_ok self dirs c :
  camera L self = Ok (dirs, c) ->
  c = turn L self (campos self) /\
  exists vx,
    linspace (-0.5) 0.5 (res self) = Some vx /\
    dirs = map (fun g => orientation L self (normalize g))
               (grid vx vx (Z.to_nat (res self * res self))).
Proof.
  unfold camera.
  destruct (linspace (-0.5) 0.5 (res self)) as [vx|]; [|discriminate].
  intros [= <- <-]. split; [reflexivity|]. exists vx. split; [reflexivity|].
  unfold matmul. rewrite zipWith_map_l, !map_map. reflexivity.
Qed.

Lemma camera_nonnegative self :
  (0 <= res self)%Z -> exists dirs c, camera L self = Ok (dirs, c).
Proof.
  intros H. unfold camera.
  destruct (linspace_nonnegative (-0.5) 0.5 _ H) as [vx ->]. eauto.
Qed.

(** What [visualize] returns once the camera is set up. *)
Lemma visualize_ok env self dirs c :
  camera L self = Ok (dirs, c) ->
  exists pos' out,
    march_loop (fun p => mand2 L p (order self) (power self)) dirs (nmarch self)
               (initial_positions c (Z.to_nat (res self * res self)))
    = (pos', out) /\
    visualize L env self =
    Ok ({| res := res self; nmarch := nmarch self; order := order self;
           power := power self; proximity := proximity self;
           ele := ele self; azi := azi self; campos := campos self;
           pos := Some pos';
           elapsed_time := Some (elapsed env);
           fname := Some (stamp env ++ "Mandelbulb.png")%string;
           dis := dis self |},
        out ++ [ComputationTime (elapsed env)]).
Proof.
  intros H. unfold visualize. rewrite H.
  destruct (march_loop _ dirs (nmarch self) _) as [pos' out].
  now exists pos', out.
Qed.

Lemma visualize_raise env self e :
  camera L self = Raise e -> visualize L env self = Raise e.
Proof. intros H. unfold visualize. now rewrite H. Qed.

End WithLib.

(** With zero iterations [mand2] returns the same value for every point. *)
Lemma mand2_no_iterations L pos iterations power :
  (iterations <= 0)%Z ->
  mand2 L pos iterations power = map (fun _ => abs (0.5 * log L 0 * (0 / 1))) pos.
Proof.
  intros H. rewrite Mand2Facts.mand2_map. apply map_ext. intros p.
  unfold mand2_point. now replace (Z.to_nat iterations) with 0%nat by lia.
Qed.

(** Entry [(i, j)] of the reshaped grid is entry [i * cols + j] of the flat
    array. *)
Lemma chunks_nth n rows l i j row :
  length l = (rows * n)%nat -> (j < n)%nat ->
  nth_error (chunks n rows l) i = Some row ->
  nth_error row j = nth_error l (i * n + j).
Proof.
  revert l i. induction rows as [|rows IH]; intros l i Hl Hj Hrow.
  - now destruct i.
  - destruct i as [|i]; cbn in Hrow.
    + injection Hrow as <-. cbn [Nat.mul Nat.add].
      rewrite nth_error_firstn. now rewrite (proj2 (Nat.ltb_lt j n) Hj).
    + rewrite (IH (skipn n l) i); try assumption.
      * rewrite nth_error_skipn. f_equal. lia.
      * rewrite length_skipn. lia.
Qed.

End ClassFacts.

(** ** Rounding to binary64

    What [binary_round_aux], the rounding step shared by the specifications of
    [*], [+], [-] and [sqrt], returns for a mantissa that is not negative: the
    sign it is given, never NaN, and an exponent it moves up by one at most. *)

Module RoundFacts.

Import Ieee FloatFacts.
Local Open Scope Z_scope.

Lemma digits2_size p : digits2_pos p = Pos.size p.
Proof. induction p as [p IH|p IH|]; cbn; now rewrite ?IH. Qed.

Lemma Zdigits2_log2 m : 0 < m -> Zdigits2 m = Z.log2 m + 1.
Proof.
  destruct m as [|p|p]; try lia. intros _. cbn [Zdigits2].
  rewrite digits2_size. destruct p as [p|p|]; cbn; lia.
Qed.

Lemma Zdigits2_le_iff m k : 0 < m -> (m < 2 ^ k <-> Zdigits2 m <= k).
Proof.
  intros H. rewrite (Zdigits2_log2 m H), (Z.log2_lt_pow2 m k H). lia.
Qed.

Lemma Zdigits2_lower m : 0 < m -> 2 ^ (Zdigits2 m - 1) <= m.
Proof.
  intros H. rewrite (Zdigits2_log2 m H).
  replace (Z.log2 m + 1 - 1) with (Z.log2 m) by lia.
  apply Z.log2_spec. exact H.
Qed.

(** Dropping [k] low bits of a mantissa of [d > k] digits leaves [d - k]. *)
Lemma Zdigits2_div m k :
  0 < m -> 0 <= k -> k < Zdigits2 m ->
  0 < m / 2 ^ k /\ Zdigits2 (m / 2 ^ k) = Zdigits2 m - k.
Proof.
  intros Hm Hk Hd.
  pose proof (Zdigits2_lower m Hm) as Lo.
  assert (P : 0 < 2 ^ k) by (apply Z.pow_pos_nonneg; lia).
  assert (Q : 0 < m / 2 ^ k).
  { apply Z.div_str_pos. split; [exact P|].
    apply Z.le_trans with (2 ^ (Zdigits2 m - 1)); [|exact Lo].
    apply Z.pow_le_mono_r; lia. }
  split; [exact Q|].
  rewrite (Zdigits2_log2 _ Q), (Zdigits2_log2 m Hm).
  rewrite <- Z.shiftr_div_pow2 by exact Hk.
  rewrite (Z.log2_shiftr m k Hm).
  rewrite (Zdigits2_log2 m Hm) in Hd. lia.
Qed.

(** *** Shifting right *)

Lemma shr_1_div mrs : 0 <= shr_m mrs -> shr_m (shr_1 mrs) = shr_m mrs / 2.
Proof.
  destruct mrs as [m r s]. cbn [shr_m]. intros H.
  destruct m as [|[p|p|]|p]; cbn [shr_1 shr_m]; try reflexivity; try lia.
  - rewrite Pos2Z.inj_xI. apply Z.div_unique with 1; lia.
  - rewrite Pos2Z.inj_xO. apply Z.div_unique with 0; lia.
Qed.

Lemma iter_shr_div n mrs :
  0 <= shr_m mrs ->
  shr_m (iter_pos shr_1 n mrs) = shr_m mrs / 2 ^ Zpos n.
Proof.
  revert mrs. induction n as [n IH|n IH|]; intros mrs H; cbn [iter_pos].
  - assert (P : 0 < 2 ^ Zpos n) by (apply Z.pow_pos_nonneg; lia).
    assert (H1 : 0 <= shr_m (shr_1 mrs))
      by (rewrite shr_1_div by exact H; apply Z.div_pos; lia).
    assert (H2 : 0 <= shr_m (iter_pos shr_1 n (shr_1 mrs)))
      by (rewrite IH by exact H1; apply Z.div_pos; lia).
    rewrite (IH _ H2), (IH _ H1), (shr_1_div _ H).
    assert (E : 2 ^ Zpos n~1 = 2 * 2 ^ Zpos n * 2 ^ Zpos n).
    { rewrite (Pos2Z.inj_xI n).
      replace (2 * Zpos n + 1) with (1 + Zpos n + Zpos n) by lia.
      rewrite !Z.pow_add_r by lia. reflexivity. }
    rewrite E, !Z.div_div by lia. try (f_equal; ring).
  - assert (P : 0 < 2 ^ Zpos n) by (apply Z.pow_pos_nonneg; lia).
    assert (H1 : 0 <= shr_m (iter_pos shr_1 n mrs))
      by (rewrite IH by exact H; apply Z.div_pos; lia).
    rewrite (IH _ H1), (IH _ H).
    assert (E : 2 ^ Zpos n~0 = 2 ^ Zpos n * 2 ^ Zpos n).
    { rewrite (Pos2Z.inj_xO n).
      replace (2 * Zpos n) with (Zpos n + Zpos n) by lia.
      rewrite !Z.pow_add_r by lia. reflexivity. }
    rewrite E, !Z.div_div by lia. try (f_equal; ring).
  - now rewrite shr_1_div.
Qed.

Lemma shr_spec mrs e n :
  0 <= shr_m mrs ->
  shr_m (fst (shr mrs e n)) = shr_m mrs / 2 ^ Z.max 0 n /\
  snd (shr mrs e n) = e + Z.max 0 n.
Proof.
  intros H. destruct n as [|p|p]; cbn [shr fst snd].
  - rewrite Z.div_1_r. cbn. lia.
  - rewrite (iter_shr_div p mrs H).
    replace (Z.max 0 (Zpos p)) with (Zpos p) by lia. lia.
  - replace (Z.max 0 (Zneg p)) with 0 by lia. rewrite Z.div_1_r. lia.
Qed.

Lemma shr_record_m m l : shr_m (shr_record_of_loc m l) = m.
Proof. now destruct l as [|[]]. Qed.

Lemma shr_fexp_spec m e l :
  0 <= m ->
  shr_m (fst (shr_fexp prec emax m e l)) = m / 2 ^ (target m e - e) /\
  snd (shr_fexp prec emax m e l) = target m e.
Proof.
  intros H. unfold shr_fexp.
  destruct (shr_spec (shr_record_of_loc m l) e
              (fexp prec emax (Zdigits2 m + e) - e)) as [A B].
  - now rewrite shr_record_m.
  - rewrite A, B, shr_record_m. unfold target.
    replace (Z.max 0 (fexp prec emax (Zdigits2 m + e) - e))
      with (Z.max e (fexp prec emax (Zdigits2 m + e)) - e) by lia.
    split; [reflexivity | lia].
Qed.

Lemma round_nearest_even_bounds m l :
  m <= round_nearest_even m l <= m + 1.
Proof.
  unfold round_nearest_even. destruct l as [|[]]; try lia.
  destruct (Z.even m); lia.
Qed.

Lemma target_ge_emin m e : -1074 <= target m e.
Proof. unfold target, fexp, SpecFloat.emin, prec, emax. lia. Qed.

(** After the first shift the mantissa has 53 digits at most. *)
Lemma first_shift_small m e :
  0 <= m -> m / 2 ^ (target m e - e) < 2 ^ 53.
Proof.
  intros H.
  assert (K : 0 <= target m e - e) by (unfold target; lia).
  assert (P : 0 < 2 ^ (target m e - e)) by (apply Z.pow_pos_nonneg; lia).
  destruct (Z.eq_dec (m / 2 ^ (target m e - e)) 0) as [E|N]; [rewrite E; lia|].
  assert (Q : 0 < m / 2 ^ (target m e - e))
    by (pose proof (Z.div_pos m _ H P); lia).
  assert (Hm : 0 < m)
    by (destruct (Z.eq_dec m 0) as [->|]; [now rewrite Z.div_0_l in Q by lia|lia]).
  assert (D : target m e - e < Zdigits2 m).
  { apply Z.nle_gt. intros C. apply (Zdigits2_le_iff m _ Hm) in C.
    rewrite Z.div_small in Q by lia. lia. }
  destruct (Zdigits2_div m _ Hm K D) as [_ E].
  apply (Zdigits2_le_iff _ 53 Q). rewrite E.
  unfold target, fexp, SpecFloat.emin, prec, emax. lia.
Qed.

Lemma binary_round_aux_spec s m e l :
  0 <= m ->
  exists m2 e2,
    binary_round_aux prec emax s m e l = rounded s m2 e2 /\
    0 <= m2 /\
    (0 < m / 2 ^ (target m e - e) -> 0 < m2) /\
    (e2 = target m e \/ (e2 = target m e + 1 /\ m2 = 2 ^ 52)).
Proof.
  intros H. unfold binary_round_aux.
  destruct (shr_fexp_spec m e l H) as [A B].
  destruct (shr_fexp prec emax m e l) as [mrs1 e1]. cbn [fst snd] in A, B.
  subst e1.
  set (m1 := round_nearest_even (shr_m mrs1) (loc_of_shr_record mrs1)).
  pose proof (round_nearest_even_bounds (shr_m mrs1) (loc_of_shr_record mrs1))
    as Rb. fold m1 in Rb. rewrite A in Rb.
  pose proof (first_shift_small m e H) as Sm.
  assert (K : 0 <= target m e - e) by (unfold target; lia).
  assert (P : 0 < 2 ^ (target m e - e)) by (apply Z.pow_pos_nonneg; lia).
  pose proof (Z.div_pos m _ H P) as Nn.
  assert (H1 : 0 <= m1) by lia.
  destruct (shr_fexp_spec m1 (target m e) loc_Exact H1) as [A2 B2].
  destruct (shr_fexp prec emax m1 (target m e) loc_Exact) as [mrs2 e2].
  cbn [fst snd] in A2, B2. subst e2.
  exists (shr_m mrs2), (target m1 (target m e)).
  split; [reflexivity|].
  pose proof (target_ge_emin m e) as Te.
  destruct (Z.eq_dec m1 (2 ^ 53)) as [E53|N53].
  - (* the mantissa carried into a 54th digit *)
    assert (T : target m1 (target m e) = target m e + 1).
    { rewrite E53. unfold target at 1.
      change (Zdigits2 (2 ^ 53)) with 54.
      unfold fexp, SpecFloat.emin, prec, emax. lia. }
    rewrite A2, T, E53.
    replace (target m e + 1 - target m e) with 1 by lia.
    change (2 ^ 53 / 2 ^ 1) with (2 ^ 52).
    repeat split; lia.
  - assert (T : target m1 (target m e) = target m e).
    { unfold target at 1.
      destruct (Z.eq_dec m1 0) as [->|N0].
      - cbn [Zdigits2]. unfold fexp, SpecFloat.emin, prec, emax. lia.
      - assert (D : Zdigits2 m1 <= 53)
          by (apply Zdigits2_le_iff; lia).
        unfold fexp, SpecFloat.emin, prec, emax. lia. }
    rewrite A2, T, Z.sub_diag, Z.div_1_r.
    repeat split; lia.
Qed.

(** *** Aligning to the left *)

Lemma iter_xO m d : Zpos (Pos.iter xO m d) = Zpos m * 2 ^ Zpos d.
Proof.
  induction d as [|d IH] using Pos.peano_ind.
  - cbn. lia.
  - rewrite Pos.iter_succ, Pos2Z.inj_xO, IH, Pos2Z.inj_succ.
    rewrite Z.pow_succ_r by lia. ring.
Qed.

Lemma shl_align_spec m e e' :
  Zpos (fst (shl_align m e e')) = Zpos m * 2 ^ (e - Z.min e e') /\
  snd (shl_align m e e') = Z.min e e'.
Proof.
  unfold shl_align. destruct (e' - e) as [|d|d] eqn:E; cbn [fst snd].
  - replace (e - Z.min e e') with 0 by lia. cbn. lia.
  - replace (e - Z.min e e') with 0 by lia. cbn. lia.
  - rewrite iter_xO. replace (e - Z.min e e') with (Zpos d) by lia. lia.
Qed.

Lemma Zdigits2_mul_pow2 m k :
  0 < m -> 0 <= k -> Zdigits2 (m * 2 ^ k) = Zdigits2 m + k.
Proof.
  intros Hm Hk.
  assert (P : 0 < 2 ^ k) by (apply Z.pow_pos_nonneg; lia).
  rewrite !Zdigits2_log2 by nia.
  rewrite Z.log2_mul_pow2 by lia. lia.
Qed.

(** Rounding a positive mantissa at an exponent in range: the result is not
    zero, and its exponent is the canonical one, or one more for the mantissa
    [2^52]. *)
Lemma binary_round_spec s q e :
  -1074 <= e ->
  exists m2 e2,
    binary_round prec emax s q e = rounded s m2 e2 /\
    0 < m2 /\
    (e2 = fexp prec emax (Zdigits2 (Zpos q) + e) \/
     (e2 = fexp prec emax (Zdigits2 (Zpos q) + e) + 1 /\ m2 = 2 ^ 52)).
Proof.
  intros He. unfold binary_round.
  set (e0 := fexp prec emax (Zpos (digits2_pos q) + e)).
  destruct (shl_align_spec q e e0) as [A B].
  destruct (shl_align q e e0) as [mz ez]. cbn [fst snd] in A, B.
  destruct (binary_round_aux_spec s (Zpos mz) ez loc_Exact) as
    (m2 & e2 & R & N & Pos & Ex); [lia|].
  exists m2, e2. split; [exact R|].
  assert (K : 0 <= e - Z.min e e0) by lia.
  assert (D : Zdigits2 (Zpos mz) = Zdigits2 (Zpos q) + (e - Z.min e e0))
    by (rewrite A; apply Zdigits2_mul_pow2; lia).
  assert (T : target (Zpos mz) ez = e0).
  { unfold target. rewrite D, B.
    replace (Zdigits2 (Zpos q) + (e - Z.min e e0) + Z.min e e0)
      with (Zpos (digits2_pos q) + e) by (cbn [Zdigits2]; lia).
    fold e0. unfold e0, fexp, SpecFloat.emin, prec, emax. lia. }
  rewrite T in Pos, Ex. cbn [Zdigits2]. fold e0.
  split; [|exact Ex]. apply Pos.
  destruct (Z.eq_dec (e0 - ez) 0) as [Z0|NZ].
  - rewrite Z0, Z.div_1_r. lia.
  - (* a shift to the right: fewer bits than digits are dropped *)
    assert (Hk : 0 < e0 - ez) by lia.
    assert (ez = e) by lia. subst ez.
    assert (mz = q) by (replace (e - Z.min e e0) with 0 in A by lia; lia).
    subst mz.
    apply Zdigits2_div; try lia.
    cbn [Zdigits2]. unfold e0, fexp, SpecFloat.emin, prec, emax in *. lia.
Qed.

(** *** Signs *)

Lemma rounded_nonneg m2 e2 : 0 <= m2 -> sf_nonneg (rounded false m2 e2) = true.
Proof.
  destruct m2 as [|p|p]; cbn; intros H.
  - reflexivity.
  - now destruct (e2 <=? _).
  - lia.
Qed.

Lemma binary_round_aux_nonneg m e l :
  0 <= m -> sf_nonneg (binary_round_aux prec emax false m e l) = true.
Proof.
  intros H. destruct (binary_round_aux_spec false m e l H) as (m2 & e2 & R & N & _).
  rewrite R. now apply rounded_nonneg.
Qed.

Lemma mul_self_nonneg x :
  is_nan x = false -> sf_nonneg (Prim2SF (x * x)%float) = true.
Proof.
  rewrite is_nan_SF, mul_spec.
  destruct (Prim2SF x) as [s|s| |s m e]; cbn; try discriminate;
    try (now destruct s).
  intros _. rewrite xorb_nilpotent. now apply binary_round_aux_nonneg.
Qed.

Lemma add_nonneg x y :
  sf_nonneg (Prim2SF x) = true -> sf_nonneg (Prim2SF y) = true ->
  sf_nonneg (Prim2SF (x + y)%float) = true.
Proof.
  rewrite add_spec.
  destruct (Prim2SF x) as [[]|[]| |[] m e], (Prim2SF y) as [[]|[]| |[] m' e'];
    cbn; try discriminate; try reflexivity.
  intros _ _.
  destruct (shl_align_spec m e (Z.min e e')) as [A _].
  destruct (shl_align_spec m' e' (Z.min e e')) as [A' _].
  destruct (shl_align m e (Z.min e e')) as [a ea].
  destruct (shl_align m' e' (Z.min e e')) as [b eb].
  cbn [fst]. cbn [Z.add binary_normalize]. unfold binary_round.
  destruct (shl_align (a + b) _ _) as [mz ez].
  apply binary_round_aux_nonneg. lia.
Qed.

Lemma sqrt_nonneg x :
  sf_nonneg (Prim2SF x) = true -> sf_nonneg (Prim2SF (sqrt x)) = true.
Proof.
  rewrite sqrt_spec.
  destruct (Prim2SF x) as [[]|[]| |[] m e]; cbn; try discriminate;
    try reflexivity.
  intros _. unfold SFsqrt_core_binary.
  set (m' := match _ - _ with Zpos _ => _ | Z0 => _ | Zneg _ => _ end).
  assert (Hm : 0 <= m').
  { unfold m'. destruct (_ - _) as [|p|p]; try lia.
    apply Z.shiftl_nonneg. lia. }
  pose proof (Z.sqrtrem_spec m' Hm) as S.
  destruct (Z.sqrtrem m') as [q r].
  apply binary_round_aux_nonneg. nia.
Qed.

End RoundFacts.

(** ** The sphere estimator *)

Module SphereFacts.

Import Jtoolbox Ray Ieee FloatFacts RoundFacts Camera.

Lemma prim_half : Prim2SF 0.5 = S754_finite false 4503599627370496 (-53).
Proof. reflexivity. Qed.

Lemma prim_neg_half : Prim2SF (-0.5) = S754_finite true 4503599627370496 (-53).
Proof. reflexivity. Qed.

(** [Sphere] takes the norm as [LA.norm] does. *)
Lemma sphere_point_norm p : sphere_point p = norm3 p - 0.5.
Proof.
  unfold sphere_point, norm3, dot3, ones3, vmul, vmap2. cbn [c0 c1 c2].
  now rewrite !mul_one_r.
Qed.

Lemma finite_not_nan x : is_finite x = true -> is_nan x = false.
Proof.
  rewrite is_finite_SF, is_nan_SF. now destruct (Prim2SF x).
Qed.

(** The norm of three numbers is zero, positive or the positive infinity. *)
Lemma norm3_nonneg p : vfinite p = true -> sf_nonneg (Prim2SF (norm3 p)) = true.
Proof.
  intros F. apply BlendFacts.vfinite_components in F as (F0 & F1 & F2).
  unfold norm3, sum3, vmul, vmap2. cbn [c0 c1 c2].
  apply sqrt_nonneg, add_nonneg; [apply add_nonneg|];
    now apply mul_self_nonneg, finite_not_nan.
Qed.

(** A canonical mantissa at an exponent above the least has 53 digits. *)
Lemma canonical_digits m e :
  bounded prec emax m e = true ->
  (-1074 <= e <= 971 /\ Zdigits2 (Zpos m) <= 53 /\
   (-1074 < e -> Zdigits2 (Zpos m) = 53))%Z.
Proof.
  unfold bounded, canonical_mantissa. intros H.
  apply andb_prop in H as [C B]. apply Z.eqb_eq in C. apply Z.leb_le in B.
  cbn [Zdigits2].
  unfold fexp, SpecFloat.emin, prec, emax in *. lia.
Qed.

Lemma SFeqb_finite_half m e :
  SFeqb (S754_finite false m e) (S754_finite false 4503599627370496 (-53)) =
  ((e =? -53)%Z && (m =? 4503599627370496)%positive).
Proof.
  unfold SFeqb, SFcompare.
  destruct (Z.compare_spec e (-53)) as [E|E|E].
  - subst e. rewrite Pos.compare_cont_spec.
    change (-53 =? -53)%Z with true. cbn [andb].
    destruct (Pos.compare_spec m 4503599627370496) as [->|N|N];
      cbn [Pos.switch_Eq].
    + now rewrite Pos.eqb_refl.
    + symmetry. apply Pos.eqb_neq. intros ->. exact (Pos.lt_irrefl _ N).
    + symmetry. apply Pos.eqb_neq. intros ->. exact (Pos.lt_irrefl _ N).
  - now rewrite (proj2 (Z.eqb_neq e (-53))) by lia.
  - now rewrite (proj2 (Z.eqb_neq e (-53))) by lia.
Qed.

(** Subtracting one half from a float that is not negative. *)
Lemma SF64sub_half x :
  valid_binary x = true -> sf_nonneg x = true ->
  let y := SF64sub x (S754_finite false 4503599627370496 (-53)) in
  SFleb (S754_finite true 4503599627370496 (-53)) y = true /\
  SFeqb y (S754_zero false) =
  SFeqb x (S754_finite false 4503599627370496 (-53)).
Proof.
  destruct x as [[]|[]| |[] m e]; try discriminate; intros V _; cbv zeta;
    try (split; reflexivity).
  cbn [valid_binary] in V.
  destruct (canonical_digits m e V) as (R & D & D53).
  rewrite SFeqb_finite_half.
  unfold SF64sub, SFsub. cbn [cond_Zopp].
  destruct (shl_align_spec m e (Z.min e (-53))) as [A _].
  destruct (shl_align_spec 4503599627370496 (-53) (Z.min e (-53))) as [B _].
  destruct (shl_align m e (Z.min e (-53))) as [a ea].
  destruct (shl_align 4503599627370496 (-53) (Z.min e (-53))) as [b eb].
  cbn [fst] in *.
  replace (Z.min e (Z.min e (-53))) with (Z.min e (-53)) in A by lia.
  replace (Z.min (-53) (Z.min e (-53))) with (Z.min e (-53)) in B by lia.
  assert (Lo : (-1074 < e -> 2 ^ 52 <= Zpos m)%Z).
  { intros H. pose proof (Zdigits2_lower (Zpos m) eq_refl) as L.
    rewrite (D53 H) in L. exact L. }
  assert (Hi : (Zpos m < 2 ^ 53)%Z) by (apply Zdigits2_le_iff; lia).
  destruct (Z_lt_le_dec e (-53)) as [Small|Large].
  - (* x < 1/2: the difference is negative and rounds to -1/2 at the least *)
    replace (Z.min e (-53)) with e in * by lia.
    rewrite Z.sub_diag, Z.mul_1_r in A.
    assert (Hb : (Zpos b = 2 ^ (-1 - e))%Z).
    { rewrite B. change (Zpos 4503599627370496) with (2 ^ 52)%Z.
      rewrite <- Z.pow_add_r by lia. f_equal. lia. }
    assert (Hlt : (Zpos a < Zpos b)%Z).
    { rewrite A, Hb. apply Z.lt_le_trans with (2 ^ 53)%Z; [exact Hi|].
      apply Z.pow_le_mono_r; lia. }
    destruct (Zpos a - Zpos b)%Z as [|q|q] eqn:E; try lia.
    cbn [binary_normalize].
    destruct (binary_round_spec true q e) as (m2 & e2 & Rq & Pq & Eq);
      [lia|].
    assert (Dq : (Zdigits2 (Zpos q) <= -1 - e)%Z).
    { apply Zdigits2_le_iff; [lia|]. rewrite <- Hb. lia. }
    rewrite Rq. destruct m2 as [|p2|p2]; try lia. cbn [rounded].
    rewrite (proj2 (Z.eqb_neq e (-53))) by lia. cbn [andb].
    assert (E2 : (e2 <= -53)%Z)
      by (unfold fexp, SpecFloat.emin, prec, emax in Eq; lia).
    rewrite (proj2 (Z.leb_le e2 (emax - prec))) by (unfold emax, prec; lia).
    split; [|reflexivity].
    unfold SFleb, SFcompare.
    destruct (Z.compare_spec (-53) e2) as [C|C|C]; try reflexivity; try lia.
    subst e2.
    assert (p2 = 4503599627370496%positive)
      by (unfold fexp, SpecFloat.emin, prec, emax in Eq; lia).
    subst p2. reflexivity.
  - (* x >= 1/2: the difference is zero or positive *)
    replace (Z.min e (-53)) with (-53)%Z in * by lia.
    change (Zpos 4503599627370496 * 2 ^ (-53 - -53))%Z
      with (2 ^ 52)%Z in B.
    assert (P : (1 <= 2 ^ (e - -53))%Z)
      by (change 1%Z with (2 ^ 0)%Z; apply Z.pow_le_mono_r; lia).
    assert (Hge : (Zpos b <= Zpos a)%Z) by (rewrite A, B; nia).
    destruct (Zpos a - Zpos b)%Z as [|q|q] eqn:E; try lia.
    + (* x = 1/2 *)
      cbn [binary_normalize].
      assert (e = -53)%Z.
      { destruct (Z.eq_dec e (-53)) as [|N]; [assumption|].
        assert (2 <= 2 ^ (e - -53))%Z
          by (change 2%Z with (2 ^ 1)%Z at 1; apply Z.pow_le_mono_r; lia).
        nia. }
      subst e. rewrite Z.sub_diag, Z.mul_1_r in A.
      assert (m = 4503599627370496%positive) by lia. subst m.
      split; reflexivity.
    + cbn [binary_normalize].
      destruct (binary_round_spec false q (-53)) as (m2 & e2 & Rq & Pq & _);
        [lia|].
      rewrite Rq. destruct m2 as [|p2|p2]; try lia. cbn [rounded].
      assert (N : ((e =? -53)%Z && (m =? 4503599627370496)%positive) = false).
      { destruct (Z.eqb_spec e (-53)) as [->|]; [|reflexivity].
        rewrite Z.sub_diag, Z.mul_1_r in A. cbn [andb].
        apply Pos.eqb_neq. intros ->. lia. }
      rewrite N. destruct (e2 <=? emax - prec)%Z; split; reflexivity.
Qed.

Lemma sub_half x :
  sf_nonneg (Prim2SF x) = true ->
  (-0.5 <=? x - 0.5) = true /\ (x - 0.5 =? 0) = (x =? 0.5).
Proof.
  intros H. rewrite leb_spec, !eqb_spec, sub_spec, prim_half, prim_neg_half.
  change (Prim2SF 0) with (S754_zero false).
  now apply SF64sub_half; [apply Prim2SF_valid|].
Qed.

End SphereFacts.

(** ** The distance estimator and the ray marcher: the specified properties *)

Module Marcher.

Import Jtoolbox mandelclass Ray Ieee Examples.
Import ArrayFacts FloatFacts Mand2Facts MarchFacts OverflowFacts.

(** C3.  For every batch of points, [mand2] runs, on each point separately,
    exactly [iterations] steps of the polar power iteration [polar_step]
    (with [r = |z|], [theta = arccos(z_z / r)] and [phi] the one-argument
    arctangent of [z_y / z_x], see [znew]) from [z = p], [dr = 1], and returns
    [|0.5 * ln(r) * (r / dr)|] of the state reached, [r] being the radius
    computed by the last step. *)
Theorem mand2_polar_iteration (L : MathLib) (pos : list vec3)
  (iterations power : Z) :
  mand2 L pos iterations power =
  map (fun p =>
         let s := Nat.iter (Z.to_nat iterations) (polar_step L power p)
                           (PointState p 1 0) in
         abs (0.5 * log L (pr s) * (pr s / pdr s)))
      pos.
Proof. apply mand2_map. Qed.

(** C1, as the code has it.  Once a ray of position [p] is at or past the
    abort radius at iteration [k], its position at every later iteration
    [k + n] is [p], bit for bit, provided the damped estimate at [p] is a
    finite number, the direction is finite and no component of [p] is the
    negative zero. *)
Theorem freeze_invariant (de : list vec3 -> list float) (f : vec3 -> float)
  (dirs pos0 : list vec3) (k n i : nat) (d p : vec3) :
  (forall ps, de ps = map f ps) ->
  nth_error dirs i = Some d ->
  nth_error (positions de dirs pos0 k) i = Some p ->
  geb (norm3 p) 4 = true ->
  is_finite (f p * 0x1.999999999999ap-2) = true ->
  vfinite d = true ->
  no_neg_zero p = true ->
  nth_error (positions de dirs pos0 (k + n)) i = Some p.
Proof.
  intros Hde Hd Hp Hn Fs Fd Hz.
  rewrite positions_add.
  rewrite (nth_march_iter de f Hde _ _ _ _ _ n Hd Hp).
  f_equal. apply march_ray_frozen_iter; try assumption.
  now apply leb_not_ltb.
Qed.

(** A frozen ray of the default camera at distance 5, with the Mandelbulb
    estimator at its defaults. *)
Lemma freeze_invariant_witness :
  let de := fun ps => mand2 RefLib.lib ps 6 8 in
  let p := V3 0 5 0 in
  nth_error (positions de [towards_origin] [p] 0) 0 = Some p /\
  geb (norm3 p) 4 = true /\
  is_finite (mand2_point RefLib.lib 6 8 p * 0x1.999999999999ap-2) = true /\
  nth_error (positions de [towards_origin] [p] (0 + 3)) 0 = Some p.
Proof.
  cbv zeta. split; [reflexivity|]. split; [reflexivity|].
  split; [reflexivity|].
  apply (freeze_invariant (fun ps => mand2 RefLib.lib ps 6 8)
           (mand2_point RefLib.lib 6 8) [towards_origin] [V3 0 5 0] 0 3 0
           towards_origin (V3 0 5 0));
    solve [ reflexivity | intros ps; apply mand2_map ].
Defined.

(** C1 as stated fails.  At distance [1e200] the ray is past the abort radius,
    and yet, whatever the math library computes, it has left its position after
    one more iteration: the estimate is not a number there, and the masked step
    [step * 0] is NaN. *)
Lemma freeze_fails_on_overflow :
  geb (norm3 far_point) 4 = true /\
  ~ exists L : MathLib,
      nth_error (positions (fun ps => mand2 L ps 6 8)
                           [towards_origin] [far_point] (0 + 1)) 0
      = Some far_point.
Proof.
  split; [reflexivity|]. intros [L H].
  rewrite positions_iter in H.
  rewrite (nth_march_iter _ _ (fun ps => mand2_map L ps 6 8)
             [towards_origin] [far_point] 0 towards_origin far_point (0 + 1)
             eq_refl eq_refl) in H.
  unfold Nat.iter in H. cbn [Nat.add nat_rect] in H.
  rewrite march_ray_far in H by lia.
  discriminate
    (f_equal (fun o => match o with Some v => is_nan (c1 v) | None => false end) H).
Qed.

(** The same on the z axis, where [z_y / z_x] is [0/0]: the frozen ray at
    [(0, 0, 5)] has a NaN estimate and turns into NaN. *)
Example frozen_ray_on_axis :
  let p := V3 0 0 5 in
  geb (norm3 p) 4 = true /\
  is_nan (mand2_point RefLib.lib 6 8 p) = true /\
  march_ray (mand2_point RefLib.lib 6 8) towards_origin p = vnan.
Proof. cbv zeta. repeat split; reflexivity. Qed.

(** Why the negative zero is set aside: a frozen ray at [x = -0.0] with a
    direction that points to positive [x] comes out at [x = +0.0], which
    compares equal and is another float. *)
Example frozen_negative_zero :
  let p := V3 neg_zero 5 0 in
  let q := march_ray sphere_point (V3 1 0 0) p in
  (norm3 p <? 4) = false /\ is_neg_zero (c0 p) = true /\
  is_neg_zero (c0 q) = false /\ (c0 q =? c0 p) = true.
Proof. cbv zeta. repeat split; reflexivity. Qed.

(** C2, as the code has it.  The loop applies the marching step exactly
    [nmarch] times, printing one line per iteration; a step moves every ray by
    [march_ray]: a ray below the abort radius goes to
    [p + d * |f p * 0.4|], and a ray that is not below it keeps its position
    when its damped estimate is a finite number (the direction finite, no
    component of [p] the negative zero). *)
Theorem march_transition (de : list vec3 -> list float) (f : vec3 -> float)
  (dirs pos0 : list vec3) (nmarch : Z) :
  (forall ps, de ps = map f ps) ->
  march_loop de dirs nmarch pos0 =
    (Nat.iter (Z.to_nat nmarch) (zipWith (march_ray f) dirs) pos0,
     map (fun ii => RemainingIterations (nmarch - ii)) (range nmarch)) /\
  length (snd (march_loop de dirs nmarch pos0)) = Z.to_nat nmarch /\
  (forall d p,
      (norm3 p <? 4) = true ->
      march_ray f d p = vadd p (vscale d (abs (f p * 0x1.999999999999ap-2)))) /\
  (forall d p,
      (norm3 p <? 4) = false ->
      is_finite (f p * 0x1.999999999999ap-2) = true ->
      vfinite d = true -> no_neg_zero p = true ->
      march_ray f d p = p).
Proof.
  intros Hde. rewrite march_loop_iter. cbn [snd].
  repeat split.
  - f_equal. apply iter_ext. intros y. now apply march_step_rows.
  - now rewrite length_map, length_range.
  - intros d p. apply march_ray_active.
  - intros d p. apply march_ray_frozen.
Qed.

(** Three marching iterations of two rays, one active and one frozen. *)
Lemma march_transition_witness :
  let de := fun ps => mand2 RefLib.lib ps 6 8 in
  let f := mand2_point RefLib.lib 6 8 in
  let dirs := [towards_origin; towards_origin] in
  let pos0 := [V3 0 5 0; V3 2 0 0] in
  march_loop de dirs 3 pos0 =
    (Nat.iter 3 (zipWith (march_ray f) dirs) pos0,
     [RemainingIterations 3; RemainingIterations 2; RemainingIterations 1]) /\
  march_ray f towards_origin (V3 0 5 0) = V3 0 5 0.
Proof.
  cbv zeta.
  pose proof (march_transition (fun ps => mand2 RefLib.lib ps 6 8)
                (mand2_point RefLib.lib 6 8)
                [towards_origin; towards_origin] [V3 0 5 0; V3 2 0 0] 3
                (fun ps => mand2_map RefLib.lib ps 6 8)) as (E & _ & _ & F).
  split; [exact E | apply F; reflexivity].
Defined.

(** C2 as stated fails.  The ray at distance [1e200] is not below the abort
    radius, and one marching iteration does not leave it unchanged, whatever
    the math library computes. *)
Lemma frozen_ray_moves_on_overflow :
  (norm3 far_point <? 4) = false /\
  ~ exists L : MathLib,
      fst (march_loop (fun ps => mand2 L ps 6 8) [towards_origin] 1 [far_point])
      = [far_point].
Proof.
  split; [reflexivity|]. intros [L H].
  rewrite march_loop_iter in H.
  cbn [fst] in H. change (Z.to_nat 1) with 1%nat in H.
  unfold Nat.iter in H. cbn [nat_rect] in H.
  rewrite (march_step_rows _ _ (fun ps => mand2_map L ps 6 8)) in H.
  cbn [zipWith] in H. rewrite march_ray_far in H by lia.
  discriminate
    (f_equal (fun l => match l with v :: _ => is_nan (c1 v) | [] => false end) H).
Qed.

(** C7, as the code has it.  [mand2] returns one estimate per point, whatever
    the values; the marcher does not set a ray aside whose estimate is NaN or
    an infinity: every component of its next position is NaN or infinite, and
    all are NaN when the estimate is NaN or the ray is not below the abort
    radius. *)
Theorem nan_inf_policy (L : MathLib) (pos : list vec3) (iterations power : Z)
  (f : vec3 -> float) (d p : vec3) :
  is_finite (f p) = false ->
  length (mand2 L pos iterations power) = length pos /\
  is_finite (c0 (march_ray f d p)) = false /\
  is_finite (c1 (march_ray f d p)) = false /\
  is_finite (c2 (march_ray f d p)) = false /\
  (is_nan (f p) = true \/ (norm3 p <? 4) = false -> march_ray f d p = vnan).
Proof.
  intros H. split; [now rewrite mand2_map, length_map|].
  destruct (march_ray_nonfinite f d p H) as (H0 & H1 & H2).
  repeat split; try assumption.
  intros [N|N]; [now apply march_ray_nan | now apply march_ray_frozen_nonfinite].
Qed.

(** A point on the z axis: [z_y / z_x] is [0/0], and the estimate is NaN for an
    active ray. *)
Lemma nan_inf_policy_witness :
  let f := mand2_point RefLib.lib 6 8 in
  let p := V3 0 0 2 in
  is_finite (f p) = false /\ (norm3 p <? 4) = true /\
  march_ray f towards_origin p = vnan.
Proof.
  cbv zeta. split; [reflexivity|]. split; [reflexivity|].
  apply (nan_inf_policy RefLib.lib [] 6 8 (mand2_point RefLib.lib 6 8)
           towards_origin (V3 0 0 2) eq_refl).
  left. reflexivity.
Defined.

(** C7 as stated fails.  Whatever the math library computes, the estimate at
    distance [1e200] is not a finite number, and the marcher does not leave the
    position of that ray unchanged. *)
Lemma nonfinite_estimate_not_frozen :
  ~ exists L : MathLib,
      is_finite (mand2_point L 6 8 far_point) = false ->
      march_ray (mand2_point L 6 8) towards_origin far_point = far_point.
Proof.
  intros [L H].
  specialize (H (mand2_point_far L 8 6 eq_refl)).
  rewrite march_ray_far in H by lia.
  discriminate (f_equal (fun v => is_nan (c1 v)) H).
Qed.

End Marcher.

(** ** The bailout of the Mandelbulb estimator *)

Module Bailout.

Import Jtoolbox Ray Ieee Examples FloatFacts BlendFacts.

(** C4, as the code has it.  In an iteration of [mand2] a point with
    [r < bailout] takes the candidate derivative [drnew] and the candidate
    iterate [znew + p] (its old [dr] being a finite number), and a point with
    [r >= bailout] whose candidate values are finite numbers keeps its [dr] and
    its [z], in that iteration and in all that follow; a negative zero apart,
    which the blend may turn into the positive zero. *)
Theorem bailout_freeze (L : MathLib) (power : Z) (p : vec3) (s : point_state) :
  let r := norm3 (pz s) in
  let cz := vadd (znew L power (pz s)) p in
  let cdr := drnew L power r (pdr s) in
  ((r <? bailout) = true ->
   is_finite (pdr s) = true ->
   is_neg_zero cdr = false -> no_neg_zero cz = true ->
   polar_step L power p s = PointState cz cdr r) /\
  (geb r bailout = true ->
   is_finite cdr = true -> vfinite cz = true ->
   is_neg_zero (pdr s) = false -> no_neg_zero (pz s) = true ->
   forall n, Nat.iter (S n) (polar_step L power p) s =
             PointState (pz s) (pdr s) r).
Proof.
  cbv zeta. split.
  - apply polar_step_active.
  - intros Hr Fd Fz Zd Zz n. now apply polar_step_frozen_iter.
Qed.

(** The point [(1, 0, 0)] is below the bailout and takes the candidates; the
    point [(2, 0, 0)] is past it and keeps [z] and [dr] for six iterations. *)
Lemma bailout_freeze_witness :
  let L := RefLib.lib in
  (let s := PointState (V3 1 0 0) 1 0 in
   (norm3 (pz s) <? bailout) = true /\
   polar_step L 8 (V3 1 0 0) s =
   PointState (vadd (znew L 8 (pz s)) (V3 1 0 0)) 9 1) /\
  (let s := PointState (V3 2 0 0) 1 0 in
   geb (norm3 (pz s)) bailout = true /\
   is_finite (drnew L 8 (norm3 (pz s)) (pdr s)) = true /\
   Nat.iter 6 (polar_step L 8 (V3 2 0 0)) s = PointState (V3 2 0 0) 1 2).
Proof.
  cbv zeta. split.
  - split; [reflexivity|].
    apply (proj1 (bailout_freeze RefLib.lib 8 (V3 1 0 0)
                    (PointState (V3 1 0 0) 1 0))); reflexivity.
  - split; [reflexivity|]. split; [reflexivity|].
    apply (proj2 (bailout_freeze RefLib.lib 8 (V3 2 0 0)
                    (PointState (V3 2 0 0) 1 0))); reflexivity.
Defined.

(** C4 as stated fails.  The point [(0, 0, 2)] is past the bailout, and no math
    library whose arctangent and cosine return NaN for NaN keeps its [z] in
    the first iteration: the candidate is NaN ([z_y / z_x] is [0/0]) and
    [NaN * 0] is NaN. *)
Lemma bailout_blend_hands_on_nan :
  geb (norm3 (V3 0 0 2)) bailout = true /\
  ~ exists L : MathLib,
      arctan L nan = nan /\ cos L nan = nan /\
      pz (polar_step L 8 (V3 0 0 2) (PointState (V3 0 0 2) 1 0)) = V3 0 0 2.
Proof.
  split; [reflexivity|]. intros (L & Ha & Hc & H).
  pose proof (polar_step_on_axis L 8 Ha Hc) as N. rewrite H in N.
  discriminate (f_equal (fun x => is_nan x) N).
Qed.

End Bailout.

(** ** The class: camera, configuration, frame and depth map *)

Module Class.

Import Jtoolbox mandelclass Ray Camera ArrayFacts FloatFacts ClassFacts.

(** C6, as the code has it.  [visualize] turns every normalized grid direction
    by the composed rotation [Rx(pi/2) . Rx(elevation) . Rz(azimuth)], and the
    camera position by the last two rotations only: it is never turned by
    [Rx(pi/2)]. *)
Theorem camera_rotations (L : MathLib) (self : Mandelbulb)
  (dirs : list vec3) (c : vec3) :
  camera L self = Ok (dirs, c) ->
  c = vecmat (vecmat (campos self) (rotx L (ele self))) (rotz L (azi self)) /\
  exists vx,
    linspace (-0.5) 0.5 (res self) = Some vx /\
    dirs = map (fun g => orientation L self (normalize g))
               (grid vx vx (Z.to_nat (res self * res self))).
Proof. apply camera_ok. Qed.

(** The camera of a 2 x 2 image at elevation pi/2. *)
Lemma camera_rotations_witness :
  let self := __init__ 2 0 6 8 3 RefLib.half_pi 0 in
  exists dirs c,
    camera RefLib.lib self = Ok (dirs, c) /\
    c = vecmat (vecmat (campos self) (rotx RefLib.lib (ele self)))
               (rotz RefLib.lib (azi self)) /\
    length dirs = 4%nat.
Proof.
  cbv zeta.
  destruct (camera RefLib.lib (__init__ 2 0 6 8 3 RefLib.half_pi 0))
    as [[dirs c]|e] eqn:E; [|discriminate E].
  exists dirs, c. split; [reflexivity|].
  destruct (camera_rotations RefLib.lib _ dirs c E) as (Hc & vx & Hvx & Hd).
  split; [exact Hc|].
  injection Hvx as <-. rewrite Hd. reflexivity.
Defined.

(** C6 as stated fails.  For the default camera (elevation and azimuth 0) the
    rays start at [(0, 3, 0)], the camera position as it is stored, while the
    composed rotation takes the stored position to [(0, 3 cos(pi/2), 3)]. *)
Lemma camera_position_skips_half_pi :
  ~ forall (L : MathLib) (self : Mandelbulb) dirs c,
      camera L self = Ok (dirs, c) -> c = orientation L self (campos self).
Proof.
  intros H.
  specialize (H RefLib.lib (__init__ 1 0 6 8 3 0 0) _ _ eq_refl).
  discriminate (f_equal (fun v => c2 v =? 0) H).
Qed.

(** C10.  A call of [visualize] that returns leaves [res], [nmarch], [order],
    [power], [proximity], [ele], [azi] and [campos] as they were ([campos]
    still the unrotated [[0, proximity, 0]] of [__init__]), and [dis] too; it
    assigns [pos], [elapsed_time] and [fname]. *)
Theorem visualize_frame (L : MathLib) (env : clock) (self self' : Mandelbulb)
  (out : list line) :
  visualize L env self = Ok (self', out) ->
  res self' = res self /\ nmarch self' = nmarch self /\
  order self' = order self /\ power self' = power self /\
  proximity self' = proximity self /\ ele self' = ele self /\
  azi self' = azi self /\ campos self' = campos self /\
  dis self' = dis self /\
  (campos self = V3 0 (proximity self) 0 ->
   campos self' = V3 0 (proximity self') 0) /\
  (exists p, pos self' = Some p) /\
  elapsed_time self' = Some (elapsed env) /\
  fname self' = Some (stamp env ++ "Mandelbulb.png")%string.
Proof.
  intros H.
  destruct (camera L self) as [[dirs c]|e] eqn:E.
  - destruct (visualize_ok L env self dirs c E) as (pos' & out' & _ & V).
    rewrite V in H. injection H as <- <-. cbn.
    repeat split; eauto.
  - now rewrite (visualize_raise L env self e E) in H.
Qed.

(** A call on an object made by [__init__], at elevation pi/2. *)
Lemma visualize_frame_witness :
  let self := __init__ 2 1 6 8 3 RefLib.half_pi 0 in
  exists self' out,
    visualize RefLib.lib (Clock 7 "20230104191512") self = Ok (self', out) /\
    campos self' = V3 0 3 0 /\ res self' = 2%Z /\
    fname self' = Some "20230104191512Mandelbulb.png"%string.
Proof.
  cbv zeta.
  destruct (visualize RefLib.lib (Clock 7 "20230104191512")
              (__init__ 2 1 6 8 3 RefLib.half_pi 0))
    as [[self' out]|e] eqn:E; [|discriminate E].
  exists self', out. split; [reflexivity|].
  destruct (visualize_frame _ _ _ _ _ E)
    as (R & _ & _ & _ & _ & _ & _ & C & _ & _ & _ & _ & F).
  rewrite R, C, F. repeat split.
Defined.

(** C9, as the code has it.  Nothing validates the configuration.  [visualize]
    raises only for a negative resolution, the [ValueError] of [np.linspace];
    for every other configuration it returns: with resolution 0 an empty batch
    of rays, and with zero fractal iterations (or fewer) every estimate it
    marches by is the one value [|0.5 * log(0) * (0 / 1)|].  [__init__] stores
    the values it is given. *)
Theorem no_configuration_check (L : MathLib) (env : clock) (self : Mandelbulb) :
  ((res self < 0)%Z -> visualize L env self = Raise ValueError) /\
  ((0 <= res self)%Z ->
   exists self' out,
     visualize L env self = Ok (self', out) /\
     (res self = 0%Z -> pos self' = Some [])) /\
  ((order self <= 0)%Z ->
   forall ps, mand2 L ps (order self) (power self) =
              map (fun _ => abs (0.5 * log L 0 * (0 / 1))) ps) /\
  (forall r n o p x e a,
      res (__init__ r n o p x e a) = r /\ nmarch (__init__ r n o p x e a) = n /\
      order (__init__ r n o p x e a) = o /\ power (__init__ r n o p x e a) = p).
Proof.
  split; [|split; [|split]]; [| | |now repeat split].
  - intros H. apply visualize_raise. now apply camera_negative.
  - intros H. destruct (camera_nonnegative L self H) as (dirs & c & E).
    destruct (visualize_ok L env self dirs c E) as (pos' & out & M & V).
    eexists _, _. split; [exact V|]. cbn [pos]. intros R0.
    rewrite R0 in M. cbn in M.
    rewrite MarchFacts.march_loop_iter in M. injection M as <- _.
    f_equal. clear. induction (Z.to_nat (nmarch self)) as [|n IH];
      [reflexivity|]. rewrite Nat.iter_succ, IH.
    unfold march_step. now destruct dirs.
  - intros H ps. now apply mand2_no_iterations.
Qed.

(** C9 as stated fails.  With resolution 0 (and with zero iterations as well)
    [visualize] raises nothing. *)
Lemma degenerate_configuration_accepted :
  ~ forall (L : MathLib) (env : clock) (self : Mandelbulb),
      (res self <= 0)%Z \/ order self = 0%Z ->
      exists e, visualize L env self = Raise e.
Proof.
  intros H.
  destruct (H RefLib.lib (Clock 0 "20230104191512") (__init__ 0 200 0 8 3 0 0)
              (or_introl (Z.le_refl 0))) as [e E].
  discriminate E.
Qed.

(** [visualize] is the marcher of [Marcher] on the rays of [camera]: the
    positions it stores are those of [res * res] rays that start at the rotated
    camera position and take [nmarch] steps of [march_ray] with the Mandelbulb
    estimator. *)
Lemma visualize_marches (L : MathLib) (env : clock) (self self' : Mandelbulb)
  (out : list line) (dirs : list vec3) (c : vec3) :
  camera L self = Ok (dirs, c) ->
  visualize L env self = Ok (self', out) ->
  pos self' =
    Some (Nat.iter (Z.to_nat (nmarch self))
            (zipWith (march_ray (mand2_point L (order self) (power self))) dirs)
            (repeat c (Z.to_nat (res self * res self)))) /\
  out = map (fun ii => RemainingIterations (nmarch self - ii))
            (range (nmarch self))
        ++ [ComputationTime (elapsed env)].
Proof.
  intros E V.
  destruct (visualize_ok L env self dirs c E) as (pos' & out' & M & V').
  rewrite V' in V. injection V as <- <-. cbn [pos].
  rewrite MarchFacts.march_loop_iter, initial_positions_repeat in M.
  injection M as <- <-. split; [|reflexivity]. f_equal.
  apply MarchFacts.iter_ext. intros y.
  apply MarchFacts.march_step_rows. intros ps.
  apply Mand2Facts.mand2_map.
Qed.

(** [Mandelbulb(res=1, nmarch=1, proximity=1e200)] places the camera at
    [far_point]; after [visualize] the position of its ray is NaN. *)
Example far_camera_turns_nan :
  exists self' out dirs,
    visualize RefLib.lib (Clock 0 "20230104191512")
              (__init__ 1 1 6 8 Examples.huge 0 0) = Ok (self', out) /\
    camera RefLib.lib (__init__ 1 1 6 8 Examples.huge 0 0)
    = Ok (dirs, Examples.far_point) /\
    pos self' = Some [vnan].
Proof. do 3 eexists. repeat split; reflexivity. Qed.

(** [render] measures every distance from [self.campos]. *)
Lemma render_distance (self self' : Mandelbulb) (im : list (list float)) :
  render self = Ok (self', im) ->
  exists ps,
    pos self = Some ps /\
    dis self' = Some (map (fun p => distance p (campos self)) ps) /\
    reshape (map (fun p => distance p (campos self)) ps) (res self) (res self)
    = Some im.
Proof.
  unfold render. destruct (pos self) as [ps|]; [|discriminate].
  assert (E : map (fun v => sqrt (dot3 (vmap (fun c => c * c)
                                            (vsub v (campos self))) ones3)) ps
              = map (fun p => distance p (campos self)) ps).
  { apply map_ext. intros p. unfold distance, norm3, dot3, vmul, vmap2, vmap.
    unfold ones3. cbn [c0 c1 c2]. now rewrite !mul_one_r. }
  rewrite E.
  destruct (reshape _ (res self) (res self)) as [im'|] eqn:R; [|discriminate].
  intros [= <- <-]. exists ps. now repeat split.
Qed.

(** The grid [render] hands on is the flat distance map, row by row: entry
    [(i, j)] is the distance of ray [i * res + j]. *)
Lemma render_grid (self self' : Mandelbulb) (im : list (list float))
  (i j : nat) (row : list float) (d : list float) :
  render self = Ok (self', im) -> dis self' = Some d ->
  nth_error im i = Some row -> (j < Z.to_nat (res self))%nat ->
  length im = Z.to_nat (res self) /\
  nth_error row j = nth_error d (i * Z.to_nat (res self) + j)%nat.
Proof.
  intros R Hd Hrow Hj.
  destruct (render_distance _ _ _ R) as (ps & _ & D & S).
  rewrite D in Hd. injection Hd as <-.
  unfold reshape in S.
  destruct ((res self <? 0) || (res self <? 0))%Z eqn:N; [discriminate|].
  destruct (res self * res self =? _)%Z eqn:E; [|discriminate].
  injection S as <-. apply Z.eqb_eq in E. apply orb_false_elim in N as [N _].
  apply Z.ltb_ge in N. split.
  - clear. generalize (map (fun p => distance p (campos self)) ps).
    induction (Z.to_nat (res self)) as [|n IH] at 2 3; intros l;
      cbn; now rewrite ?IH.
  - apply chunks_nth with (rows := Z.to_nat (res self)) (i := i);
      [lia | exact Hj | exact Hrow].
Qed.

(** C5 at elevation pi/2, a 1 x 1 image and no marching: the ray is still at
    the rotated camera position [c], its distance to the origin of the rays is
    0, and the depth [render] gives it is its distance to the unrotated
    [self.campos], about 4.24. *)
Theorem depth_from_unrotated_camera :
  let self := __init__ 1 0 6 8 3 RefLib.half_pi 0 in
  exists dirs c self1 out self2 d,
    camera RefLib.lib self = Ok (dirs, c) /\
    visualize RefLib.lib (Clock 0 "20230104191512") self = Ok (self1, out) /\
    pos self1 = Some [c] /\
    distance c c = 0 /\
    render self1 = Ok (self2, [[d]]) /\
    d = distance c (campos self) /\
    d = 0x1.0f876ccdf6cd9p+2.
Proof.
  cbv zeta. do 6 eexists. repeat split; reflexivity.
Qed.

End Class.

(** ** The sphere estimator: the specified properties *)

Module SphereEstimator.

Import Jtoolbox Ray Ieee FloatFacts SphereFacts.

(** C8, as the code has it.  For every batch of points with finite
    coordinates, [Sphere] returns the float [norm3 p - 0.5] for each point
    [p], [norm3 p] being the norm as [LA.norm] computes it, every product, sum
    and root rounded; this estimate is at least [-0.5], and it compares equal
    to [0] exactly when the computed norm compares equal to [0.5]. *)
Theorem sphere_distance (pos : list vec3) :
  Forall (fun p => vfinite p = true) pos ->
  Sphere pos = map (fun p => norm3 p - 0.5) pos /\
  Forall (fun p => (-0.5 <=? norm3 p - 0.5) = true /\
                   (norm3 p - 0.5 =? 0) = (norm3 p =? 0.5)) pos.
Proof.
  intros F. split.
  - unfold Sphere. apply map_ext. intros p. apply sphere_point_norm.
  - induction F as [|p pos Fp _ IH]; constructor; [|exact IH].
    now apply sub_half, norm3_nonneg.
Qed.

(** A point on the sphere, one outside, one inside, the centre, and three
    points off the axes: [(1, 2, 3)], the floats [(0.3, 0.4, 0)], whose
    computed norm is [0.5], and [(1e200, 1, 1)], whose computed norm is
    infinite. *)
Lemma sphere_distance_witness :
  let pos := [V3 0.5 0 0; V3 0 5 0; V3 0.25 0 0; V3 0 0 0;
              V3 1 2 3; V3 0.3 0.4 0; V3 Examples.huge 1 1] in
  Forall (fun p => vfinite p = true) pos /\
  Sphere pos = [0; 4.5; -0.25; -0.5; 0x1.9eeea11683f49p+1; 0; infinity] /\
  Forall (fun p => (-0.5 <=? norm3 p - 0.5) = true /\
                   (norm3 p - 0.5 =? 0) = (norm3 p =? 0.5)) pos.
Proof.
  cbv zeta.
  assert (F : Forall (fun p => vfinite p = true)
                     [V3 0.5 0 0; V3 0 5 0; V3 0.25 0 0; V3 0 0 0;
                      V3 1 2 3; V3 0.3 0.4 0; V3 Examples.huge 1 1])
    by (repeat constructor).
  split; [exact F|]. split; [reflexivity|].
  exact (proj2 (sphere_distance _ F)).
Defined.

(** C8 as stated, with [|p|] the exact norm, fails.  The point of floats
    [(0.3, 0.4, 0)] has finite coordinates and its estimate is exactly [0],
    yet it is not on the sphere: its exact [|p|^2] is above [1/4], the squares
    and their sum having been rounded to [0.25]. *)
Lemma sphere_rounds_the_norm :
  ~ forall p : vec3,
      vfinite p = true ->
      forall e : float,
        Sphere [p] = [e] ->
        Exact.is_distance p e /\ ((e =? 0) = true <-> Exact.on_sphere p).
Proof.
  intros H.
  destruct (H (V3 0.3 0.4 0) eq_refl 0 eq_refl) as [_ [S _]].
  specialize (S eq_refl). unfold Exact.on_sphere in S.
  assert (B : Exact.on_sphereb (V3 0.3 0.4 0) = true).
  { unfold Exact.on_sphereb. rewrite S. apply Z.eqb_refl. }
  vm_compute in B. discriminate B.
Qed.

(** And where the squares overflow the estimate is not a number at all: at
    [(1e200, 0, 0)] it is the positive infinity. *)
Example sphere_overflows :
  vfinite (V3 Examples.huge 0 0) = true /\
  Sphere [V3 Examples.huge 0 0] = [infinity] /\
  Exact.units infinity = None.
Proof. repeat split; reflexivity. Qed.

End SphereEstimator.

(** ** More on binary64: zeros, signs and NaN *)

Module NumberFacts.

Import Jtoolbox Ray Ieee FloatFacts BlendFacts RoundFacts SphereFacts.

Lemma prim_neg_zero : Prim2SF (- 0) = S754_zero true.
Proof. reflexivity. Qed.

Lemma mul_finite_zero x z :
  is_finite x = true -> sf_zero (Prim2SF z) = true ->
  sf_zero (Prim2SF (x * z)) = true.
Proof.
  rewrite is_finite_SF, mul_spec.
  destruct (Prim2SF x), (Prim2SF z); try discriminate; reflexivity.
Qed.

Lemma mul_zero_l_finite x y :
  sf_zero (Prim2SF x) = true -> is_finite y = true ->
  sf_zero (Prim2SF (x * y)) = true.
Proof.
  rewrite is_finite_SF, mul_spec.
  destruct (Prim2SF x), (Prim2SF y); try discriminate; reflexivity.
Qed.

Lemma div_zero_l x :
  sf_zero (Prim2SF x) = true -> sf_zero (Prim2SF (x / 2000)) = true.
Proof.
  rewrite div_spec.
  destruct (Prim2SF x); try discriminate. reflexivity.
Qed.

(** A sum of three terms of which two are zeros. *)
Lemma sum_keep_first x y z :
  is_neg_zero x = false -> sf_zero (Prim2SF y) = true ->
  sf_zero (Prim2SF z) = true -> (x + y) + z = x.
Proof.
  intros Hx Hy Hz. rewrite (add_zero_r x y Hy) by now apply neg_zero_SF.
  apply add_zero_r; [exact Hz | now apply neg_zero_SF].
Qed.

Lemma sum_keep_second x y z :
  is_neg_zero y = false -> sf_zero (Prim2SF x) = true ->
  sf_zero (Prim2SF z) = true -> (x + y) + z = y.
Proof.
  intros Hy Hx Hz. rewrite (add_zero_l_keep x y Hx) by now apply neg_zero_SF.
  apply add_zero_r; [exact Hz | now apply neg_zero_SF].
Qed.

Lemma sum_keep_third x y z :
  is_neg_zero z = false -> sf_zero (Prim2SF x) = true ->
  sf_zero (Prim2SF y) = true -> (x + y) + z = z.
Proof.
  intros Hz Hx Hy. apply add_zero_l_keep; [|now apply neg_zero_SF].
  now apply add_zero_zero.
Qed.

Lemma ltb_leb x y : (x <? y) = true -> (x <=? y) = true.
Proof.
  rewrite ltb_spec, leb_spec. unfold SFltb, SFleb.
  now destruct (SFcompare (Prim2SF x) (Prim2SF y)) as [[]|].
Qed.

Lemma leb_finite_zero x : (x <=? 0) = true -> is_nan x = false.
Proof.
  rewrite leb_spec, is_nan_SF. now destruct (Prim2SF x).
Qed.

Lemma sub_nan_l x : nan - x = nan.
Proof. apply Prim2SF_inj. rewrite sub_spec, prim_nan. reflexivity. Qed.

Lemma sqrt_nan : sqrt nan = nan.
Proof. reflexivity. Qed.

Lemma add_nan_is_nan x y : is_nan x = true -> is_nan (x + y) = true.
Proof. intros H. now rewrite (is_nan_eq _ H), add_nan_l. Qed.

Lemma abs_nonneg x : is_nan (abs x) = true \/ (0 <=? abs x) = true.
Proof.
  rewrite is_nan_SF, leb_spec, abs_spec, prim_zero.
  destruct (Prim2SF x) as [s|s| |s m e]; cbn; auto.
Qed.

Lemma mul_abs x : abs x * abs x = x * x.
Proof.
  apply Prim2SF_inj. rewrite !mul_spec, abs_spec.
  destruct (Prim2SF x) as [s|s| |s m e]; cbn; try reflexivity;
    try (now destruct s); now rewrite xorb_nilpotent.
Qed.

Lemma sub_self x : is_finite x = true -> x - x = 0.
Proof.
  rewrite is_finite_SF. intros F. apply Prim2SF_inj.
  rewrite sub_spec, prim_zero.
  destruct (Prim2SF x) as [[]|s| |s m e]; try discriminate; try reflexivity.
  unfold SF64sub, SFsub. now rewrite Z.sub_diag.
Qed.

Lemma rounded_not_nan s m2 e2 : (0 <= m2)%Z -> sf_nan (rounded s m2 e2) = false.
Proof.
  destruct m2 as [|p|p]; cbn; intros H; [reflexivity| |lia].
  now destruct (e2 <=? _)%Z.
Qed.

Lemma binary_round_not_nan s q e :
  sf_nan (binary_round prec emax s q e) = false.
Proof.
  unfold binary_round. destruct (shl_align _ _ _) as [mz ez].
  destruct (binary_round_aux_spec s (Zpos mz) ez loc_Exact) as (m2 & e2 & R & N & _);
    [lia|].
  rewrite R. now apply rounded_not_nan.
Qed.

Lemma binary_normalize_not_nan m e sz :
  sf_nan (binary_normalize prec emax m e sz) = false.
Proof.
  destruct m as [|p|p]; cbn [binary_normalize]; [reflexivity| |];
    apply binary_round_not_nan.
Qed.

(** A float that is not negative, less one half, is not NaN. *)
Lemma sub_half_not_nan x :
  sf_nonneg (Prim2SF x) = true -> is_nan (x - 0.5) = false.
Proof.
  rewrite is_nan_SF, sub_spec, prim_half.
  destruct (Prim2SF x) as [[]|[]| |[] m e]; try discriminate; intros _;
    try reflexivity.
  unfold SFsub. apply binary_normalize_not_nan.
Qed.

Lemma rounded_neg_leb m2 e2 :
  (0 <= m2)%Z -> SFleb (rounded true m2 e2) (S754_zero false) = true.
Proof.
  destruct m2 as [|p|p]; cbn; intros H; [reflexivity| |lia].
  now destruct (e2 <=? _)%Z.
Qed.

(** A product of a number that is not positive and one that is not negative. *)
Lemma mul_nonpos_nonneg x y :
  (x <=? 0) = true -> is_finite x = true ->
  (0 <=? y) = true -> is_finite y = true ->
  (x * y <=? 0) = true.
Proof.
  rewrite !leb_spec, !is_finite_SF, mul_spec, prim_zero.
  destruct (Prim2SF x) as [[]|[]| |[] m e], (Prim2SF y) as [[]|[]| |[] m' e'];
    try discriminate; intros _ _ _ _; try reflexivity.
  unfold SF64mul, SFmul. cbn [xorb].
  destruct (binary_round_aux_spec true (Zpos (m * m')) (e + e') loc_Exact)
    as (m2 & e2 & R & N & _); [lia|].
  rewrite R. now apply rounded_neg_leb.
Qed.

Lemma div_nonpos x : (x <=? 0) = true -> (x / 2000 <=? 0) = true.
Proof.
  rewrite !leb_spec, div_spec, prim_zero.
  change (Prim2SF 2000) with (S754_finite false 8796093022208000 (-42)).
  destruct (Prim2SF x) as [[]|[]| |[] m e]; try discriminate; intros _;
    try reflexivity.
  unfold SF64div, SFdiv. cbn [xorb]. unfold SFdiv_core_binary.
  set (m' := match (_ - _ - _)%Z with Zpos _ => _ | Z0 => _ | Zneg _ => _ end).
  assert (Hm : (0 <= m')%Z).
  { unfold m'. destruct (_ - _ - _)%Z as [|p|p]; try lia.
    apply Z.shiftl_nonneg. lia. }
  pose proof (Z.div_pos m' (Zpos 8796093022208000) Hm eq_refl) as Hq.
  unfold Z.div in Hq.
  destruct (Z.div_eucl m' (Zpos 8796093022208000)) as [q r].
  match goal with
  | |- SFleb (binary_round_aux _ _ true q ?ez ?lz) _ = true =>
      destruct (binary_round_aux_spec true q ez lz Hq) as (m2 & e2 & R & N & _)
  end.
  rewrite R. now apply rounded_neg_leb.
Qed.

Lemma SFltb_finite_half m e :
  bounded prec emax m e = true ->
  SFltb (S754_finite false m e) (S754_finite false 4503599627370496 (-53))
  = (e <? -53)%Z /\
  SFltb (S754_finite false 4503599627370496 (-53)) (S754_finite false m e)
  = ((-53 <? e)%Z || ((e =? -53)%Z && negb (m =? 4503599627370496)%positive)).
Proof.
  intros V. destruct (canonical_digits m e V) as (R & D & D53).
  unfold SFltb, SFcompare.
  rewrite (Z.compare_antisym e (-53)).
  destruct (Z.compare_spec e (-53)) as [E|E|E]; cbn [CompOpp].
  - subst e.
    assert (Lo : (2 ^ 52 <= Zpos m)%Z).
    { pose proof (Zdigits2_lower (Zpos m) eq_refl) as Lw.
      rewrite D53 in Lw by lia. exact Lw. }
    change (-53 <? -53)%Z with false. change (-53 =? -53)%Z with true.
    cbn [orb andb].
    rewrite !Pos.compare_cont_spec.
    rewrite (Pos.compare_antisym m 4503599627370496).
    destruct (Pos.compare_spec m 4503599627370496) as [->|N|N];
      cbn [Pos.switch_Eq CompOpp].
    + now rewrite Pos.eqb_refl.
    + exfalso. apply (Pos2Z.pos_lt_pos) in N.
      change (Zpos 4503599627370496) with (2 ^ 52)%Z in N.
      exact (proj1 (Z.lt_nge _ _) N Lo).
    + split; [reflexivity|].
      rewrite (proj2 (Pos.eqb_neq m 4503599627370496)); [reflexivity|].
      intros ->. exact (Pos.lt_irrefl _ N).
  - rewrite (proj2 (Z.ltb_lt e (-53)) E).
    rewrite (proj2 (Z.ltb_ge (-53) e)) by lia.
    rewrite (proj2 (Z.eqb_neq e (-53))) by lia. split; reflexivity.
  - rewrite (proj2 (Z.ltb_ge e (-53))) by lia.
    rewrite (proj2 (Z.ltb_lt (-53) e)) by lia. split; reflexivity.
Qed.

(** The sign of a float that is not negative, less one half. *)
Lemma SF64sub_half_sign x :
  valid_binary x = true -> sf_nonneg x = true ->
  let half := S754_finite false 4503599627370496 (-53) in
  let y := SF64sub x half in
  SFltb y (S754_zero false) = SFltb x half /\
  SFltb (S754_zero false) y = SFltb half x.
Proof.
  destruct x as [[]|[]| |[] m e]; try discriminate; intros V _; cbv zeta;
    try (split; reflexivity).
  cbn [valid_binary] in V.
  destruct (SFltb_finite_half m e V) as [-> ->].
  destruct (canonical_digits m e V) as (R & D & D53).
  unfold SF64sub, SFsub. cbn [cond_Zopp].
  destruct (shl_align_spec m e (Z.min e (-53))) as [A _].
  destruct (shl_align_spec 4503599627370496 (-53) (Z.min e (-53))) as [B _].
  destruct (shl_align m e (Z.min e (-53))) as [a ea].
  destruct (shl_align 4503599627370496 (-53) (Z.min e (-53))) as [b eb].
  cbn [fst] in *.
  replace (Z.min e (Z.min e (-53))) with (Z.min e (-53)) in A by lia.
  replace (Z.min (-53) (Z.min e (-53))) with (Z.min e (-53)) in B by lia.
  assert (Lo : (-1074 < e -> 2 ^ 52 <= Zpos m)%Z).
  { intros H. pose proof (Zdigits2_lower (Zpos m) eq_refl) as Lw.
    rewrite (D53 H) in Lw. exact Lw. }
  assert (Hi : (Zpos m < 2 ^ 53)%Z) by (apply Zdigits2_le_iff; lia).
  destruct (Z_lt_le_dec e (-53)) as [Small|Large].
  - replace (Z.min e (-53)) with e in * by lia.
    rewrite Z.sub_diag, Z.mul_1_r in A.
    assert (Hb : (Zpos b = 2 ^ (-1 - e))%Z).
    { rewrite B. change (Zpos 4503599627370496) with (2 ^ 52)%Z.
      rewrite <- Z.pow_add_r by lia. f_equal. lia. }
    assert (Hlt : (Zpos a < Zpos b)%Z).
    { rewrite A, Hb. apply Z.lt_le_trans with (2 ^ 53)%Z; [exact Hi|].
      apply Z.pow_le_mono_r; lia. }
    destruct (Zpos a - Zpos b)%Z as [|q|q] eqn:E; try lia.
    cbn [binary_normalize].
    destruct (binary_round_spec true q e) as (m2 & e2 & Rq & Pq & Eq);
      [lia|].
    assert (Dq : (Zdigits2 (Zpos q) <= -1 - e)%Z).
    { apply Zdigits2_le_iff; [lia|]. rewrite <- Hb. lia. }
    rewrite Rq. destruct m2 as [|p2|p2]; try lia. cbn [rounded].
    assert (E2 : (e2 <= -53)%Z)
      by (unfold fexp, SpecFloat.emin, prec, emax in Eq; lia).
    rewrite (proj2 (Z.leb_le e2 (emax - prec))) by (unfold emax, prec; lia).
    rewrite (proj2 (Z.ltb_lt e (-53))) by lia.
    rewrite (proj2 (Z.ltb_ge (-53) e)) by lia.
    rewrite (proj2 (Z.eqb_neq e (-53))) by lia.
    split; reflexivity.
  - replace (Z.min e (-53)) with (-53)%Z in * by lia.
    change (Zpos 4503599627370496 * 2 ^ (-53 - -53))%Z
      with (2 ^ 52)%Z in B.
    assert (P : (1 <= 2 ^ (e - -53))%Z)
      by (change 1%Z with (2 ^ 0)%Z; apply Z.pow_le_mono_r; lia).
    assert (Hge : (Zpos b <= Zpos a)%Z) by (rewrite A, B; nia).
    rewrite (proj2 (Z.ltb_ge e (-53))) by lia.
    destruct (Zpos a - Zpos b)%Z as [|q|q] eqn:E; try lia.
    + cbn [binary_normalize].
      assert (e = -53)%Z.
      { destruct (Z.eq_dec e (-53)) as [|N]; [assumption|].
        assert (2 <= 2 ^ (e - -53))%Z
          by (change 2%Z with (2 ^ 1)%Z at 1; apply Z.pow_le_mono_r; lia).
        nia. }
      subst e. rewrite Z.sub_diag, Z.mul_1_r in A.
      assert (m = 4503599627370496%positive) by lia. subst m.
      split; reflexivity.
    + cbn [binary_normalize].
      destruct (binary_round_spec false q (-53)) as (m2 & e2 & Rq & Pq & _);
        [lia|].
      rewrite Rq. destruct m2 as [|p2|p2]; try lia. cbn [rounded].
      assert (N : ((-53 <? e)%Z
                   || ((e =? -53)%Z && negb (m =? 4503599627370496)%positive))
                  = true).
      { destruct (Z.eqb_spec e (-53)) as [->|Ne].
        - rewrite Z.sub_diag, Z.mul_1_r in A. cbn [andb orb].
          change (-53 <? -53)%Z with false. cbn [orb].
          apply negb_true_iff, Pos.eqb_neq. intros ->. lia.
        - rewrite (proj2 (Z.ltb_lt (-53) e)) by lia. reflexivity. }
      rewrite N. destruct (e2 <=? emax - prec)%Z; split; reflexivity.
Qed.

Lemma sub_half_sign x :
  sf_nonneg (Prim2SF x) = true ->
  (x - 0.5 <? 0) = (x <? 0.5) /\ (0 <? x - 0.5) = (0.5 <? x).
Proof.
  intros H. rewrite !ltb_spec, sub_spec, prim_half.
  change (Prim2SF 0) with (S754_zero false).
  now apply SF64sub_half_sign; [apply Prim2SF_valid|].
Qed.

(** *** Zeros in comparisons *)

Lemma zero_eqb x : sf_zero (Prim2SF x) = true -> (x =? 0) = true.
Proof.
  rewrite eqb_spec, prim_zero. now destruct (Prim2SF x) as [[]|[]| |].
Qed.

Lemma zero_bounds x :
  sf_zero (Prim2SF x) = true ->
  is_nan x = false /\ (0 <=? x) = true /\ (x <=? 1) = true.
Proof.
  rewrite is_nan_SF, !leb_spec, prim_zero, prim_one.
  now destruct (Prim2SF x) as [[]|[]| |].
Qed.

Lemma leb_both_zero x :
  (x <=? 0) = true -> (0 <=? x) = true -> sf_zero (Prim2SF x) = true.
Proof.
  rewrite !leb_spec, prim_zero.
  now destruct (Prim2SF x) as [[]|[]| |[] m e].
Qed.

End NumberFacts.

(** ** Lists, slices and the grid of rays *)

Module GridFacts.

Import Jtoolbox mandelclass Ray Camera ArrayFacts NpImage.

(** *** Lists *)

Lemma length_zipWith {A B C : Type} (f : A -> B -> C) a b :
  length (zipWith f a b) = Nat.min (length a) (length b).
Proof.
  revert b. induction a as [|x a IH]; intros [|y b]; cbn; try reflexivity.
  now rewrite IH.
Qed.

Lemma length_zipWith3 {A B C D : Type} (f : A -> B -> C -> D) a b c :
  length (zipWith3 f a b c) =
  Nat.min (length a) (Nat.min (length b) (length c)).
Proof.
  revert b c. induction a as [|x a IH]; intros [|y b] [|z c]; cbn;
    try reflexivity.
  now rewrite IH.
Qed.

Lemma nth_error_zipWith3 {A B C D : Type} (f : A -> B -> C -> D) a b c i x y z :
  nth_error a i = Some x -> nth_error b i = Some y -> nth_error c i = Some z ->
  nth_error (zipWith3 f a b c) i = Some (f x y z).
Proof.
  revert b c i. induction a as [|x' a IH]; intros [|y' b] [|z' c] [|i]; cbn;
    try discriminate.
  - now intros [= ->] [= ->] [= ->].
  - apply IH.
Qed.

Lemma zipWith_zipWith_l {A B C : Type} (f : A -> B -> C) (g : C -> A -> C)
    (a : list A) (b : list B) :
  zipWith g (zipWith f a b) a = zipWith (fun x y => g (f x y) x) a b.
Proof.
  revert b. induction a as [|x a IH]; intros [|y b]; cbn; try reflexivity.
  now rewrite IH.
Qed.

Lemma map_zipWith {A B C D : Type} (h : C -> D) (f : A -> B -> C) a b :
  map h (zipWith f a b) = zipWith (fun x y => h (f x y)) a b.
Proof.
  revert b. induction a as [|x a IH]; intros [|y b]; cbn; try reflexivity.
  now rewrite IH.
Qed.

Lemma zipWith_app {A B C : Type} (f : A -> B -> C) a a' b b' :
  length a = length b ->
  zipWith f (a ++ a') (b ++ b') = zipWith f a b ++ zipWith f a' b'.
Proof.
  revert b. induction a as [|x a IH]; intros [|y b]; cbn; try discriminate.
  - reflexivity.
  - intros [= H]. now rewrite IH.
Qed.

Lemma Forall_zipWith {A B C : Type} (P : C -> Prop) (f : A -> B -> C) a b :
  (forall x y, P (f x y)) -> Forall P (zipWith f a b).
Proof.
  intros H. revert b. induction a as [|x a IH]; intros [|y b]; cbn;
    constructor; auto.
Qed.

Lemma length_iter_zipWith {A B : Type} (f : A -> B -> B) (a : list A) n b :
  length a = length b -> length (Nat.iter n (zipWith f a) b) = length b.
Proof.
  intros H. induction n as [|n IH]; [reflexivity|].
  rewrite Nat.iter_succ, length_zipWith, IH. lia.
Qed.

Lemma length_flat_map_const {A B : Type} (f : A -> list B) (l : list A) k :
  (forall x, length (f x) = k) -> length (flat_map f l) = (length l * k)%nat.
Proof.
  intros H. induction l as [|x l IH]; [reflexivity|].
  cbn. now rewrite length_app, H, IH.
Qed.

Lemma nth_error_blocks {A B : Type} (f : A -> list B) (l : list A) k i j x y :
  (forall x, length (f x) = k) ->
  nth_error l i = Some x -> nth_error (f x) j = Some y ->
  nth_error (flat_map f l) (i * k + j) = Some y.
Proof.
  intros H. revert i. induction l as [|x' l IH]; intros [|i]; cbn;
    try discriminate.
  - intros [= ->] Hj. rewrite nth_error_app1; [exact Hj|].
    apply nth_error_Some. now rewrite Hj.
  - intros Hi Hj. rewrite nth_error_app2 by (rewrite H; lia).
    rewrite H. replace (k + i * k + j - k)%nat with (i * k + j)%nat by lia.
    now apply IH.
Qed.

Lemma Forall_zipWith_both {A B C : Type} (P : A -> Prop) (Q : B -> Prop)
  (R : C -> Prop) (f : A -> B -> C) a b :
  (forall x y, P x -> Q y -> R (f x y)) ->
  Forall P a -> Forall Q b -> Forall R (zipWith f a b).
Proof.
  intros H Ha. revert b. induction Ha as [|x a Px _ IH]; intros b Hb;
    [constructor|].
  destruct Hb as [|y b Qy Hb]; cbn; constructor; auto.
Qed.

Lemma Forall_firstn_keep {A : Type} (P : A -> Prop) n (l : list A) :
  Forall P l -> Forall P (firstn n l).
Proof.
  intros H. revert n. induction H as [|x l Px _ IH]; intros [|n]; cbn;
    constructor; auto.
Qed.

Lemma Forall_skipn_keep {A : Type} (P : A -> Prop) n (l : list A) :
  Forall P l -> Forall P (skipn n l).
Proof.
  intros H. revert n. induction H as [|x l Px Hl IH]; intros [|n]; cbn;
    auto.
Qed.

(** *** Slices and shapes *)

Lemma slice_but_two {A : Type} (l : list A) :
  Py.slice 0 (-2) l = firstn (length l - 2) l.
Proof.
  unfold Py.slice, Py.bound. cbn [Z.ltb Z.compare].
  replace (Z.to_nat (Z.max 0 (Z.min (Z.of_nat (length l)) 0))) with 0%nat by lia.
  cbn [skipn]. f_equal. lia.
Qed.

Lemma slice_inner {A : Type} (l : list A) :
  Py.slice 1 (-1) l = firstn (length l - 2) (skipn 1 l).
Proof.
  unfold Py.slice, Py.bound. cbn [Z.ltb Z.compare].
  destruct l as [|x l]; [reflexivity|].
  replace (Z.to_nat (Z.max 0 (Z.min (Z.of_nat (length (x :: l))) 1)))
    with 1%nat by (cbn [length]; lia).
  f_equal. cbn [length]. lia.
Qed.

Lemma chunks_length n rows l : length (chunks n rows l) = rows.
Proof.
  revert l. induction rows as [|k IH]; intros l; cbn; [reflexivity|].
  now rewrite IH.
Qed.

Lemma chunks_rows n rows l :
  length l = (rows * n)%nat ->
  Forall (fun row => length row = n) (chunks n rows l).
Proof.
  revert l. induction rows as [|k IH]; intros l H; cbn; constructor.
  - rewrite length_firstn. lia.
  - apply IH. rewrite length_skipn. lia.
Qed.

Lemma transpose_shape cols a :
  length (transpose cols a) = cols /\
  Forall (fun row => length row = length a) (transpose cols a).
Proof.
  unfold transpose. split; [now rewrite length_map, length_seq|].
  apply Forall_map, Forall_forall. intros j _. apply length_map.
Qed.

Lemma reshape_square d n :
  (0 <= n)%Z -> length d = (Z.to_nat n * Z.to_nat n)%nat ->
  reshape d n n = Some (chunks (Z.to_nat n) (Z.to_nat n) d).
Proof.
  intros N H. unfold reshape.
  rewrite (proj2 (Z.ltb_ge n 0) N). cbn [orb].
  now rewrite (proj2 (Z.eqb_eq (n * n) (Z.of_nat (length d)))) by nia.
Qed.


(** *** [linspace] and the grid *)

Lemma length_set_last y stop : y <> [] -> length (set_last y stop) = length y.
Proof.
  intros H. unfold set_last. rewrite length_app, removelast_firstn_len.
  rewrite length_firstn. cbn [length]. destruct y; [contradiction|]. cbn. lia.
Qed.

Lemma linspace_length a b n l :
  linspace a b n = Some l -> (0 <= n)%Z /\ length l = Z.to_nat n.
Proof.
  unfold linspace. destruct (n <? 0)%Z eqn:N; [discriminate|].
  apply Z.ltb_ge in N. intros [= <-]. split; [exact N|].
  set (y := map (fun v => v + a) _).
  assert (Hy : length y = Z.to_nat n).
  { unfold y. rewrite length_map.
    destruct (0 <? n - 1)%Z; [destruct (_ =? 0)|];
      now rewrite !length_map, length_range. }
  destruct (1 <? n)%Z eqn:M; [|exact Hy].
  apply Z.ltb_lt in M. rewrite length_set_last; [exact Hy|].
  intros E. rewrite E in Hy. cbn in Hy. lia.
Qed.

Lemma grid_length vx vy :
  length (grid vx vy (length vx * length vy)) = (length vx * length vy)%nat.
Proof.
  unfold grid. rewrite length_zipWith3, repeat_length.
  rewrite !(length_flat_map_const _ vx (length vy)); [lia| |];
    intros x; [reflexivity | apply length_map].
Qed.

Lemma grid_nth vx vy i j x y :
  nth_error vx i = Some x -> nth_error vy j = Some y ->
  nth_error (grid vx vy (length vx * length vy)) (i * length vy + j)
  = Some (V3 x y 1).
Proof.
  intros Hi Hj. unfold grid.
  assert (Li : (i < length vx)%nat) by (apply nth_error_Some; now rewrite Hi).
  assert (Lj : (j < length vy)%nat) by (apply nth_error_Some; now rewrite Hj).
  apply nth_error_zipWith3.
  - apply nth_error_blocks with (x := x);
      [intros; apply length_map | exact Hi |].
    now rewrite nth_error_map, Hj.
  - now apply nth_error_blocks with (x := x).
  - apply nth_error_repeat. nia.
Qed.

Section WithLib.

Variable L : MathLib.

(** The rays [camera] sets up: [res * res] directions, laid out as the
    grid. *)
Lemma camera_rays self dirs c :
  camera L self = Ok (dirs, c) ->
  (0 <= res self)%Z /\
  Z.to_nat (res self * res self) = (Z.to_nat (res self) * Z.to_nat (res self))%nat /\
  length dirs = (Z.to_nat (res self) * Z.to_nat (res self))%nat /\
  exists vx,
    linspace (-0.5) 0.5 (res self) = Some vx /\
    length vx = Z.to_nat (res self) /\
    dirs = map (fun g => orientation L self (normalize g))
               (grid vx vx (length vx * length vx)).
Proof.
  intros H. destruct (ClassFacts.camera_ok L self dirs c H) as (_ & vx & E & D).
  destruct (linspace_length _ _ _ _ E) as [N Lx].
  assert (M : Z.to_nat (res self * res self)
              = (Z.to_nat (res self) * Z.to_nat (res self))%nat)
    by (apply Z2Nat.inj_mul; assumption).
  rewrite M, <- Lx in D.
  repeat split; try assumption.
  - rewrite D, length_map, grid_length. now rewrite Lx.
  - exists vx. now repeat split.
Qed.

End WithLib.

End GridFacts.

(** ** The estimators, the marcher and [render], continued *)

Module MethodFacts.

Import Jtoolbox mandelclass Ray Camera Ieee FloatFacts ArrayFacts BlendFacts.
Import RoundFacts SphereFacts NumberFacts GridFacts NpImage Methods.

(** *** Rotation by an angle of cosine 1 and sine 0 *)

Section WithLib.

Variable L : MathLib.
Variable angle : float.
Variable v : vec3.
Hypothesis cos_one : cos L angle = 1.
Hypothesis sin_zero : sin L angle = 0.
Hypothesis v_finite : vfinite v = true.
Hypothesis v_zeros : no_neg_zero v = true.

Lemma rotx_unit : vecmat v (rotx L angle) = v.
Proof.
  apply vfinite_components in v_finite as (F0 & F1 & F2).
  apply no_neg_zero_components in v_zeros as (N0 & N1 & N2).
  destruct v as [x y w]. cbn [c0 c1 c2] in *.
  unfold vecmat, dot3, sum3, vmul, vmap2, rotx, col0, col1, col2.
  cbn [c0 c1 c2 row0 row1 row2]. rewrite cos_one, sin_zero, !mul_one_r.
  f_equal;
    first [ apply sum_keep_first | apply sum_keep_second | apply sum_keep_third ];
    auto using mul_zero_finite, mul_finite_zero.
Qed.

Lemma roty_unit : vecmat v (roty L angle) = v.
Proof.
  apply vfinite_components in v_finite as (F0 & F1 & F2).
  apply no_neg_zero_components in v_zeros as (N0 & N1 & N2).
  destruct v as [x y w]. cbn [c0 c1 c2] in *.
  unfold vecmat, dot3, sum3, vmul, vmap2, roty, col0, col1, col2.
  cbn [c0 c1 c2 row0 row1 row2]. rewrite cos_one, sin_zero, !mul_one_r.
  f_equal;
    first [ apply sum_keep_first | apply sum_keep_second | apply sum_keep_third ];
    auto using mul_zero_finite, mul_finite_zero.
Qed.

Lemma rotz_unit : vecmat v (rotz L angle) = v.
Proof.
  apply vfinite_components in v_finite as (F0 & F1 & F2).
  apply no_neg_zero_components in v_zeros as (N0 & N1 & N2).
  destruct v as [x y w]. cbn [c0 c1 c2] in *.
  unfold vecmat, dot3, sum3, vmul, vmap2, rotz, col0, col1, col2.
  cbn [c0 c1 c2 row0 row1 row2]. rewrite cos_one, sin_zero, !mul_one_r.
  f_equal;
    first [ apply sum_keep_first | apply sum_keep_second | apply sum_keep_third ];
    auto using mul_zero_finite, mul_finite_zero.
Qed.

End WithLib.

(** *** NaN in the marcher and in [Sphere] *)

(** A NaN coordinate survives a marching iteration. *)
Lemma march_ray_keeps_nan f d p :
  (is_nan (c0 p) = true -> is_nan (c0 (march_ray f d p)) = true) /\
  (is_nan (c1 p) = true -> is_nan (c1 (march_ray f d p)) = true) /\
  (is_nan (c2 p) = true -> is_nan (c2 (march_ray f d p)) = true).
Proof.
  unfold march_ray, vadd, vscale, vmap2, vmap. cbn [c0 c1 c2].
  repeat split; apply add_nan_is_nan.
Qed.

Lemma march_iter_keeps_nan f d p n :
  (is_nan (c0 p) = true -> is_nan (c0 (Nat.iter n (march_ray f d) p)) = true) /\
  (is_nan (c1 p) = true -> is_nan (c1 (Nat.iter n (march_ray f d) p)) = true) /\
  (is_nan (c2 p) = true -> is_nan (c2 (Nat.iter n (march_ray f d) p)) = true).
Proof.
  induction n as [|n (I0 & I1 & I2)]; [now repeat split|].
  rewrite Nat.iter_succ.
  destruct (march_ray_keeps_nan f d (Nat.iter n (march_ray f d) p))
    as (H0 & H1 & H2).
  repeat split; auto.
Qed.

(** The distance from a point with a NaN coordinate is NaN. *)
Lemma distance_nan q c :
  is_nan (c0 q) || is_nan (c1 q) || is_nan (c2 q) = true ->
  is_nan (distance q c) = true.
Proof.
  intros H. unfold distance, norm3, sum3, vmul, vsub, vmap2. cbn [c0 c1 c2].
  apply orb_true_iff in H as [H|H]; [apply orb_true_iff in H as [H|H]|];
    rewrite (is_nan_eq _ H), sub_nan_l, mul_nan_l;
    repeat (rewrite add_nan_l || rewrite add_nan_r); reflexivity.
Qed.

(** The norm of three floats none of which is NaN. *)
Lemma norm3_nonneg_numbers p :
  is_nan (c0 p) = false -> is_nan (c1 p) = false -> is_nan (c2 p) = false ->
  sf_nonneg (Prim2SF (norm3 p)) = true.
Proof.
  intros N0 N1 N2. unfold norm3, sum3, vmul, vmap2. cbn [c0 c1 c2].
  apply sqrt_nonneg, add_nonneg; [apply add_nonneg|];
    now apply mul_self_nonneg.
Qed.

Lemma norm3_nan p :
  is_nan (c0 p) || is_nan (c1 p) || is_nan (c2 p) = true -> norm3 p = nan.
Proof.
  intros H. unfold norm3, sum3, vmul, vmap2. cbn [c0 c1 c2].
  apply orb_true_iff in H as [H|H]; [apply orb_true_iff in H as [H|H]|];
    rewrite (is_nan_eq _ H), mul_nan_l;
    repeat (rewrite add_nan_l || rewrite add_nan_r); reflexivity.
Qed.

Lemma sphere_point_nan p :
  is_nan (sphere_point p) = is_nan (c0 p) || is_nan (c1 p) || is_nan (c2 p).
Proof.
  rewrite sphere_point_norm.
  destruct (is_nan (c0 p) || is_nan (c1 p) || is_nan (c2 p)) eqn:E.
  - now rewrite (norm3_nan p E), sub_nan_l.
  - apply orb_false_elim in E as [E N2]. apply orb_false_elim in E as [N0 N1].
    now apply sub_half_not_nan, norm3_nonneg_numbers.
Qed.

Lemma sphere_point_abs p q :
  vmap abs p = vmap abs q -> sphere_point p = sphere_point q.
Proof.
  destruct p as [x y z], q as [x' y' z']. unfold vmap. cbn [c0 c1 c2].
  intros [= Hx Hy Hz]. rewrite !sphere_point_norm.
  unfold norm3, sum3, vmul, vmap2. cbn [c0 c1 c2].
  rewrite <- (mul_abs x), <- (mul_abs y), <- (mul_abs z), Hx, Hy, Hz.
  now rewrite !mul_abs.
Qed.

(** *** [np.clip] and the shading *)

Lemma clip_unit x :
  is_nan (clip x 0 1) = true \/
  (0 <=? clip x 0 1) = true /\ (clip x 0 1 <=? 1) = true.
Proof.
  unfold clip, clip_max, clip_min.
  destruct (is_nan x) eqn:N; [left; now rewrite N|].
  destruct (0 <=? x) eqn:P.
  - rewrite N. destruct (x <=? 1) eqn:Q; right.
    + now split.
    + split; reflexivity.
  - right. split; reflexivity.
Qed.

(** A zero goes through [np.clip] as it is, sign included. *)
Lemma clip_zero x : sf_zero (Prim2SF x) = true -> clip x 0 1 = x.
Proof.
  intros Z. destruct (zero_bounds x Z) as (N & P & Q).
  unfold clip, clip_max, clip_min. now rewrite N, P, N, Q.
Qed.

Lemma clip_nonpos x : (x <=? 0) = true -> (clip x 0 1 =? 0) = true.
Proof.
  intros H. destruct (0 <=? x) eqn:P.
  - pose proof (leb_both_zero x H P) as Z.
    rewrite (clip_zero x Z). now apply zero_eqb.
  - unfold clip, clip_max, clip_min.
    now rewrite (leb_finite_zero x H), P.
Qed.

Section WithLib.

Variable L : MathLib.

(** A row of the shaded image, pixel by pixel. *)
Lemma shade_rows n im :
  shade L n im =
  map (fun row => zipWith (pixel L n) (firstn (length row - 2) row)
                          (firstn (length row - 2) (skipn 1 row))) im.
Proof.
  unfold shade, columns. rewrite !zipWith_map.
  induction im as [|row im IH]; [reflexivity|].
  cbn [zipWith map]. rewrite IH. f_equal. clear IH.
  rewrite slice_but_two, slice_inner.
  rewrite zipWith_zipWith_l, map_zipWith. reflexivity.
Qed.

Lemma shade_row_length (n : Z) (row : list float) :
  length (zipWith (pixel L n) (firstn (length row - 2) row)
                  (firstn (length row - 2) (skipn 1 row)))
  = (length row - 2)%nat.
Proof.
  rewrite length_zipWith, !length_firstn, length_skipn. lia.
Qed.

(** The pixels of a row are those of the row without its last entry. *)
Lemma shade_row_removelast (n : Z) (row : list float) :
  zipWith (pixel L n) (firstn (length row - 2) row)
          (firstn (length row - 2) (skipn 1 row))
  = zipWith (pixel L n)
            (firstn (length (removelast row) - 1) (removelast row))
            (skipn 1 (removelast row)).
Proof.
  rewrite removelast_firstn_len, length_firstn, firstn_firstn.
  rewrite firstn_skipn_comm.
  destruct row as [|a [|b row]]; [reflexivity | reflexivity |].
  cbn [length Nat.pred].
  f_equal; [f_equal; lia|]. do 2 f_equal. lia.
Qed.

Lemma pixel_masked (n : Z) (a b : float) :
  (a <? 4) = false ->
  is_finite (arctan L ((a - b) * 250 - 0.1)) = true ->
  is_finite (of_int n) = true ->
  sf_zero (Prim2SF (pixel L n a b)) = true.
Proof.
  intros M Fa Fn. unfold pixel. rewrite M. cbn [of_bool].
  assert (Z : sf_zero (Prim2SF (arctan L ((a - b) * 250 - 0.1) * 0
                                * of_int n / 2000)) = true).
  { apply div_zero_l, mul_zero_l_finite; [|exact Fn].
    now apply mul_zero_finite. }
  now rewrite (clip_zero _ Z).
Qed.

End WithLib.

(** Two equal depths: the pixel is a zero when the arctangent of [-0.1] is a
    number that is not positive. *)
Lemma pixel_flat (L : MathLib) (n : Z) (a : float) :
  is_finite a = true ->
  (arctan L (-0.1) <=? 0) = true -> is_finite (arctan L (-0.1)) = true ->
  (0 <=? of_int n) = true -> is_finite (of_int n) = true ->
  (pixel L n a a =? 0) = true.
Proof.
  intros Fa Ha Ft Hn Fn. unfold pixel. rewrite (sub_self a Fa).
  change (0 * 250 - 0.1) with (-0.1).
  apply clip_nonpos, div_nonpos.
  - apply mul_nonpos_nonneg; try assumption.
    + destruct (a <? 4); cbn [of_bool].
      * now rewrite mul_one_r.
      * rewrite leb_spec.
        pose proof (mul_zero_finite _ Ft) as Z.
        now destruct (Prim2SF (arctan L (-0.1) * 0)) as [[]| | |].
    + destruct (a <? 4); cbn [of_bool].
      * now rewrite mul_one_r.
      * rewrite is_finite_SF.
        pose proof (mul_zero_finite _ Ft) as Z.
        now destruct (Prim2SF (arctan L (-0.1) * 0)).
Qed.

(** *** [render] after [visualize] *)

Lemma distance_map_distance self ps :
  distance_map self ps = map (fun p => distance p (campos self)) ps.
Proof.
  unfold distance_map. apply map_ext. intros p.
  unfold distance, norm3, dot3, vmul, vmap2, vmap, ones3. cbn [c0 c1 c2].
  now rewrite !mul_one_r.
Qed.

Section WithLib.

Variable L : MathLib.

(** The positions [visualize] stores: one per ray, [res * res] of them. *)
Lemma visualize_positions env self self1 out :
  visualize L env self = Ok (self1, out) ->
  exists dirs c ps,
    camera L self = Ok (dirs, c) /\
    pos self1 = Some ps /\
    ps = Nat.iter (Z.to_nat (nmarch self))
           (zipWith (march_ray (mand2_point L (order self) (power self))) dirs)
           (repeat c (Z.to_nat (res self) * Z.to_nat (res self))) /\
    length ps = (Z.to_nat (res self) * Z.to_nat (res self))%nat /\
    res self1 = res self /\ nmarch self1 = nmarch self /\
    order self1 = order self /\ campos self1 = campos self /\
    elapsed_time self1 = Some (elapsed env) /\
    fname self1 = Some (stamp env ++ "Mandelbulb.png")%string /\
    out = map (fun ii => RemainingIterations (nmarch self - ii))
              (range (nmarch self))
          ++ [ComputationTime (elapsed env)].
Proof.
  intros V. destruct (camera L self) as [[dirs c]|e] eqn:E;
    [|now rewrite (ClassFacts.visualize_raise L env self e E) in V].
  destruct (ClassFacts.visualize_ok L env self dirs c E)
    as (pos' & out' & M & V').
  rewrite V' in V. injection V as <- <-. cbn [pos res nmarch order campos
    elapsed_time fname].
  destruct (camera_rays L self dirs c E) as (N & Sq & Ld & _).
  rewrite MarchFacts.march_loop_iter, ClassFacts.initial_positions_repeat in M.
  injection M as <- <-. rewrite Sq.
  exists dirs, c. eexists. split; [reflexivity|]. split; [reflexivity|].
  split.
  { apply MarchFacts.iter_ext. intros y.
    apply MarchFacts.march_step_rows. intros ps.
    apply Mand2Facts.mand2_map. }
  split.
  { rewrite (MarchFacts.iter_ext _
       (zipWith (march_ray (mand2_point L (order self) (power self))) dirs)).
    - rewrite length_iter_zipWith; rewrite repeat_length; [reflexivity|].
      exact Ld.
    - intros y. apply MarchFacts.march_step_rows. intros ps.
      apply Mand2Facts.mand2_map. }
  now repeat split.
Qed.

(** The image [render] shows and saves. *)
Lemma image_size (n : Z) (im : list (list float)) :
  length im = Z.to_nat n ->
  size (transpose (Z.to_nat n - 2) (shade L n im))
  = ((Z.to_nat n - 2) * Z.to_nat n)%nat.
Proof.
  intros H. unfold size, transpose. rewrite <- flat_map_concat_map.
  rewrite (length_flat_map_const _ _ (Z.to_nat n)).
  - now rewrite length_seq.
  - intros j. now rewrite length_map, shade_rows, length_map.
Qed.

(** [render] on an object that holds [res * res] positions, a time and a
    file name, for a resolution of 3 at least. *)
Lemma render_complete filename self ps t f :
  pos self = Some ps -> (3 <= res self)%Z ->
  length ps = (Z.to_nat (res self) * Z.to_nat (res self))%nat ->
  elapsed_time self = Some t -> fname self = Some f ->
  let image :=
    transpose (Z.to_nat (res self) - 2)
      (shade L (res self)
         (chunks (Z.to_nat (res self)) (Z.to_nat (res self))
                 (distance_map self ps))) in
  render L filename self =
  Outcome (set_dis self (distance_map self ps))
          [PltFigure 2; FigClf; FigSubplots 1 1; AxImshow image "gray";
           AxSetTitle (im_title filename self t); FigTightLayout; CanvasDraw;
           PltShow; PltSavefig ("figure_" ++ f)%string;
           PliImsave f image "gray"; PrintLine "Image files saved"]
          None.
Proof.
  intros P N Len T F. cbv zeta. unfold render. rewrite P.
  cbn [res elapsed_time fname set_dis].
  change (distance_map (set_dis self (distance_map self ps)) ps)
    with (distance_map self ps).
  rewrite reshape_square; [|lia|unfold distance_map; now rewrite length_map].
  rewrite T, F, image_size by apply chunks_length.
  destruct (Nat.eqb_spec ((Z.to_nat (res self) - 2) * Z.to_nat (res self)) 0)
    as [E|_]; [nia | reflexivity].
Qed.

(** The same for a resolution of 0, 1 or 2: the image has no entries, and
    [imsave] raises once the figure is saved. *)
Lemma render_small filename self ps t f :
  pos self = Some ps -> (0 <= res self <= 2)%Z ->
  length ps = (Z.to_nat (res self) * Z.to_nat (res self))%nat ->
  elapsed_time self = Some t -> fname self = Some f ->
  let image :=
    transpose (Z.to_nat (res self) - 2)
      (shade L (res self)
         (chunks (Z.to_nat (res self)) (Z.to_nat (res self))
                 (distance_map self ps))) in
  render L filename self =
  Outcome (set_dis self (distance_map self ps))
          [PltFigure 2; FigClf; FigSubplots 1 1; AxImshow image "gray";
           AxSetTitle (im_title filename self t); FigTightLayout; CanvasDraw;
           PltShow; PltSavefig ("figure_" ++ f)%string]
          (Some ValueError).
Proof.
  intros P N Len T F. cbv zeta. unfold render. rewrite P.
  cbn [res elapsed_time fname set_dis].
  change (distance_map (set_dis self (distance_map self ps)) ps)
    with (distance_map self ps).
  rewrite reshape_square; [|lia|unfold distance_map; now rewrite length_map].
  rewrite T, F, image_size by apply chunks_length.
  destruct (Nat.eqb_spec ((Z.to_nat (res self) - 2) * Z.to_nat (res self)) 0)
    as [_|E]; [reflexivity | lia].
Qed.

End WithLib.

Lemma render_set_dis (L : MathLib) (filename : string) (self : Mandelbulb)
  (ps : list vec3) :
  pos self = Some ps ->
  render L filename (set_dis self (distance_map self ps))
  = render L filename self.
Proof.
  intros P. unfold render. cbn [pos set_dis]. rewrite P.
  reflexivity.
Qed.

Lemma render_object (L : MathLib) (filename : string) (self : Mandelbulb) :
  pos self = None /\ object (render L filename self) = self \/
  exists ps, pos self = Some ps /\
    object (render L filename self) = set_dis self (distance_map self ps).
Proof.
  unfold render. destruct (pos self) as [ps|]; [right|left; now split].
  exists ps. split; [reflexivity|].
  destruct (reshape _ _ _); [|reflexivity].
  destruct (elapsed_time _); [|reflexivity].
  destruct (fname _); [|reflexivity].
  now destruct (size _ =? 0)%nat.
Qed.

(** The whole method and its first three lines, [mandelclass.render]: the same
    object is left, or the same exception raised. *)
Lemma render_agrees (L : MathLib) (filename : string) (self : Mandelbulb) :
  match mandelclass.render self with
  | Ok (self', im) => object (Methods.render L filename self) = self'
  | Raise e => raised (Methods.render L filename self) = Some e
  end.
Proof.
  unfold mandelclass.render, Methods.render.
  destruct (pos self) as [ps|] eqn:P; [|reflexivity].
  cbn [res set_dis elapsed_time fname].
  change (distance_map (set_dis self (distance_map self ps)) ps)
    with (distance_map self ps).
  fold (distance_map self ps).
  destruct (reshape _ (res self) (res self)); [|reflexivity].
  destruct (elapsed_time self) eqn:T;
    [destruct (fname self) eqn:F; [destruct (size _ =? 0)%nat|]|];
    cbn [object]; unfold set_dis; now rewrite P, T, ?F.
Qed.

(** [render] after [visualize]: the image has [res - 2] rows of [res]
    pixels; from a resolution of 3 on the method runs to its end, below it
    stops in [imsave]. *)
Lemma render_after_visualize (L : MathLib) (env : clock) (filename : string)
  (self self1 : Mandelbulb) (out : list line) :
  visualize L env self = Ok (self1, out) ->
  exists ps image,
    pos self1 = Some ps /\
    length ps = (Z.to_nat (res self) * Z.to_nat (res self))%nat /\
    length image = (Z.to_nat (res self) - 2)%nat /\
    Forall (fun row => length row = Z.to_nat (res self)) image /\
    ((3 <= res self)%Z ->
     render L filename self1 =
     Outcome (set_dis self1 (distance_map self1 ps))
             [PltFigure 2; FigClf; FigSubplots 1 1; AxImshow image "gray";
              AxSetTitle (im_title filename self (elapsed env));
              FigTightLayout; CanvasDraw; PltShow;
              PltSavefig ("figure_" ++ stamp env ++ "Mandelbulb.png")%string;
              PliImsave (stamp env ++ "Mandelbulb.png")%string image "gray";
              PrintLine "Image files saved"]
             None) /\
    ((res self <= 2)%Z ->
     render L filename self1 =
     Outcome (set_dis self1 (distance_map self1 ps))
             [PltFigure 2; FigClf; FigSubplots 1 1; AxImshow image "gray";
              AxSetTitle (im_title filename self (elapsed env));
              FigTightLayout; CanvasDraw; PltShow;
              PltSavefig ("figure_" ++ stamp env ++ "Mandelbulb.png")%string]
             (Some ValueError)).
Proof.
  intros V.
  destruct (visualize_positions L env self self1 out V)
    as (dirs & c & ps & E & P & _ & Len & R & M & O & _ & T & F & _).
  destruct (camera_rays L self dirs c E) as (N & _).
  exists ps.
  exists (transpose (Z.to_nat (res self) - 2)
            (shade L (res self)
               (chunks (Z.to_nat (res self)) (Z.to_nat (res self))
                       (distance_map self1 ps)))).
  split; [exact P|]. split; [exact Len|].
  destruct (transpose_shape (Z.to_nat (res self) - 2)
              (shade L (res self)
                 (chunks (Z.to_nat (res self)) (Z.to_nat (res self))
                         (distance_map self1 ps)))) as [A B].
  split; [exact A|]. split.
  { assert (Ls : length (shade L (res self)
                           (chunks (Z.to_nat (res self)) (Z.to_nat (res self))
                                   (distance_map self1 ps)))
                 = Z.to_nat (res self))
      by now rewrite shade_rows, length_map, chunks_length.
    now rewrite Ls in B. }
  rewrite <- R in N, Len. split; intros H; rewrite <- R in H.
  - rewrite (render_complete L filename self1 ps _ _ P H Len T F).
    unfold im_title. rewrite M, O, R. reflexivity.
  - rewrite (render_small L filename self1 ps _ _ P (conj N H) Len T F).
    unfold im_title. rewrite M, O, R. reflexivity.
Qed.

(** *** Strings *)

Lemma str_inj a b : Py.str a = Py.str b -> a = b.
Proof.
  unfold Py.str. intros H. apply DecimalZ.to_int_inj.
  assert (N : forall z, Z.to_int z <> Decimal.Pos Decimal.Nil /\
                        Z.to_int z <> Decimal.Neg Decimal.Nil).
  { intros [|p|p]; cbn; split; try discriminate;
      intros [= E]; exact (DecimalPos.Unsigned.to_uint_nonnil p E). }
  pose proof (DecimalString.NilZero.isi (Z.to_int a) (proj1 (N a)) (proj2 (N a)))
    as Ia.
  pose proof (DecimalString.NilZero.isi (Z.to_int b) (proj1 (N b)) (proj2 (N b)))
    as Ib.
  rewrite H, Ib in Ia. now injection Ia.
Qed.

Lemma append_inj_l (s a b : string) : (s ++ a = s ++ b)%string -> a = b.
Proof.
  induction s as [|c s IH]; cbn; [auto|]. intros [= H]. auto.
Qed.

Lemma length_append (a b : string) :
  String.length (a ++ b) = (String.length a + String.length b)%nat.
Proof. induction a as [|c a IH]; cbn; [reflexivity|]. now rewrite IH. Qed.

Lemma append_inj_length (a a' b b' : string) :
  String.length a = String.length a' ->
  (a ++ b = a' ++ b')%string -> a = a'.
Proof.
  revert a'. induction a as [|c a IH]; intros [|c' a']; cbn; try discriminate;
    [reflexivity|].
  intros [= Hl] [= -> H]. f_equal. now apply IH.
Qed.

End MethodFacts.

(** ** Jtoolbox.py: further properties *)

Module Toolbox.

Import Jtoolbox mandelclass Ray Camera Ieee Examples.
Import FloatFacts ArrayFacts BlendFacts SphereFacts NumberFacts GridFacts.
Import MethodFacts.

(** X1.  A rotation leaves the coordinate along its axis as it is, for every
    angle and whatever the cosine and the sine of the library are: [rotx]
    keeps the x coordinate, [roty] the y coordinate and [rotz] the z
    coordinate of a vector of three numbers, bit for bit (a coordinate [-0.0]
    apart, which may come out as [+0.0]). *)
Theorem rotation_keeps_axis_coordinate (L : MathLib) (angle : float) (v : vec3) :
  vfinite v = true -> no_neg_zero v = true ->
  c0 (vecmat v (rotx L angle)) = c0 v /\
  c1 (vecmat v (roty L angle)) = c1 v /\
  c2 (vecmat v (rotz L angle)) = c2 v.
Proof.
  intros F N.
  apply vfinite_components in F as (F0 & F1 & F2).
  apply no_neg_zero_components in N as (N0 & N1 & N2).
  destruct v as [x y w]. cbn [c0 c1 c2] in *.
  unfold vecmat, dot3, sum3, vmul, vmap2, rotx, roty, rotz, col0, col1, col2.
  cbn [c0 c1 c2 row0 row1 row2]. rewrite !mul_one_r.
  repeat split.
  - apply sum_keep_first; [assumption| |]; now apply mul_zero_finite.
  - apply sum_keep_second; [assumption| |]; now apply mul_zero_finite.
  - apply sum_keep_third; [assumption| |]; now apply mul_zero_finite.
Qed.

(** Rotations by a quarter turn of the vector [(1, 2, 3)]. *)
Lemma rotation_keeps_axis_coordinate_witness :
  let v := V3 1 2 3 in
  vfinite v = true /\ no_neg_zero v = true /\
  (c0 (vecmat v (rotx RefLib.lib RefLib.half_pi)) = 1 /\
   c1 (vecmat v (roty RefLib.lib RefLib.half_pi)) = 2 /\
   c2 (vecmat v (rotz RefLib.lib RefLib.half_pi)) = 3).
Proof.
  cbv zeta. split; [reflexivity|]. split; [reflexivity|].
  apply (rotation_keeps_axis_coordinate RefLib.lib RefLib.half_pi (V3 1 2 3));
    reflexivity.
Defined.

(** X2.  For an angle at which the library returns the cosine 1 and the sine
    0 (the angle 0 of the defaults), [rotx], [roty] and [rotz] are the
    identity on every vector of three numbers without a negative zero: the
    rotated vector is the same vector, bit for bit. *)
Theorem rotation_identity (L : MathLib) (angle : float) (v : vec3) :
  cos L angle = 1 -> sin L angle = 0 ->
  vfinite v = true -> no_neg_zero v = true ->
  vecmat v (rotx L angle) = v /\
  vecmat v (roty L angle) = v /\
  vecmat v (rotz L angle) = v.
Proof.
  intros C S F N. repeat split.
  - now apply rotx_unit.
  - now apply roty_unit.
  - now apply rotz_unit.
Qed.

(** The angle 0 and the vector [(1, 2, 3)]. *)
Lemma rotation_identity_witness :
  let v := V3 1 2 3 in
  cos RefLib.lib 0 = 1 /\ sin RefLib.lib 0 = 0 /\
  vfinite v = true /\ no_neg_zero v = true /\
  (vecmat v (rotx RefLib.lib 0) = v /\
   vecmat v (roty RefLib.lib 0) = v /\
   vecmat v (rotz RefLib.lib 0) = v).
Proof.
  cbv zeta. do 4 (split; [reflexivity|]).
  apply (rotation_identity RefLib.lib 0 (V3 1 2 3)); reflexivity.
Defined.

(** X3.  The sign of [Sphere] tells the inside from the outside exactly: for
    every point none of whose coordinates is NaN (an infinite coordinate is
    allowed), the estimate is negative exactly when the norm of the point, as
    [LA.norm] computes it, is below 0.5, and positive exactly when the norm is
    above 0.5.  The rounding of the subtraction never changes the sign. *)
Theorem sphere_sign (pos : list vec3) :
  Forall (fun p => is_nan (c0 p) || is_nan (c1 p) || is_nan (c2 p) = false) pos ->
  Forall2 (fun p e => (e <? 0) = (norm3 p <? 0.5) /\
                      (0 <? e) = (0.5 <? norm3 p)) pos (Sphere pos).
Proof.
  intros F. unfold Sphere. fold sphere_point.
  induction F as [|p pos Fp _ IH]; cbn [map]; constructor; [|exact IH].
  rewrite sphere_point_norm.
  apply orb_false_elim in Fp as [Fp N2]. apply orb_false_elim in Fp as [N0 N1].
  now apply sub_half_sign, norm3_nonneg_numbers.
Qed.

(** A point inside, one on the sphere, one outside and one at infinity. *)
Lemma sphere_sign_witness :
  let pos := [V3 0.25 0 0; V3 0.5 0 0; V3 0 5 0; V3 infinity 0 0] in
  Forall (fun p => is_nan (c0 p) || is_nan (c1 p) || is_nan (c2 p) = false) pos /\
  Sphere pos = [-0.25; 0; 4.5; infinity] /\
  Forall2 (fun p e => (e <? 0) = (norm3 p <? 0.5) /\
                      (0 <? e) = (0.5 <? norm3 p)) pos (Sphere pos).
Proof.
  cbv zeta.
  assert (F : Forall (fun p => is_nan (c0 p) || is_nan (c1 p) || is_nan (c2 p)
                               = false)
                     [V3 0.25 0 0; V3 0.5 0 0; V3 0 5 0; V3 infinity 0 0])
    by (repeat constructor).
  split; [exact F|]. split; [reflexivity|].
  exact (sphere_sign _ F).
Defined.

(** X4.  [Sphere] returns NaN for a point exactly when one of the coordinates
    of the point is NaN: no other input, infinite coordinates and overflowing
    squares included, gives a NaN estimate. *)
Theorem sphere_nan (pos : list vec3) :
  map is_nan (Sphere pos)
  = map (fun p => is_nan (c0 p) || is_nan (c1 p) || is_nan (c2 p)) pos.
Proof.
  unfold Sphere. fold sphere_point.
  rewrite map_map. apply map_ext. intros p. apply sphere_point_nan.
Qed.

(** X5.  [Sphere] depends on the absolute values of the coordinates only: two
    batches whose points agree up to the signs of their coordinates get the
    same estimates, bit for bit. *)
Theorem sphere_mirror_symmetry (pos pos' : list vec3) :
  map (vmap abs) pos = map (vmap abs) pos' -> Sphere pos = Sphere pos'.
Proof.
  unfold Sphere. fold sphere_point. revert pos'.
  induction pos as [|p pos IH]; intros [|q pos']; cbn [map];
    try discriminate; [reflexivity|].
  intros E. f_equal.
  - apply sphere_point_abs. exact (f_equal (hd (vmap abs p)) E).
  - apply IH. exact (f_equal (@tl vec3) E).
Qed.

(** A point and its mirror image through the origin. *)
Lemma sphere_mirror_symmetry_witness :
  map (vmap abs) [V3 1 (-2) 3] = map (vmap abs) [V3 (-1) 2 (-3)] /\
  Sphere [V3 1 (-2) 3] = Sphere [V3 (-1) 2 (-3)].
Proof.
  split; [reflexivity|].
  apply (sphere_mirror_symmetry [V3 1 (-2) 3] [V3 (-1) 2 (-3)]).
  reflexivity.
Defined.

(** X6.  [mand2] returns one estimate per point, and no estimate is negative:
    each is NaN or at least 0, for every library, iteration count and
    power. *)
Theorem mand2_never_negative (L : MathLib) (pos : list vec3)
  (iterations power : Z) :
  length (mand2 L pos iterations power) = length pos /\
  Forall (fun e => is_nan e = true \/ (0 <=? e) = true)
         (mand2 L pos iterations power).
Proof.
  rewrite Mand2Facts.mand2_map. split; [apply length_map|].
  apply Forall_map, Forall_forall. intros p _. apply abs_nonneg.
Qed.

(** X7.  Outside the bailout radius the estimate of [mand2] does not depend on
    the number of iterations: for a point [p] with [|p| >= 1.5] whose candidate
    values [drnew] and [znew + p] are finite numbers, every call with at least
    one iteration returns [|0.5 * ln|p| * (|p| / 1)|]. *)
Theorem far_estimate (L : MathLib) (pos : list vec3) (iterations power : Z) :
  (0 < iterations)%Z ->
  Forall (fun p => geb (norm3 p) bailout = true /\
                   is_finite (drnew L power (norm3 p) 1) = true /\
                   vfinite (vadd (znew L power p) p) = true /\
                   no_neg_zero p = true) pos ->
  mand2 L pos iterations power =
  map (fun p => abs (0.5 * log L (norm3 p) * (norm3 p / 1))) pos.
Proof.
  intros I F. rewrite Mand2Facts.mand2_map.
  apply map_ext_in. intros p Hp.
  rewrite Forall_forall in F. destruct (F p Hp) as (R & Fd & Fz & Nz).
  unfold mand2_point.
  replace (Z.to_nat iterations) with (S (Z.to_nat iterations - 1)) by lia.
  rewrite (polar_step_frozen_iter L power p (PointState p 1 0)); try assumption;
    reflexivity.
Qed.

(** The point [(2, 0, 0)]: the estimate is [ln 2]. *)
Lemma far_estimate_witness :
  let pos := [V3 2 0 0] in
  (0 < 6)%Z /\
  Forall (fun p => geb (norm3 p) bailout = true /\
                   is_finite (drnew RefLib.lib 8 (norm3 p) 1) = true /\
                   vfinite (vadd (znew RefLib.lib 8 p) p) = true /\
                   no_neg_zero p = true) pos /\
  mand2 RefLib.lib pos 6 8 = [0x1.62e42fefa39efp-1].
Proof.
  cbv zeta.
  assert (F : Forall (fun p => geb (norm3 p) bailout = true /\
                   is_finite (drnew RefLib.lib 8 (norm3 p) 1) = true /\
                   vfinite (vadd (znew RefLib.lib 8 p) p) = true /\
                   no_neg_zero p = true) [V3 2 0 0])
    by (repeat constructor).
  split; [lia|]. split; [exact F|].
  exact (far_estimate RefLib.lib [V3 2 0 0] 6 8 eq_refl F).
Defined.

(** X8.  The rays do not influence one another: [mand2] of two batches put
    end to end is the two results put end to end, and so are the positions
    the marching loop of [visualize] reaches, for every number of
    iterations. *)
Theorem batches_are_independent (L : MathLib) (order power nmarch : Z)
  (d1 d2 p1 p2 : list vec3) :
  length d1 = length p1 ->
  let de := fun ps => mand2 L ps order power in
  de (p1 ++ p2) = de p1 ++ de p2 /\
  fst (march_loop de (d1 ++ d2) nmarch (p1 ++ p2)) =
  fst (march_loop de d1 nmarch p1) ++ fst (march_loop de d2 nmarch p2).
Proof.
  intros H. cbv zeta. split.
  - rewrite !Mand2Facts.mand2_map. apply map_app.
  - rewrite !MarchFacts.march_loop_iter. cbn [fst].
    set (f := mand2_point L order power).
    assert (Hde : forall ps, mand2 L ps order power = map f ps)
      by (intros ps; apply Mand2Facts.mand2_map).
    rewrite !(MarchFacts.iter_ext _ _ _ _
                (fun y => MarchFacts.march_step_rows _ f Hde _ y)).
    induction (Z.to_nat nmarch) as [|n IH]; [reflexivity|].
    rewrite !Nat.iter_succ, IH. apply zipWith_app.
    rewrite length_iter_zipWith; assumption.
Qed.

(** Two frozen rays, marched together and one by one. *)
Lemma batches_are_independent_witness :
  let de := fun ps => mand2 RefLib.lib ps 6 8 in
  let d := towards_origin in
  length [d] = length [V3 0 5 0] /\
  (de ([V3 0 5 0] ++ [V3 0 0 5]) = de [V3 0 5 0] ++ de [V3 0 0 5] /\
   fst (march_loop de ([d] ++ [d]) 2 ([V3 0 5 0] ++ [V3 0 0 5])) =
   fst (march_loop de [d] 2 [V3 0 5 0]) ++ fst (march_loop de [d] 2 [V3 0 0 5])).
Proof.
  cbv zeta. split; [reflexivity|].
  apply (batches_are_independent RefLib.lib 6 8 2 [towards_origin]
           [towards_origin] [V3 0 5 0] [V3 0 0 5]).
  reflexivity.
Defined.

End Toolbox.

(** ** mandelclass_v04.py: further properties *)

Module Projection.

Import Jtoolbox mandelclass Ray Camera Ieee Examples.
Import FloatFacts ArrayFacts BlendFacts NumberFacts GridFacts MethodFacts.
Import NpImage Methods.

(** X9.  The layout of the rays: [visualize] sets up [res * res] rays, and ray
    number [i * res + j] looks through the point [(vx[i], vy[j], 1)] of the
    image plane, [vx = vy = linspace(-0.5, 0.5, res)]: its direction is that
    point, normalized and turned by the three rotations. *)
Theorem ray_layout (L : MathLib) (self : Mandelbulb) (dirs : list vec3)
  (c : vec3) (vx : list float) (i j : nat) (x y : float) :
  camera L self = Ok (dirs, c) ->
  linspace (-0.5) 0.5 (res self) = Some vx ->
  nth_error vx i = Some x -> nth_error vx j = Some y ->
  length dirs = (Z.to_nat (res self) * Z.to_nat (res self))%nat /\
  nth_error dirs (i * Z.to_nat (res self) + j)
  = Some (orientation L self (normalize (V3 x y 1))).
Proof.
  intros E Hx Hi Hj.
  destruct (camera_rays L self dirs c E) as (_ & _ & Ld & vx' & Hx' & Lx & D).
  rewrite Hx in Hx'. injection Hx' as <-.
  split; [exact Ld|].
  rewrite D, nth_error_map, <- Lx.
  now rewrite (grid_nth vx vx i j x y Hi Hj).
Qed.

(** A 2 x 2 image: ray 2 looks through [(0.5, -0.5, 1)]. *)
Lemma ray_layout_witness :
  let self := __init__ 2 0 6 8 3 0 0 in
  exists dirs c,
    camera RefLib.lib self = Ok (dirs, c) /\
    linspace (-0.5) 0.5 (res self) = Some [-0.5; 0.5] /\
    nth_error [-0.5; 0.5] 1 = Some 0.5 /\
    nth_error [-0.5; 0.5] 0 = Some (-0.5) /\
    (length dirs = (Z.to_nat (res self) * Z.to_nat (res self))%nat /\
     nth_error dirs (1 * Z.to_nat (res self) + 0)
     = Some (orientation RefLib.lib self (normalize (V3 0.5 (-0.5) 1)))).
Proof.
  cbv zeta. do 2 eexists.
  do 4 (split; [reflexivity|]).
  eapply (ray_layout RefLib.lib (__init__ 2 0 6 8 3 0 0) _ _ [-0.5; 0.5] 1 0);
    reflexivity.
Defined.

(** X10.  With elevation 0 and azimuth 0 (and a library with [cos 0 = 1],
    [sin 0 = 0]) the rays start at [self.campos] itself, so that the depth
    [render] computes is the distance of each ray to the point it started
    from. *)
Theorem camera_at_rest (L : MathLib) (env : clock) (filename : string)
  (self self1 : Mandelbulb) (out : list line) (dirs : list vec3) (c : vec3) :
  cos L 0 = 1 -> sin L 0 = 0 -> ele self = 0 -> azi self = 0 ->
  vfinite (campos self) = true -> no_neg_zero (campos self) = true ->
  camera L self = Ok (dirs, c) ->
  visualize L env self = Ok (self1, out) ->
  c = campos self /\
  exists ps,
    pos self1 = Some ps /\
    dis (object (render L filename self1))
    = Some (map (fun p => distance p c) ps).
Proof.
  intros C S He Ha F N E V.
  assert (Hc : c = campos self).
  { destruct (ClassFacts.camera_ok L self dirs c E) as (-> & _).
    unfold turn. rewrite He, Ha.
    rewrite (rotx_unit L 0 (campos self) C S F N).
    exact (rotz_unit L 0 (campos self) C S F N). }
  split; [exact Hc|].
  destruct (visualize_positions L env self self1 out V)
    as (_ & _ & ps & _ & P & _ & _ & _ & _ & _ & Cp & _).
  exists ps. split; [exact P|].
  destruct (render_object L filename self1) as [[P' _]|(ps' & P' & ->)];
    rewrite P in P'; [discriminate|]. injection P' as <-.
  cbn [dis set_dis]. now rewrite distance_map_distance, Cp, Hc.
Qed.

(** The default camera and a 1 x 1 image. *)
Lemma camera_at_rest_witness :
  let self := __init__ 1 0 6 8 3 0 0 in
  let env := Clock 7 "20230104191512" in
  exists self1 out dirs c,
    cos RefLib.lib 0 = 1 /\ sin RefLib.lib 0 = 0 /\
    ele self = 0 /\ azi self = 0 /\
    vfinite (campos self) = true /\ no_neg_zero (campos self) = true /\
    camera RefLib.lib self = Ok (dirs, c) /\
    visualize RefLib.lib env self = Ok (self1, out) /\
    (c = campos self /\
     exists ps,
       pos self1 = Some ps /\
       dis (object (render RefLib.lib "mandelclass_v04.py" self1))
       = Some (map (fun p => distance p c) ps)).
Proof.
  cbv zeta. do 4 eexists.
  do 6 (split; [reflexivity|]).
  split; [reflexivity|]. split; [reflexivity|].
  eapply (camera_at_rest RefLib.lib (Clock 7 "20230104191512")
           "mandelclass_v04.py" (__init__ 1 0 6 8 3 0 0));
    reflexivity.
Defined.

(** X11.  [visualize] reads [res], [nmarch], [order], [power], [ele], [azi]
    and [campos], and nothing else: two objects that agree on these end with
    the same positions, the same printed lines, the same time and file name,
    or raise the same exception.  The attribute [proximity] is not read:
    changing it after [__init__] has no effect. *)
Theorem visualize_reads_configuration (L : MathLib) (env : clock)
  (self self' : Mandelbulb) :
  res self = res self' -> nmarch self = nmarch self' ->
  order self = order self' -> power self = power self' ->
  ele self = ele self' -> azi self = azi self' ->
  campos self = campos self' ->
  match visualize L env self, visualize L env self' with
  | Ok (s, out), Ok (s', out') =>
      pos s = pos s' /\ out = out' /\
      elapsed_time s = elapsed_time s' /\ fname s = fname s'
  | Raise e, Raise e' => e = e'
  | _, _ => False
  end.
Proof.
  intros R M O P E A C. unfold visualize, camera.
  rewrite <- R, <- M, <- O, <- P, <- E, <- A, <- C.
  destruct (linspace (-0.5) 0.5 (res self)) as [vx|]; [|reflexivity].
  destruct (march_loop _ _ (nmarch self) _) as [pos' out].
  now repeat split.
Qed.

(** The default camera, and the same object after [proximity = 5] and with
    attributes left by earlier calls. *)
Lemma visualize_reads_configuration_witness :
  let self := __init__ 1 0 6 8 3 0 0 in
  let self' :=
    {| res := 1; nmarch := 0; order := 6; power := 8; proximity := 5;
       ele := 0; azi := 0; campos := V3 0 3 0;
       pos := Some [V3 1 1 1]; elapsed_time := None; fname := None;
       dis := Some [2] |} in
  let env := Clock 7 "20230104191512" in
  res self = res self' /\ nmarch self = nmarch self' /\
  order self = order self' /\ power self = power self' /\
  ele self = ele self' /\ azi self = azi self' /\
  campos self = campos self' /\
  match visualize RefLib.lib env self, visualize RefLib.lib env self' with
  | Ok (s, out), Ok (s', out') =>
      pos s = pos s' /\ out = out' /\
      elapsed_time s = elapsed_time s' /\ fname s = fname s'
  | Raise e, Raise e' => e = e'
  | _, _ => False
  end.
Proof.
  cbv zeta. do 7 (split; [reflexivity|]).
  apply (visualize_reads_configuration RefLib.lib
           (Clock 7 "20230104191512") (__init__ 1 0 6 8 3 0 0)); reflexivity.
Defined.

(** X12.  With [nmarch <= 0] the loop body never runs: every ray is left at
    the rotated camera position, the only line printed is the computation
    time, and [render] finds one and the same depth for all [res * res]
    rays. *)
Theorem no_marching (L : MathLib) (env : clock) (filename : string)
  (self self1 : Mandelbulb) (out : list line) (dirs : list vec3) (c : vec3) :
  (nmarch self <= 0)%Z ->
  camera L self = Ok (dirs, c) ->
  visualize L env self = Ok (self1, out) ->
  let n := (Z.to_nat (res self) * Z.to_nat (res self))%nat in
  pos self1 = Some (repeat c n) /\
  out = [ComputationTime (elapsed env)] /\
  dis (object (render L filename self1))
  = Some (repeat (distance c (campos self)) n).
Proof.
  intros M E V. cbv zeta.
  destruct (visualize_positions L env self self1 out V)
    as (dirs' & c' & ps & E' & P & Hps & _ & _ & _ & _ & Cp & _ & _ & O).
  rewrite E in E'. injection E' as <- <-.
  replace (Z.to_nat (nmarch self)) with 0%nat in Hps by lia.
  cbn [Nat.iter nat_rect] in Hps. subst ps.
  split; [exact P|]. split.
  - rewrite O. unfold range. now replace (Z.to_nat (nmarch self)) with 0%nat by lia.
  - destruct (render_object L filename self1) as [[P' _]|(ps' & P' & ->)];
      rewrite P in P'; [discriminate|]. injection P' as <-.
    cbn [dis set_dis]. rewrite distance_map_distance, Cp.
    now rewrite map_repeat.
Qed.

(** A 2 x 2 image and no marching. *)
Lemma no_marching_witness :
  let self := __init__ 2 0 6 8 3 0 0 in
  let env := Clock 7 "20230104191512" in
  exists self1 out dirs c,
    (nmarch self <= 0)%Z /\
    camera RefLib.lib self = Ok (dirs, c) /\
    visualize RefLib.lib env self = Ok (self1, out) /\
    (pos self1 = Some (repeat c 4) /\
     out = [ComputationTime 7] /\
     dis (object (render RefLib.lib "mandelclass_v04.py" self1))
     = Some (repeat (distance c (campos self)) 4)).
Proof.
  cbv zeta. do 4 eexists. split; [cbn; lia|].
  split; [reflexivity|]. split; [reflexivity|].
  eapply (no_marching RefLib.lib (Clock 7 "20230104191512")
            "mandelclass_v04.py" (__init__ 2 0 6 8 3 0 0));
    [cbn; lia | reflexivity | reflexivity].
Defined.

(** X13.  NaN is absorbing: a coordinate of a ray that is NaN at some
    iteration is NaN at every later iteration, whatever the estimator returns,
    and the depth of such a ray is NaN from every camera position. *)
Theorem nan_is_absorbing (de : list vec3 -> list float) (f : vec3 -> float)
  (dirs pos0 : list vec3) (k n i : nat) (d p : vec3) :
  (forall ps, de ps = map f ps) ->
  nth_error dirs i = Some d ->
  nth_error (positions de dirs pos0 k) i = Some p ->
  is_nan (c0 p) || is_nan (c1 p) || is_nan (c2 p) = true ->
  exists q,
    nth_error (positions de dirs pos0 (k + n)) i = Some q /\
    (is_nan (c0 p) = true -> is_nan (c0 q) = true) /\
    (is_nan (c1 p) = true -> is_nan (c1 q) = true) /\
    (is_nan (c2 p) = true -> is_nan (c2 q) = true) /\
    forall c, is_nan (distance q c) = true.
Proof.
  intros Hde Hd Hp N.
  exists (Nat.iter n (march_ray f d) p).
  rewrite MarchFacts.positions_add.
  rewrite (MarchFacts.nth_march_iter de f Hde _ _ _ _ _ n Hd Hp).
  destruct (march_iter_keeps_nan f d p n) as (H0 & H1 & H2).
  split; [reflexivity|]. do 3 (split; [assumption|]).
  intros c. apply distance_nan.
  apply orb_true_iff in N as [N|N]; [apply orb_true_iff in N as [N|N]|].
  - now rewrite H0.
  - rewrite H1 by assumption. now rewrite orb_true_r.
  - rewrite H2 by assumption. now rewrite orb_true_r.
Qed.

(** The ray on the z axis at distance 5, NaN after one iteration. *)
Lemma nan_is_absorbing_witness :
  let de := fun ps => mand2 RefLib.lib ps 6 8 in
  let p := V3 nan nan 5 in
  nth_error (positions de [towards_origin] [V3 0 0 5] 1) 0 = Some vnan /\
  exists q,
    nth_error (positions de [towards_origin] [V3 0 0 5] (1 + 2)) 0 = Some q /\
    (is_nan (c0 vnan) = true -> is_nan (c0 q) = true) /\
    (is_nan (c1 vnan) = true -> is_nan (c1 q) = true) /\
    (is_nan (c2 vnan) = true -> is_nan (c2 q) = true) /\
    forall c, is_nan (distance q c) = true.
Proof.
  cbv zeta. split; [reflexivity|].
  apply (nan_is_absorbing (fun ps => mand2 RefLib.lib ps 6 8)
           (mand2_point RefLib.lib 6 8) [towards_origin] [V3 0 0 5] 1 2 0
           towards_origin vnan);
    solve [ reflexivity | intros ps; apply Mand2Facts.mand2_map ].
Defined.

(** X14.  The shaded image of [render] has as many rows as the depth map and
    two columns fewer; its pixel [(i, j)] is computed from the depths [(i, j)]
    and [(i, j + 1)] alone, and the last column of the depth map is never
    read: two depth maps that differ in their last column only give the same
    image. *)
Theorem shade_geometry (L : MathLib) (n : Z) (im : list (list float)) :
  length (shade L n im) = length im /\
  (forall i row, nth_error im i = Some row ->
     exists srow,
       nth_error (shade L n im) i = Some srow /\
       length srow = (length row - 2)%nat /\
       forall j a b, (j + 2 < length row)%nat ->
         nth_error row j = Some a -> nth_error row (S j) = Some b ->
         nth_error srow j = Some (pixel L n a b)) /\
  (forall im', map (@removelast float) im = map (@removelast float) im' ->
     shade L n im = shade L n im').
Proof.
  rewrite shade_rows. split; [apply length_map|]. split.
  - intros i row Hi. eexists. split; [rewrite nth_error_map, Hi; reflexivity|].
    split; [apply shade_row_length|].
    intros j a b Hj Ha Hb. apply nth_error_zipWith.
    + rewrite nth_error_firstn.
      now rewrite (proj2 (Nat.ltb_lt j (length row - 2))) by lia.
    + rewrite nth_error_firstn.
      rewrite (proj2 (Nat.ltb_lt j (length row - 2))) by lia.
      now rewrite nth_error_skipn.
  - intros im' E. rewrite shade_rows.
    rewrite (map_ext _ _ (shade_row_removelast L n)).
    symmetry. rewrite (map_ext _ _ (shade_row_removelast L n)). symmetry.
    rewrite <- (map_map (@removelast float)
                  (fun r => zipWith (pixel L n) (firstn (length r - 1) r)
                                    (skipn 1 r))).
    rewrite E. now rewrite map_map.
Qed.

(** X15.  Every pixel of the shaded image is NaN or lies in [[0, 1]]; and a
    pixel whose depth is not below 4 is 0, provided the arctangent the library
    returns there and [res] are finite numbers. *)
Theorem pixel_values (L : MathLib) (n : Z) (im : list (list float)) :
  Forall (Forall (fun x => is_nan x = true \/
                           (0 <=? x) = true /\ (x <=? 1) = true))
         (shade L n im) /\
  (forall a b,
     (a <? 4) = false ->
     is_finite (arctan L ((a - b) * 250 - 0.1)) = true ->
     is_finite (of_int n) = true ->
     (pixel L n a b =? 0) = true).
Proof.
  split.
  - rewrite shade_rows. apply Forall_map, Forall_forall. intros row _.
    apply Forall_zipWith. intros a b. apply clip_unit.
  - intros a b M Fa Fn. now apply zero_eqb, pixel_masked.
Qed.

(** X16.  A depth map that is constant renders black: if all depths are one
    and the same finite number, every pixel compares equal to 0 (it is [+0.0]
    or [-0.0]), for a library whose arctangent at [-0.1] is a number that is
    not positive and a resolution that is not negative. *)
Theorem flat_depth_is_black (L : MathLib) (n : Z) (a : float)
  (im : list (list float)) :
  is_finite a = true ->
  (arctan L (-0.1) <=? 0) = true -> is_finite (arctan L (-0.1)) = true ->
  (0 <=? of_int n) = true -> is_finite (of_int n) = true ->
  Forall (Forall (fun x => x = a)) im ->
  Forall (Forall (fun x => (x =? 0) = true)) (shade L n im).
Proof.
  intros Fa Ha Ft Hn Fn F. rewrite shade_rows.
  apply Forall_map. revert F. apply Forall_impl. intros row Hrow.
  apply Forall_zipWith_both
    with (P := fun x => x = a) (Q := fun x => x = a).
  - intros x y -> ->. now apply pixel_flat.
  - now apply Forall_firstn_keep.
  - now apply Forall_firstn_keep, Forall_skipn_keep.
Qed.

(** A 3 x 3 depth map of depth 5, past the mask: every pixel is [-0.0]. *)
Lemma flat_depth_is_black_witness :
  let im := [[5; 5; 5]; [5; 5; 5]; [5; 5; 5]] in
  is_finite 5 = true /\
  (arctan ShadeLib.lib (-0.1) <=? 0) = true /\
  is_finite (arctan ShadeLib.lib (-0.1)) = true /\
  (0 <=? of_int 3) = true /\ is_finite (of_int 3) = true /\
  Forall (Forall (fun x => x = 5)) im /\
  shade ShadeLib.lib 3 im = [[neg_zero]; [neg_zero]; [neg_zero]] /\
  Forall (Forall (fun x => (x =? 0) = true)) (shade ShadeLib.lib 3 im).
Proof.
  cbv zeta.
  assert (F : Forall (Forall (fun x => x = 5))
                     [[5; 5; 5]; [5; 5; 5]; [5; 5; 5]])
    by (repeat constructor).
  do 5 (split; [reflexivity|]). split; [exact F|]. split; [reflexivity|].
  exact (flat_depth_is_black ShadeLib.lib 3 5 _ eq_refl eq_refl eq_refl
           eq_refl eq_refl F).
Defined.

(** The same at depth 3, below the mask: the negative shade is cut to the
    bound [+0.0]. *)
Example flat_depth_below_mask :
  shade ShadeLib.lib 3 [[3; 3; 3]; [3; 3; 3]; [3; 3; 3]] = [[0]; [0]; [0]].
Proof. reflexivity. Qed.

(** X17.  [render] assigns [self.dis] and nothing else, however it ends: all
    other attributes, [pos] included, are left as they were, [dis] is the map
    of distances to [self.campos] as soon as [pos] exists; and a second call
    on the object the first one leaves ends exactly as the first. *)
Theorem render_frame (L : MathLib) (filename : string) (self : Mandelbulb) :
  let o := render L filename self in
  (res (object o) = res self /\ nmarch (object o) = nmarch self /\
   order (object o) = order self /\ power (object o) = power self /\
   proximity (object o) = proximity self /\ ele (object o) = ele self /\
   azi (object o) = azi self /\ campos (object o) = campos self /\
   pos (object o) = pos self /\ elapsed_time (object o) = elapsed_time self /\
   fname (object o) = fname self) /\
  (pos self = None /\ dis (object o) = dis self \/
   exists ps, pos self = Some ps /\
     dis (object o) = Some (map (fun p => distance p (campos self)) ps)) /\
  render L filename (object o) = o.
Proof.
  cbv zeta.
  destruct (render_object L filename self) as [[P ->]|(ps & P & ->)].
  - split; [now repeat split|]. split; [now left | reflexivity].
  - split; [now repeat split|]. split.
    + right. exists ps. split; [exact P|]. cbn [dis set_dis].
      now rewrite distance_map_distance.
    + now apply render_set_dis.
Qed.


(** X19.  [render] after [visualize]: [visualize] leaves [res * res]
    positions, and the image [render] shows has [res - 2] rows of [res]
    pixels, not [res x res].  From a resolution of 3 on [render] runs to its
    end: it draws the figure with the title of this run, saves it as
    ["figure_" + stamp + "Mandelbulb.png"], saves the image as
    [stamp + "Mandelbulb.png"] and prints its line.  For a resolution of 0, 1
    or 2 the image has no entries: the figure is drawn and saved, then
    [imsave] raises [ValueError], and neither the image is saved nor the line
    printed. *)
Theorem visualize_then_render (L : MathLib) (env : clock) (filename : string)
  (self self1 : Mandelbulb) (out : list line) :
  visualize L env self = Ok (self1, out) ->
  exists ps image,
    pos self1 = Some ps /\
    length ps = (Z.to_nat (res self) * Z.to_nat (res self))%nat /\
    length image = (Z.to_nat (res self) - 2)%nat /\
    Forall (fun row => length row = Z.to_nat (res self)) image /\
    ((3 <= res self)%Z ->
     render L filename self1 =
     Outcome (set_dis self1 (distance_map self1 ps))
             [PltFigure 2; FigClf; FigSubplots 1 1; AxImshow image "gray";
              AxSetTitle (im_title filename self (elapsed env));
              FigTightLayout; CanvasDraw; PltShow;
              PltSavefig ("figure_" ++ stamp env ++ "Mandelbulb.png")%string;
              PliImsave (stamp env ++ "Mandelbulb.png")%string image "gray";
              PrintLine "Image files saved"]
             None) /\
    ((res self <= 2)%Z ->
     render L filename self1 =
     Outcome (set_dis self1 (distance_map self1 ps))
             [PltFigure 2; FigClf; FigSubplots 1 1; AxImshow image "gray";
              AxSetTitle (im_title filename self (elapsed env));
              FigTightLayout; CanvasDraw; PltShow;
              PltSavefig ("figure_" ++ stamp env ++ "Mandelbulb.png")%string]
             (Some ValueError)).
Proof. apply render_after_visualize. Qed.

(** A 3 x 3 depth map: the image is one row of three pixels, and it is
    saved. *)
Lemma visualize_then_render_witness :
  let self := __init__ 3 0 6 8 3 0 0 in
  let env := Clock 7 "20230104191512" in
  exists self1 out,
    visualize RefLib.lib env self = Ok (self1, out) /\
    raised (render RefLib.lib "mandelclass_v04.py" self1) = None /\
    exists ps image,
      pos self1 = Some ps /\
      length ps = (Z.to_nat (res self) * Z.to_nat (res self))%nat /\
      length image = (Z.to_nat (res self) - 2)%nat /\
      Forall (fun row => length row = Z.to_nat (res self)) image /\
      ((3 <= res self)%Z ->
       render RefLib.lib "mandelclass_v04.py" self1 =
       Outcome (set_dis self1 (distance_map self1 ps))
               [PltFigure 2; FigClf; FigSubplots 1 1; AxImshow image "gray";
                AxSetTitle (im_title "mandelclass_v04.py" self (elapsed env));
                FigTightLayout; CanvasDraw; PltShow;
                PltSavefig ("figure_" ++ stamp env ++ "Mandelbulb.png")%string;
                PliImsave (stamp env ++ "Mandelbulb.png")%string image "gray";
                PrintLine "Image files saved"]
               None) /\
      ((res self <= 2)%Z ->
       render RefLib.lib "mandelclass_v04.py" self1 =
       Outcome (set_dis self1 (distance_map self1 ps))
               [PltFigure 2; FigClf; FigSubplots 1 1; AxImshow image "gray";
                AxSetTitle (im_title "mandelclass_v04.py" self (elapsed env));
                FigTightLayout; CanvasDraw; PltShow;
                PltSavefig ("figure_" ++ stamp env ++ "Mandelbulb.png")%string]
               (Some ValueError)).
Proof.
  cbv zeta. do 2 eexists. split; [reflexivity|]. split; [reflexivity|].
  eapply (visualize_then_render RefLib.lib (Clock 7 "20230104191512")
            "mandelclass_v04.py" (__init__ 3 0 6 8 3 0 0)).
  reflexivity.
Defined.

(** A 2 x 2 depth map: the image has no entries; the figure is saved, the
    image is not. *)
Example small_image_is_not_saved :
  let self := __init__ 2 0 6 8 3 0 0 in
  let env := Clock 7 "20230104191512" in
  exists self1 out image,
    visualize RefLib.lib env self = Ok (self1, out) /\
    raised (render RefLib.lib "mandelclass_v04.py" self1) = Some ValueError /\
    calls (render RefLib.lib "mandelclass_v04.py" self1) =
    [PltFigure 2; FigClf; FigSubplots 1 1; AxImshow image "gray";
     AxSetTitle (im_title "mandelclass_v04.py" self 7);
     FigTightLayout; CanvasDraw; PltShow;
     PltSavefig "figure_20230104191512Mandelbulb.png"] /\
    image = [].
Proof. cbv zeta. do 3 eexists. repeat split; reflexivity. Qed.

(** X20.  [__str__] shows the resolution and nothing else: two objects print
    the same text exactly when their [res] are equal. *)
Theorem str_shows_resolution (self self' : Mandelbulb) :
  __str__ self = __str__ self' <-> res self = res self'.
Proof.
  split; [|unfold __str__; now intros ->].
  unfold __str__. intros H.
  do 3 apply append_inj_l in H.
  apply str_inj. apply append_inj_length with (2 := H).
  apply (f_equal String.length) in H.
  rewrite !length_append in H. cbn [String.length] in H. lia.
Qed.

(** The text of the default object. *)
Example str_default :
  __str__ default
  = ("Mandelbulb object" ++ Py.nl ++ "Resolution: 200x200")%string.
Proof. reflexivity. Qed.

End Projection.

(** ** mandelskeleton_03.py: the run of the script *)

Module Script.

Import Jtoolbox mandelclass Ray Camera.
Import ArrayFacts GridFacts MethodFacts NpImage Methods mandelskeleton.

(** X21.  The script runs to its end for every library and every clock: its
    object is the default one at elevation [pi/180*310] (the assignment of
    [res] changes nothing); [visualize] prints the 200 lines that count down
    from 200 and the computation time, and leaves 40000 positions and the
    camera attribute [(0, 3, 0)]; [render] draws and saves an image of 198
    rows of 200 pixels under the two file names of the run. *)
Theorem script_run (L : MathLib) (env : clock) (filename : string) :
  my_fractal = __init__ 200 200 6 8 3 (pi / 180 * 310) 0 /\
  exists self1 ps image,
    script L env filename =
    Ok (map (fun ii => RemainingIterations (200 - ii)) (range 200)
        ++ [ComputationTime (elapsed env)],
        Outcome (set_dis self1 (distance_map self1 ps))
          [PltFigure 2; FigClf; FigSubplots 1 1; AxImshow image "gray";
           AxSetTitle (im_title filename my_fractal (elapsed env));
           FigTightLayout; CanvasDraw; PltShow;
           PltSavefig ("figure_" ++ stamp env ++ "Mandelbulb.png")%string;
           PliImsave (stamp env ++ "Mandelbulb.png")%string image "gray";
           PrintLine "Image files saved"]
          None) /\
    pos self1 = Some ps /\ length ps = (200 * 200)%nat /\
    campos self1 = V3 0 3 0 /\
    length image = 198%nat /\
    Forall (fun row => length row = 200%nat) image.
Proof.
  split; [reflexivity|].
  destruct (ClassFacts.camera_nonnegative L my_fractal) as (dirs & c & E);
    [cbn; lia|].
  destruct (ClassFacts.visualize_ok L env my_fractal dirs c E)
    as (pos' & out' & _ & V).
  destruct (render_after_visualize L env filename my_fractal _ _ V)
    as (ps & image & P & Len & Li & Lr & Big & _).
  assert (R := Big ltac:(cbn; lia)).
  destruct (visualize_positions L env my_fractal _ _ V)
    as (_ & _ & _ & _ & _ & _ & _ & _ & _ & _ & Cp & _ & _ & O).
  eexists. exists ps, image.
  unfold script. rewrite V, R, O.
  split; [reflexivity|]. split; [exact P|].
  split; [exact Len|]. split; [exact Cp|]. split; [exact Li | exact Lr].
Qed.

End Script.
